(** * Process simulator: field model, orchestrator and tick scheduling

    A shallow embedding of the Python sources

    - [simulator/variables.py]  (Field, FieldCollection, FluidField,
      BreakerStateField, DisconnectorStateField),
    - [simulator/process.py]    (Process: the orchestrator),
    - [scenarios/hydro/components/component.py] (Component),
    - [scenarios/hydro/components/objects.py] and the four components
      [hydraulicCentral.py], [cooling.py], [levelRegulation.py] and
      [turbine.py], wired as in [scenarios/hydro/hydro.py],
    - [protocols/modbus.py]     (redis_encode, redis_decode and the
      accessors of RedisDataBlock)

    together with the properties of the field model, of the per-tick
    synchronisation cycle, of the evaluation order of components, of the
    update steps of the hydro components and of the register side of the
    store.

    Conventions.  A Python call that may raise is a computation returning
    [Ok v] or [Raise e]; a method that mutates its receiver threads the
    receiver explicitly, and the state reached when an exception is raised is
    kept (Python does not roll back).  Python numbers ([int] and [float]) are
    idealised as exact rationals [Qc] and their arithmetic is exact; the one
    conversion written out is [float] on a number, in [modbus.py], which
    rounds to a double. *)

From Stdlib Require Import Ascii QArith Qcanon Qround Lqa.
From stdpp Require Import base strings list gmap numbers.

Set Default Proof Using "Type".

(** ** Exceptions and the state-and-exception monad *)

Inductive exn : Type :=
  | TypeError
  | ValueError
  | AttributeError
  | IndexError
  | KeyError
  | JSONDecodeError
  | ConnectionError
  | OverflowError.

Inductive result (A : Type) : Type :=
  | Ok (a : A)
  | Raise (e : exn).
Arguments Ok {A} a.
Arguments Raise {A} e.

Definition is_ok {A} (r : result A) : bool :=
  match r with Ok _ => true | Raise _ => false end.

(** [M S A]: a computation over a mutable state [S].  The final state is
    returned also when the computation raises. *)
Definition M (S A : Type) : Type := S → result A * S.

Definition ret {S A} (a : A) : M S A := λ s, (Ok a, s).
Definition raise {S A} (e : exn) : M S A := λ s, (Raise e, s).
Definition bind {S A B} (m : M S A) (k : A → M S B) : M S B :=
  λ s, match m s with
       | (Ok a, s') => k a s'
       | (Raise e, s') => (Raise e, s')
       end.
Definition get_state {S} : M S S := λ s, (Ok s, s).
Definition put_state {S} (s : S) : M S unit := λ _, (Ok tt, s).
Definition modify {S} (f : S → S) : M S unit := λ s, (Ok tt, f s).
Definition lift_result {S A} (r : result A) : M S A := λ s, (r, s).

Global Instance M_ret {S} : MRet (M S) := λ A, ret.
Global Instance M_bind {S} : MBind (M S) := λ A B k m, bind m k.

(** A Python [for] loop whose body may raise: the first exception stops it. *)
Fixpoint for_each {S A} (l : list A) (body : A → M S unit) : M S unit :=
  match l with
  | [] => ret tt
  | a :: l' => body a;; for_each l' body
  end.

(** A property of the state that a computation keeps, whether it returns
    or raises. *)
Definition stable {S A} (P : S → Prop) (m : M S A) : Prop :=
  ∀ s r s', P s → m s = (r, s') → P s'.

(** Unfolding the monad down to the state-passing functions. *)
Ltac unfold_M :=
  unfold mbind, M_bind, mret, M_ret, bind, ret, raise, get_state, put_state,
    modify, lift_result in *.

(** ** [variables.py] *)

Module Variables.

(** *** [FieldType] *)

Inductive FieldType : Type :=
  | INPUT_BIT
  | OUTPUT_BIT
  | DIGITAL_BIT
  | ANALOG_BIT
  | DIGITAL_INPUT
  | DIGITAL_OUTPUT
  | ANALOG_INPUT
  | ANALOG_OUTPUT
  | _NONE_TYPE.

(** The [.value] of a member; [_NONE_TYPE] carries Python's [None]. *)
Definition FieldType_value (t : FieldType) : option Z :=
  match t with
  | INPUT_BIT => Some 0x01%Z
  | OUTPUT_BIT => Some 0x02%Z
  | DIGITAL_BIT => Some 0x04%Z
  | ANALOG_BIT => Some 0x08%Z
  | DIGITAL_INPUT => Some (Z.lor 0x01 0x04)
  | DIGITAL_OUTPUT => Some (Z.lor 0x02 0x04)
  | ANALOG_INPUT => Some (Z.lor 0x01 0x08)
  | ANALOG_OUTPUT => Some (Z.lor 0x02 0x08)
  | _NONE_TYPE => None
  end.

(** [getattr(FieldType, name)] for the member names. *)
Definition FieldType_of_name (n : string) : option FieldType :=
  if decide (n = "INPUT_BIT") then Some INPUT_BIT
  else if decide (n = "OUTPUT_BIT") then Some OUTPUT_BIT
  else if decide (n = "DIGITAL_BIT") then Some DIGITAL_BIT
  else if decide (n = "ANALOG_BIT") then Some ANALOG_BIT
  else if decide (n = "DIGITAL_INPUT") then Some DIGITAL_INPUT
  else if decide (n = "DIGITAL_OUTPUT") then Some DIGITAL_OUTPUT
  else if decide (n = "ANALOG_INPUT") then Some ANALOG_INPUT
  else if decide (n = "ANALOG_OUTPUT") then Some ANALOG_OUTPUT
  else if decide (n = "_NONE_TYPE") then Some _NONE_TYPE
  else None.

(** *** The two state enumerations *)

Inductive BreakerStateType : Type := B_CLOSED | B_OPEN | B_TRANSITION | B_BROKEN.

Definition BreakerStateType_value (s : BreakerStateType) : bool * bool :=
  match s with
  | B_CLOSED => (false, true)
  | B_OPEN => (true, false)
  | B_TRANSITION => (false, false)
  | B_BROKEN => (true, true)
  end.

Inductive DisconnectorStateType : Type := D_OPEN | D_CLOSED | D_BROKEN.

Definition DisconnectorStateType_value (s : DisconnectorStateType) : string :=
  match s with
  | D_OPEN => "Open"
  | D_CLOSED => "Closed"
  | D_BROKEN => "Broken"
  end.

Global Instance FieldType_eq_dec : EqDecision FieldType.
Proof. solve_decision. Defined.
Global Instance BreakerStateType_eq_dec : EqDecision BreakerStateType.
Proof. solve_decision. Defined.
Global Instance DisconnectorStateType_eq_dec : EqDecision DisconnectorStateType.
Proof. solve_decision. Defined.

(** *** Python values held by fields *)

Inductive pyval : Type :=
  | PNone
  | PBool (b : bool)
  | PNum (q : Qc)
  | PStr (s : string)
  | PBreaker (s : BreakerStateType)
  | PDisconnector (s : DisconnectorStateType).

Global Instance pyval_eq_dec : EqDecision pyval.
Proof. solve_decision. Defined.

(** Truth value of an object in a condition. *)
Definition py_truthy (v : pyval) : bool :=
  match v with
  | PNone => false
  | PBool b => b
  | PNum q => negb (bool_decide (q = Q2Qc 0))
  | PStr s => negb (bool_decide (s = ""))
  | PBreaker _ => true
  | PDisconnector _ => true
  end.

(** *** [Field] *)

Record Field : Type := mkField {
  name : string;
  ioType : option FieldType;
  value : pyval;
  hide : option bool;
}.

Definition Field_init (name : string) (io_type : option FieldType)
    (value : pyval) (hide : option bool) : Field :=
  mkField name io_type value hide.

Definition set_value (v : pyval) (f : Field) : Field :=
  mkField (name f) (ioType f) v (hide f).

(** *** References to [Field] objects

    Field objects are mutable and shared: a collection, a component and the
    orchestrator hold references to the same object.  A heap maps every
    reference to the object it denotes (a Python reference never dangles). *)

Definition loc : Type := positive.
Definition heap : Type := loc → Field.

Definition write_value (l : loc) (v : pyval) (h : heap) : heap :=
  λ l', if decide (l' = l) then set_value v (h l) else h l'.

(** A Python object handed to a collection: a reference to a [Field] (or to
    an instance of a subclass), or an object of another class, of which only
    its [name] attribute, if it has one, is looked at. *)
Inductive pyref : Type :=
  | RField (l : loc)
  | ROther (name : option pyval).

(** [isinstance(o, Field)] *)
Definition isinstance_Field (o : pyref) : bool :=
  match o with RField _ => true | ROther _ => false end.

(** [o.value] and [o.value = v]; an object of another class is taken to have
    no [value] attribute. *)
Definition read_value (o : pyref) : M heap pyval :=
  match o with
  | RField l => λ h, (Ok (value (h l)), h)
  | ROther _ => raise AttributeError
  end.

Definition assign_value (o : pyref) (v : pyval) : M heap unit :=
  match o with
  | RField l => modify (write_value l v)
  | ROther _ => raise AttributeError
  end.

(** *** [FieldCollection] *)

Record FieldCollection : Type := mkFieldCollection {
  _fields : list pyref;
}.

(** The validation loop of [__init__]: [raise ValueError(field.name)] at the
    first member that is not a [Field]; evaluating [field.name] itself raises
    [AttributeError] when that object has no such attribute. *)
Fixpoint check_members (fields : list pyref) : result unit :=
  match fields with
  | [] => Ok tt
  | field :: rest =>
      if negb (isinstance_Field field) then
        match field with
        | ROther None => Raise AttributeError
        | _ => Raise ValueError
        end
      else check_members rest
  end.

Definition FieldCollection__init__ (fields : list pyref)
    : result FieldCollection :=
  match check_members fields with
  | Ok _ => Ok (mkFieldCollection fields)
  | Raise e => Raise e
  end.

(** The [fields] property: getter and setter. *)
Definition fields (self : FieldCollection) : list pyref := _fields self.

Definition fields_setter (fields : list pyref) (self : FieldCollection)
    : FieldCollection :=
  mkFieldCollection fields.

(** *** [BreakerStateField] *)

(** [BreakerStateType((v0, v1))]: lookup of a member by value.  Python
    compares the tuple by [==], under which [0 == False] and [1 == True]. *)
Definition as_bit (v : pyval) : option bool :=
  match v with
  | PBool b => Some b
  | PNum q =>
      if decide (q = Q2Qc 0) then Some false
      else if decide (q = Q2Qc 1) then Some true
      else None
  | _ => None
  end.

Definition BreakerStateType_of_value (v0 v1 : pyval) : result BreakerStateType :=
  match as_bit v0, as_bit v1 with
  | Some false, Some true => Ok B_CLOSED
  | Some true, Some false => Ok B_OPEN
  | Some false, Some false => Ok B_TRANSITION
  | Some true, Some true => Ok B_BROKEN
  | _, _ => Raise ValueError
  end.

(** [self.fields[i]] *)
Definition subscript (l : list pyref) (i : nat) : M heap pyref :=
  match l !! i with
  | Some o => mret o
  | None => raise IndexError
  end.

(** The [value] property getter. *)
Definition BreakerStateField_value (self : FieldCollection) : M heap pyval :=
  f0 ← subscript (fields self) 0;
  v0 ← read_value f0;
  f1 ← subscript (fields self) 1;
  v1 ← read_value f1;
  s ← lift_result (BreakerStateType_of_value v0 v1);
  mret (PBreaker s).

(** [val0, val1 = value.value]: only a [BreakerStateType] member has a
    two-element [value]; a [DisconnectorStateType] member has a string of
    another length, the other values have no [value] attribute. *)
Definition unpack_value (value : pyval) : result (bool * bool) :=
  match value with
  | PBreaker s => Ok (BreakerStateType_value s)
  | PDisconnector _ => Raise ValueError
  | _ => Raise AttributeError
  end.

(** The [value] property setter. *)
Definition BreakerStateField_value_setter (value : pyval)
    (self : FieldCollection) : M heap unit :=
  match fields self with
  | [state0; state1] =>
      '(val0, val1) ← lift_result (unpack_value value);
      assign_value state0 (PBool val0);;
      assign_value state1 (PBool val1)
  | _ => raise ValueError
  end.

(** [isinstance(value, BreakerStateType)] *)
Definition is_BreakerStateType (v : pyval) : bool :=
  match v with PBreaker _ => true | _ => false end.

(** [BreakerStateField(fields, value, hide)] *)
Definition BreakerStateField__init__ (fields : list pyref) (value : pyval)
    (hide : bool) : M heap FieldCollection :=
  if negb (is_BreakerStateType value) then raise TypeError
  else
    self ← lift_result (FieldCollection__init__ fields);
    BreakerStateField_value_setter value self;;
    mret self.

(** *** [FluidField] *)

(** A composition dictionary, as its items in insertion order. *)
Abbreviation fluid_dict := (list (string * Qc)).

(** [sum(fluid_dict.values())] *)
Definition sum_values (d : fluid_dict) : Qc :=
  foldr (λ kv acc, (kv.2 + acc)%Qc) (Q2Qc 0) d.

Definition _normalize (d : fluid_dict) : fluid_dict :=
  let total := sum_values d in
  if decide (Q2Qc 0 < total)%Qc then
    (λ kv, (kv.1, (kv.2 / total)%Qc)) <$> filter (λ kv, kv.2 ≠ Q2Qc 0) d
  else [].

(** The class attributes that name the fluids and the pipes. *)
Definition FluidField_constants : list (string * string) :=
  [("AIR", "AIR"); ("H2", "H2"); ("N2", "N2");
   ("P1", "P1"); ("P2", "P2"); ("P3", "P3"); ("P4", "P4"); ("P5", "P5");
   ("P7", "P7"); ("P8", "P8"); ("P9", "P9"); ("P10", "P10");
   ("PA", "P1_P2_P5"); ("PB", "P3_P4_P7")].

Record FluidField : Type := mkFluidField {
  fluid_field : Field;
  _fluidDict : option fluid_dict;
  _temperature : Qc;
}.

(** [self._normalize(fluid_dict) if fluid_dict else None]: [None] and the
    empty dictionary are both false in a condition. *)
Definition normalize_or_None (arg : option fluid_dict) : option fluid_dict :=
  match arg with
  | None => None
  | Some [] => None
  | Some d => Some (_normalize d)
  end.

Definition FluidField__init__ (name : string) (io_type : option FieldType)
    (value : pyval) (hide : option bool) (arg : option fluid_dict)
    (temperature : Qc) : FluidField :=
  mkFluidField (Field_init name io_type value hide)
               (normalize_or_None arg) temperature.

(** The [fluidDict] property: getter and setter. *)
Definition fluidDict (self : FluidField) : option fluid_dict := _fluidDict self.

Definition fluidDict_setter (arg : option fluid_dict) (self : FluidField)
    : FluidField :=
  mkFluidField (fluid_field self) (normalize_or_None arg) (_temperature self).

(** The [temperature] property: getter and setter. *)
Definition temperature (self : FluidField) : Qc := _temperature self.

Definition temperature_setter (temperature : Qc) (self : FluidField)
    : FluidField :=
  mkFluidField (fluid_field self) (_fluidDict self) temperature.

(** [self._fluidDict.get(key, 0.0)] *)
Definition fluidQuantity (key : string) (self : FluidField) : result Qc :=
  match _fluidDict self with
  | None => Raise AttributeError
  | Some d =>
      Ok (from_option id (Q2Qc 0) ((list_to_map d : gmap string Qc) !! key))
  end.

(** *** Objects with an instance dictionary

    [DisconnectorStateField] overrides [__setattr__], so what matters is
    which attributes its instance dictionary holds at each assignment.  An
    attribute holds a value, a [FieldType] member or a callable. *)

Inductive attrval : Type :=
  | AVal (v : pyval)
  | AType (t : FieldType)
  | ACallable (f : pyval → pyval).

Abbreviation instance := (gmap string attrval).

(** Truth value of an attribute in a condition; enumeration members and
    callables (functions, bound methods) are true. *)
Definition attr_truthy (a : attrval) : bool :=
  match a with
  | AVal v => py_truthy v
  | AType _ => true
  | ACallable _ => true
  end.

(** [a == DisconnectorStateType.s] *)
Definition is_state (a : attrval) (s : DisconnectorStateType) : bool :=
  match a with
  | AVal (PDisconnector s') => bool_decide (s' = s)
  | _ => false
  end.

(** [isinstance(v, DisconnectorStateType)] *)
Definition is_DisconnectorStateType (v : pyval) : bool :=
  match v with PDisconnector _ => true | _ => false end.

(** [callable(a)] *)
Definition callable (a : attrval) : bool :=
  match a with ACallable _ => true | _ => false end.

(** [self.__getattribute__(n)]: neither class defines [n] as a class
    attribute, so the lookup is in the instance dictionary alone. *)
Definition getattribute (n : string) : M instance attrval :=
  λ self, match self !! n with
          | Some a => (Ok a, self)
          | None => (Raise AttributeError, self)
          end.

(** [object.__setattr__(self, n, a)] *)
Definition object_setattr (n : string) (a : attrval) : M instance unit :=
  modify (<[n := a]>).

(** [f(arg)] *)
Definition call (a : attrval) (arg : pyval) : M instance pyval :=
  match a with
  | ACallable f => mret (f arg)
  | _ => raise TypeError
  end.

(** [Field.__init__]; each [self.x = v] dispatches to the [__setattr__] of
    the class of [self]. *)
Definition Field__init__ (setattr : string → attrval → M instance unit)
    (name : string) (io_type : option FieldType) (value : pyval)
    (hide : option bool) : M instance unit :=
  setattr "name" (AVal (PStr name));;
  setattr "ioType" (from_option AType (AVal PNone) io_type);;
  setattr "value" (AVal value);;
  setattr "hide" (AVal (from_option PBool PNone hide)).

(** *** [DisconnectorStateField] *)

(** The part of [__setattr__] before [super().__setattr__(name, value)]:
    [true] when control falls through to it, [false] on the early
    [return].  The observer is called on [value], which is [OPEN] where the
    call stands. *)
Definition DisconnectorStateField__setattr__guard (n : string) (v : attrval)
    : M instance bool :=
  if decide (n = "value") then
    current_value ← getattribute n;
    if is_state current_value D_CLOSED && is_state v D_OPEN then
      observer ← getattribute "_observer";
      if attr_truthy observer then
        observer' ← getattribute "_observer";
        approved ← call observer' (PDisconnector D_OPEN);
        if negb (py_truthy approved) then mret false else mret true
      else mret true
    else if is_state current_value D_BROKEN then raise ValueError
    else mret true
  else mret true.

Definition DisconnectorStateField__setattr__ (n : string) (v : attrval)
    : M instance unit :=
  fall_through ← DisconnectorStateField__setattr__guard n v;
  if (fall_through : bool) then object_setattr n v else mret tt.

Definition DisconnectorStateField__init__ (name : string)
    (io_type : option FieldType) (value : pyval) (hide : option bool)
    : M instance unit :=
  if negb (is_DisconnectorStateType value) then raise TypeError
  else
    DisconnectorStateField__setattr__ "_observer" (AVal PNone);;
    Field__init__ DisconnectorStateField__setattr__ name io_type value hide.

(** [DisconnectorStateField(name, io_type, value, hide)]: a fresh instance
    on which [__init__] runs; the instance is returned only when [__init__]
    does not raise. *)
Definition DisconnectorStateField_new (name : string)
    (io_type : option FieldType) (value : pyval) (hide : option bool)
    : result instance :=
  match DisconnectorStateField__init__ name io_type value hide ∅ with
  | (Ok _, self) => Ok self
  | (Raise e, _) => Raise e
  end.

Definition bindTo (callback : attrval) : M instance unit :=
  if negb (callable callback) then raise TypeError
  else DisconnectorStateField__setattr__ "_observer" callback.

(** The [value] property read: [self.value]. *)
Definition Disconnector_value (self : instance) : option attrval :=
  self !! "value".

(** A heap in which every object is a digital input holding [False]. *)
Definition example_heap : heap :=
  λ _, Field_init "HYDRO_ZSO" (Some DIGITAL_INPUT) (PBool false) None.

(** The non-zero entries of a composition, each divided by [t]. *)
Definition scaled (t : Qc) (d : fluid_dict) : fluid_dict :=
  (λ kv, (kv.1, (kv.2 / t)%Qc)) <$> filter (λ kv, kv.2 ≠ Q2Qc 0) d.

(** Number literals, and the compositions used as examples. *)
Definition num (z : Z) : Qc := Q2Qc (inject_Z z).
Definition half : Qc := Q2Qc (1 # 2).

Definition example_mix : fluid_dict :=
  [("A", num 2); ("B", num 2); ("C", num 0)].
Definition example_signed_mix : fluid_dict :=
  [("A", num 3); ("B", num (-1))].
Definition example_fluid : FluidField :=
  FluidField__init__ "HYDRO_GAZ" None PNone None None (num (-1)).

(** Three references. *)
Definition ref_a : loc := 1%positive.
Definition ref_b : loc := 2%positive.
Definition ref_c : loc := 3%positive.

(** The attribute holding a disconnector state. *)
Definition state_attr (s : DisconnectorStateType) : attrval :=
  AVal (PDisconnector s).

(** The [_observer] attribute: [None], or the callable bound by [bindTo]. *)
Definition observer_attr (obs : option (pyval → pyval)) : attrval :=
  match obs with
  | None => AVal PNone
  | Some f => ACallable f
  end.

(** An instance in a given state, with a given observer. *)
Definition disconnector (s : DisconnectorStateType)
    (obs : option (pyval → pyval)) : instance :=
  <["value" := state_attr s]> (<["_observer" := observer_attr obs]> ∅).

End Variables.

(** ** [process.py] *)

Module Simulator.
Import Variables.

(** *** External collaborators *)

(** The [json] module, as far as [Field.toJSON] and [Field.fromJSON] use it:
    [json.dumps] fails on a value that is not serialisable, [json.loads] on
    a payload that is not a JSON document. *)
Class Json : Type := {
  json_dumps : pyval → option string;
  json_loads : string → option pyval;
}.

(** Modelled from the spec: the external store (the client object held in
    [self._broker], whose code is not part of the sources) is a shared
    key-value medium with string keys (the field names) and serialised
    values; its operations may fail.  It is a finite map that is either
    reachable or not: when it is not, every operation raises; a [get] of an
    absent key returns [None]. *)
Record Broker : Type := mkBroker {
  reachable : bool;
  store : gmap string string;
}.

(** What the orchestrator does to the outside world, in order. *)
Inductive event : Type :=
  | EvGet (key : string)
  | EvSet (key : string) (payload : string)
  | EvTimeout (delay : nat).

(** *** The process object *)

(** An attribute of the process object: a [Field] (or an instance of a
    subclass of it), or anything else ([_broker], [_factor], [_env], ...). *)
Inductive attr : Type :=
  | AField (f : Field)
  | AOther.

(** [self.__dict__] keeps its keys in insertion order; a key names the one
    object created for it, so the entry stands for that object.  Variable
    names are taken to differ from the private attribute names. *)
Abbreviation pydict := (list (string * attr)).

Record Process : Type := mkProcess {
  __dict__ : pydict;
  _broker : Broker;
  trace : list event;
}.

Fixpoint dict_set (k : string) (a : attr) (d : pydict) : pydict :=
  match d with
  | [] => [(k, a)]
  | (k', a') :: d' =>
      if decide (k' = k) then (k, a) :: d' else (k', a') :: dict_set k a d'
  end.

Fixpoint dict_get (k : string) (d : pydict) : option attr :=
  match d with
  | [] => None
  | (k', a') :: d' => if decide (k' = k) then Some a' else dict_get k d'
  end.

(** The entry of [self.__dict__] under [key] is written (a new key comes
    last). *)
Definition dict_store (key : string) (a : attr) : M Process unit :=
  modify (λ self, mkProcess (dict_set key a (__dict__ self))
                            (_broker self) (trace self)).

(** The attributes of the class [Process] that are data descriptors: an
    assignment to one of them on an instance goes to the descriptor, not to
    [__dict__].  [env] is a property without setter and [__weakref__] is
    read-only: [AttributeError]; [__class__] accepts a class only and
    [__dict__] a dictionary only, and the objects assigned here are neither:
    [TypeError]. *)
Definition descriptor_error (key : string) : option exn :=
  if decide (key = "env") then Some AttributeError
  else if decide (key = "__weakref__") then Some AttributeError
  else if decide (key = "__class__") then Some TypeError
  else if decide (key = "__dict__") then Some TypeError
  else None.

(** [setattr(self, key, a)], and [self.key = a] *)
Definition Process_setattr (key : string) (a : attr) : M Process unit :=
  match descriptor_error key with
  | Some e => raise e
  | None => dict_store key a
  end.

(** [self.name(...)], for a method [name] of the class: the attribute is
    looked up on the instance first (a function is not a data descriptor),
    so an entry of [__dict__] under that name hides the method; what is found
    there, a field or a collaborator, is then called and is not callable. *)
Definition bound_method {A} (name : string) (method : M Process A)
    : M Process A :=
  self ← get_state;
  match dict_get name (__dict__ self) with
  | Some _ => raise TypeError
  | None => method
  end.

(** [getattr(self, key)] *)
Definition Process_getattr (key : string) : M Process attr :=
  λ self, match dict_get key (__dict__ self) with
          | Some a => (Ok a, self)
          | None => (Raise AttributeError, self)
          end.

(** [Process.get_field_value] *)
Definition get_field_value (name : string) : M Process pyval :=
  var ← Process_getattr name;
  match var with
  | AField f => mret (value f)
  | AOther => raise AttributeError
  end.

Definition log (e : event) : M Process unit :=
  modify (λ self, mkProcess (__dict__ self) (_broker self)
                            (trace self ++ [e])).

(** [self._broker.get(key)] *)
Definition broker_get (key : string) : M Process (option string) :=
  self ← get_state;
  if reachable (_broker self) then
    log (EvGet key);;
    mret (store (_broker self) !! key)
  else raise ConnectionError.

(** [self._broker.set(key, payload)] *)
Definition broker_set (key payload : string) : M Process unit :=
  self ← get_state;
  if reachable (_broker self) then
    put_state (mkProcess (__dict__ self)
                 (mkBroker true (<[key := payload]> (store (_broker self))))
                 (trace self));;
    log (EvSet key payload)
  else raise ConnectionError.

Definition put_broker (b : Broker) : M Process unit :=
  modify (λ self, mkProcess (__dict__ self) b (trace self)).

Section WithJson.
Context `{Json}.

(** [Field.toJSON] *)
Definition toJSON (var : Field) : result string :=
  match json_dumps (value var) with
  | Some payload => Ok payload
  | None => Raise TypeError
  end.

(** [json.loads(payload)] on what [broker.get] returned; [None] is not a
    document. *)
Definition loads (payload : option string) : result pyval :=
  match payload with
  | None => Raise TypeError
  | Some doc =>
      match json_loads doc with
      | Some v => Ok v
      | None => Raise JSONDecodeError
      end
  end.

(** [getattr(self, key).fromJSON(payload)]: the field object found under
    [key] takes the decoded value, in place. *)
Definition fromJSON (key : string) (payload : option string) : M Process unit :=
  var ← Process_getattr key;
  match var with
  | AField f =>
      v ← lift_result (loads payload);
      dict_store key (AField (set_value v f))
  | AOther => raise AttributeError
  end.

(** [val.ioType.value & bit]: [val.ioType] may be [None], which has no
    [value]; the value of [_NONE_TYPE] is [None], which has no [&]. *)
Definition ioType_and (bit : FieldType) (val : Field) : result Z :=
  match ioType val with
  | None => Raise AttributeError
  | Some t =>
      match FieldType_value t, FieldType_value bit with
      | Some n, Some b => Ok (Z.land n b)
      | _, _ => Raise TypeError
      end
  end.

(** The dictionary comprehension
    [{key: val for key, val in self.__dict__.items()
      if isinstance(val, Field) and (val.ioType.value & bit or force_all)}],
    evaluated in full before the loop over it starts. *)
Fixpoint select_fields (bit : FieldType) (force_all : bool) (d : pydict)
    : result (list (string * Field)) :=
  match d with
  | [] => Ok []
  | (key, AOther) :: d' => select_fields bit force_all d'
  | (key, AField val) :: d' =>
      match ioType_and bit val with
      | Raise e => Raise e
      | Ok n =>
          match select_fields bit force_all d' with
          | Raise e => Raise e
          | Ok rest =>
              if negb (bool_decide (n = 0%Z)) || force_all
              then Ok ((key, val) :: rest) else Ok rest
          end
      end
  end.

(** The body of the loop of [_publish_fields]. *)
Definition push_body (item : string * Field) : M Process unit :=
  let '(name, var) := item in
  val ← lift_result (toJSON var);
  broker_set name val.

Definition _publish_fields (force_all : bool) : M Process unit :=
  self ← get_state;
  selected ← lift_result (select_fields OUTPUT_BIT force_all (__dict__ self));
  for_each selected push_body.

(** The body of the loop of [_retrieve_fields]. *)
Definition pull_body (item : string * Field) : M Process unit :=
  let '(name, var) := item in
  val ← broker_get name;
  fromJSON name val.

Definition _retrieve_fields : M Process unit :=
  self ← get_state;
  selected ← lift_result (select_fields INPUT_BIT false (__dict__ self));
  for_each selected pull_body.

(** *** Building the fields from the parsed configuration *)

(** One entry of [data["variables"]]; an absent key is [None]. *)
Record VarDef : Type := mkVarDef {
  d_ioType : option string;
  d_hide : option bool;
  d_compositeType : option string;
  d_value : option pyval;
}.

Record Config : Type := mkConfig {
  factor : Qc;
  variables : list (string * VarDef);
}.

(** The classes of [variables.py] that [compositeType] can name. *)
Inductive pyclass : Type :=
  | C_Field
  | C_FieldCollection
  | C_FluidField
  | C_BreakerStateField
  | C_DisconnectorStateField.

(** [getattr(variables, name)], for the names of the field classes. *)
Definition class_of_name (n : string) : result pyclass :=
  if decide (n = "Field") then Ok C_Field
  else if decide (n = "FieldCollection") then Ok C_FieldCollection
  else if decide (n = "FluidField") then Ok C_FluidField
  else if decide (n = "BreakerStateField") then Ok C_BreakerStateField
  else if decide (n = "DisconnectorStateField") then Ok C_DisconnectorStateField
  else Raise AttributeError.

(** [s.split(".")] *)
Fixpoint split_dot (s : string) : list string :=
  match s with
  | EmptyString => [EmptyString]
  | String c s' =>
      if decide (c = "."%char) then EmptyString :: split_dot s'
      else match split_dot s' with
           | [] => [String c EmptyString]
           | w :: ws => String c w :: ws
           end
  end.

(** [getattr(getattr(variables, obj), attr)], for the dotted names of the
    values a field holds: the members of the two state enumerations and the
    constants of [FluidField]. *)
Definition resolve_literal (obj attr : string) : result pyval :=
  if decide (obj = "BreakerStateType") then
    if decide (attr = "CLOSED") then Ok (PBreaker B_CLOSED)
    else if decide (attr = "OPEN") then Ok (PBreaker B_OPEN)
    else if decide (attr = "TRANSITION") then Ok (PBreaker B_TRANSITION)
    else if decide (attr = "BROKEN") then Ok (PBreaker B_BROKEN)
    else Raise AttributeError
  else if decide (obj = "DisconnectorStateType") then
    if decide (attr = "OPEN") then Ok (PDisconnector D_OPEN)
    else if decide (attr = "CLOSED") then Ok (PDisconnector D_CLOSED)
    else if decide (attr = "BROKEN") then Ok (PDisconnector D_BROKEN)
    else Raise AttributeError
  else if decide (obj = "FluidField") then
    match (list_to_map FluidField_constants : gmap string string) !! attr with
    | Some fluid => Ok (PStr fluid)
    | None => Raise AttributeError
    end
  else Raise AttributeError.

(** The initial value of a composite record: [val["value"]], resolved when
    it is a string. *)
Definition composite_value (val : VarDef) : result pyval :=
  match d_value val with
  | None => Raise KeyError
  | Some (PStr s) =>
      match split_dot s with
      | [obj; attr] => resolve_literal obj attr
      | _ => Raise ValueError
      end
  | Some v => Ok v
  end.

(** [var_type(key, io_type, value, hide)].  [FieldCollection.__init__] and
    [BreakerStateField.__init__] take fewer positional arguments than the
    four passed. *)
Definition construct (var_type : pyclass) (key : string)
    (io_type : option FieldType) (value : pyval) (hide : option bool)
    : result attr :=
  match var_type with
  | C_Field => Ok (AField (Field_init key io_type value hide))
  | C_FluidField =>
      Ok (AField (fluid_field
                    (FluidField__init__ key io_type value hide None
                                        (- Q2Qc 1)%Qc)))
  | C_FieldCollection => Raise TypeError
  | C_BreakerStateField => Raise TypeError
  | C_DisconnectorStateField =>
      match DisconnectorStateField_new key io_type value hide with
      | Ok _ => Ok (AField (Field_init key io_type value hide))
      | Raise e => Raise e
      end
  end.

Definition init_variable (key : string) (val : VarDef) : M Process unit :=
  io_type ← lift_result
    match d_ioType val with
    | Some n =>
        match FieldType_of_name n with
        | Some t => Ok (Some t)
        | None => Raise AttributeError
        end
    | None => Ok None
    end;
  let hide := d_hide val in
  '(var_type, value) ← lift_result
    match d_compositeType val with
    | Some c =>
        match class_of_name c with
        | Raise e => Raise e
        | Ok var_type =>
            match composite_value val with
            | Raise e => Raise e
            | Ok value => Ok (var_type, value)
            end
        end
    | None => Ok (C_Field, from_option id PNone (d_value val))
    end;
  var ← lift_result (construct var_type key io_type value hide);
  Process_setattr key var.

Definition _init_all_fields (data : Config) : M Process unit :=
  Process_setattr "_factor" AOther;;
  for_each (variables data) (λ '(key, val), init_variable key val);;
  bound_method "_publish_fields" (_publish_fields true).

(** [Process(config_file)], from the parsed configuration on, [verbose]
    being left at its default [False]: the broker is created, the fields are
    built and published, then the environment is created and
    [self.process()] registered with it (the call creates the generator and
    runs nothing of its body); [monitor] is not registered. *)
Definition Process__init__ (broker : Broker) (data : Config) : M Process unit :=
  Process_setattr "_broker" AOther;;
  put_broker broker;;
  bound_method "_init_all_fields" (_init_all_fields data);;
  Process_setattr "_env" AOther;;
  bound_method "process" (mret tt);;
  Process_setattr "_verbose" AOther.

Definition new_process : Process := mkProcess [] (mkBroker false ∅) [].

(** [yield self._env.timeout(delay)]: the generator is suspended here. *)
Definition yield_timeout (delay : nat) : M Process unit :=
  log (EvTimeout delay).

(** One turn of the [while True] loop of [Process.process], in a process
    none of whose fields stands under the name of [_retrieve_fields] or
    [_publish_fields]: the two phases are the methods of the class. *)
Definition process_iteration : M Process unit :=
  _retrieve_fields;;
  yield_timeout 1;;
  _publish_fields false.

(** [n] turns of the loop; an exception ends the generator. *)
Fixpoint process (n : nat) : M Process unit :=
  match n with
  | O => mret tt
  | S n' => process_iteration;; process n'
  end.

(** *** What the two phases are expected to do

    The fields of each direction, the broker operations they give rise to
    and the effect of a pull on the dictionary, written independently of the
    loops above; the theorems relate the two. *)

(** The direction bits of a field; a field with no io type has none. *)
Definition has_bit (bit : Z) (f : Field) : bool :=
  match ioType f ≫= FieldType_value with
  | Some n => negb (bool_decide (Z.land n bit = 0%Z))
  | None => false
  end.
Definition is_input : Field → bool := has_bit 0x01.
Definition is_output : Field → bool := has_bit 0x02.

(** Every field of the dictionary has an io type with an integer value. *)
Definition typed_entry (e : string * attr) : bool :=
  match e.2 with
  | AField f => bool_decide (is_Some (ioType f ≫= FieldType_value))
  | AOther => true
  end.
Definition typed (d : pydict) : bool := forallb typed_entry d.

(** The two invariants of a process object in steady state. *)
Definition keys_unique (self : Process) : Prop := NoDup ((__dict__ self).*1).
Definition all_typed (self : Process) : Prop := typed (__dict__ self) = true.

(** The fields of a dictionary satisfying [p], in order. *)
Fixpoint fields_where (p : Field → bool) (d : pydict) : list (string * Field) :=
  match d with
  | [] => []
  | (key, AField f) :: d' =>
      if p f then (key, f) :: fields_where p d' else fields_where p d'
  | (key, AOther) :: d' => fields_where p d'
  end.

Definition pulls (d : pydict) : list event :=
  (λ kf, EvGet kf.1) <$> fields_where is_input d.

Definition push_event (kf : string * Field) : event :=
  EvSet kf.1 (default "" (json_dumps (value kf.2))).


(** The value a pull gives to the field [key]. *)
Definition pulled_value (st : gmap string string) (key : string)
    : option pyval :=
  st !! key ≫= json_loads.

Definition pull_entry (st : gmap string string) (e : string * attr)
    : string * attr :=
  match e with
  | (key, AField f) =>
      if is_input f
      then (key, AField (set_value (default (value f) (pulled_value st key)) f))
      else e
  | (key, AOther) => e
  end.


(** Every input field has a decodable payload in the store. *)
Definition inputs_available (st : gmap string string) (d : pydict) : bool :=
  forallb (λ kf, bool_decide (is_Some (pulled_value st kf.1)))
          (fields_where is_input d).


End WithJson.

(** *** Concrete instances used as examples *)

(** A codec for the documents [true], [false] and [null] only. *)
Definition bool_json : Json := {|
  json_dumps v :=
    match v with
    | PBool true => Some "true"
    | PBool false => Some "false"
    | PNone => Some "null"
    | _ => None
    end;
  json_loads doc :=
    if decide (doc = "true") then Some (PBool true)
    else if decide (doc = "false") then Some (PBool false)
    else if decide (doc = "null") then Some PNone
    else None;
|}.

Definition example_dict : pydict :=
  [("_broker", AOther);
   ("_factor", AOther);
   ("HYDRO_CMD_PO_EAU",
    AField (Field_init "HYDRO_CMD_PO_EAU" (Some DIGITAL_INPUT)
                       (PBool false) None));
   ("HYDRO_RM_PO_EAU",
    AField (Field_init "HYDRO_RM_PO_EAU" (Some DIGITAL_OUTPUT)
                       (PBool false) None));
   ("HYDRO_LOCAL",
    AField (Field_init "HYDRO_LOCAL" (Some DIGITAL_BIT) (PBool true) None))].

Definition empty_broker : Broker := mkBroker true ∅.

(** A configuration whose only variable declares no [ioType]. *)
Definition config_without_ioType : Config :=
  mkConfig (Q2Qc 1)
           [("HYDRO_LOCAL", mkVarDef None None None (Some (PBool false)))].

End Simulator.

(** ** The scheduler and [component.py] *)

Module Scheduler.
Import Variables.

Section Environment.
(** The world the processes act on: the shared [Field] objects (and, for
    the orchestrator, the store). *)
Context {W : Type}.

(** A generator function ([Component.process], [Process.process]) seen from
    the scheduler: resumed for the [k]-th time in a world, it runs without
    interruption up to its next [yield env.timeout(d)], leaving a new world
    and the delay [d]. *)
Record Generator : Type := mkGenerator {
  resume : nat → W → W * nat;
}.

(** Modelled from the spec: a process registered with the scheduler (the
    library's process object is not part of the sources): its generator, how
    many times it has been resumed and the tick at which it is due next. *)
Record Proc : Type := mkProc {
  gen : Generator;
  resumed : nat;
  wake : nat;
}.

(** Modelled from the spec: the cooperative scheduler (the environment
    [env] of the simulation library, with [env.process], [env.timeout] and
    [env.run]) is an external collaborator whose code is not part of the
    sources.  The spec gives its contract: all registered processes share
    one logical clock; the scheduler advances one logical tick at a time and
    every registered process that is due is resumed, in registration order
    and without preemption, before the clock advances again; a process that
    suspends for [d] ticks is due again [d] ticks later.  The environment
    holds the clock, the registered processes in registration order and
    the world they share. *)
Record Env : Type := mkEnv {
  now : nat;
  procs : list Proc;
  world : W;
}.

Definition new_env (w : W) : Env := mkEnv 0 [] w.

(** Modelled from the spec: [env.process(g)] registers the generator after
    the processes already registered; it is due at the current tick. *)
Definition env_process (g : Generator) (env : Env) : Env :=
  mkEnv (now env) (procs env ++ [mkProc g 0 (now env)]) (world env).

(** Modelled from the spec: at tick [t] a process that is due is resumed
    and runs, without preemption, up to its next [yield env.timeout(d)];
    it is then due again [d] ticks later.  A process that is not due is
    left alone. *)
Definition resume_proc (t : nat) (p : Proc) (w : W) : Proc * W :=
  if wake p <=? t then
    let '(w', d) := resume (gen p) (resumed p) w in
    (mkProc (gen p) (S (resumed p)) (t + d), w')
  else (p, w).

(** Modelled from the spec: within a tick the processes are resumed one
    at a time in registration order, each in the world its predecessors
    left. *)
Fixpoint resume_all (t : nat) (ps : list Proc) (w : W) : list Proc * W :=
  match ps with
  | [] => ([], w)
  | p :: ps' =>
      let '(p', w') := resume_proc t p w in
      let '(ps'', w'') := resume_all t ps' w' in
      (p' :: ps'', w'')
  end.

(** Modelled from the spec: one logical tick; every registered process
    has had its turn before the clock advances. *)
Definition tick (env : Env) : Env :=
  let '(ps, w) := resume_all (now env) (procs env) (world env) in
  mkEnv (S (now env)) ps w.

(** Registering generators one after the other. *)
Definition register (gens : list Generator) (env : Env) : Env :=
  foldl (λ e g, env_process g e) env gens.

(** Modelled from the spec: [env.run(until=n)], [n] ticks. *)
Definition run (n : nat) (env : Env) : Env := Nat.iter n tick env.

(** The world in which the process registered at position [k] is resumed
    during tick [t] of a run from [env]: [t] whole ticks, then the [k]
    processes registered before it. *)
Definition world_before (env : Env) (t k : nat) : W :=
  let e := run t env in
  (resume_all (now e) (take k (procs e)) (world e)).2.

(** The world it leaves. *)
Definition world_after (env : Env) (t k : nat) : W :=
  world_before env t (S k).

(** A generator that never changes what [F] reads of the world. *)
Definition preserves {V : Type} (F : W → V) (g : Generator) : Prop :=
  ∀ n w, F (resume g n w).1 = F w.

(** *** [Component] *)

(** A component: its update step (the body of the [while True] loop of the
    subclass, before the [yield]) and the number of ticks between two
    updates. *)
Record Component : Type := mkComponent {
  update : W → W;
  UPDATE_TICK : nat;
}.

(** The [process] generator of the subclasses:
    [while True: <update step>; yield self.env.timeout(self.UPDATE_TICK)]. *)
Definition Component_process (self : Component) : Generator :=
  mkGenerator (λ _ w, (update self w, UPDATE_TICK self)).

(** [Component.__init__(env, updateTick)]: the process is registered with
    the environment at construction. *)
Definition Component__init__ (update : W → W) (updateTick : nat) (env : Env)
    : Component * Env :=
  let self := mkComponent update updateTick in
  (self, env_process (Component_process self) env).

(** The default [updateTick=1]. *)
Definition Component__init__default (update : W → W) (env : Env)
    : Component * Env :=
  Component__init__ update 1 env.

End Environment.

(** *** Two components sharing a field

    [producer] increments the number held by the field at [ref_a];
    [consumer] copies the value of that field into the field at [ref_b]. *)

Definition increment (v : pyval) : pyval :=
  match v with
  | PNum q => PNum (q + Q2Qc 1)%Qc
  | _ => v
  end.

Definition producer : @Component heap :=
  mkComponent (λ h, write_value ref_a (increment (value (h ref_a))) h) 1.

Definition consumer : @Component heap :=
  mkComponent (λ h, write_value ref_b (value (h ref_a)) h) 1.

Definition counter_heap : heap :=
  λ _, Field_init "HYDRO_ST_TURB" (Some ANALOG_INPUT) (PNum (Q2Qc 0)) None.

Arguments Generator W : clear implicits.
Arguments Proc W : clear implicits.
Arguments Env W : clear implicits.
Arguments Component W : clear implicits.

End Scheduler.

(** ** What a configuration describes *)

Module Startup.
Import Variables Simulator.

(** The io type of a plain variable: no [compositeType], and an [ioType]
    that names a member of [FieldType] with an integer value. *)
Definition plain (val : VarDef) : option FieldType :=
  match d_compositeType val, d_ioType val with
  | None, Some n =>
      t ← FieldType_of_name n;
      _ ← FieldType_value t;
      Some t
  | _, _ => None
  end.

(** The field a plain variable stands for. *)
Definition described_field (entry : string * VarDef)
    : option (string * Field) :=
  t ← plain entry.2;
  Some (entry.1,
        Field_init entry.1 (Some t) (from_option id PNone (d_value entry.2))
                   (d_hide entry.2)).

(** The attribute names [Process.__init__] uses for itself. *)
Definition private_names : list string :=
  ["_broker"; "_factor"; "_env"; "_verbose"].

(** The names a variable cannot take without breaking start-up: under the
    name of a private attribute the field takes the place of a collaborator
    or is replaced by one; [setattr] refuses the names of the data
    descriptors of the class; under [_publish_fields] or [process] the field
    hides the method that start-up calls next. *)
Definition reserved_names : list string :=
  private_names
  ++ ["env"; "__weakref__"; "__class__"; "__dict__"]
  ++ ["_publish_fields"; "process"].

(** The composite types whose constructors do not take the four arguments
    [_init_all_fields] passes, or fail on them. *)
Definition collection_types : list string :=
  ["FieldCollection"; "BreakerStateField"; "DisconnectorStateField"].

(** A configuration of one digital input, one digital output and one analog
    output, and one that asks for a breaker. *)
Definition example_config : Config :=
  mkConfig (Q2Qc 1)
    [("HYDRO_CMD_PO_EAU",
      mkVarDef (Some "DIGITAL_INPUT") None None (Some (PBool false)));
     ("HYDRO_RM_PO_EAU",
      mkVarDef (Some "DIGITAL_OUTPUT") (Some true) None (Some (PBool true)));
     ("HYDRO_TT_EAU", mkVarDef (Some "ANALOG_OUTPUT") None None None)].

(** A configuration whose only variable, a digital input, has the given
    name. *)
Definition config_of_name (key : string) : Config :=
  mkConfig (Q2Qc 1)
    [(key, mkVarDef (Some "DIGITAL_INPUT") None None (Some (PBool false)))].

Definition breaker_config : Config :=
  mkConfig (Q2Qc 1)
    [("HYDRO_CMD_PO_EAU",
      mkVarDef (Some "DIGITAL_INPUT") None None (Some (PBool false)));
     ("HYDRO_DJ",
      mkVarDef (Some "DIGITAL_INPUT") None (Some "BreakerStateField")
               (Some (PStr "BreakerStateType.OPEN")))].

End Startup.

(** ** The hydro scenario: [objects.py] and the components *)

(** *** Arithmetic on the values of fields *)

Module PyNum.
Import Variables.

(** The number a value stands for in the arithmetic and the comparisons of
    the components: [bool] is a subclass of [int]; on [None], a string or an
    enumeration member each of these operations (or the comparison its
    result is used in) raises [TypeError]. *)
Definition to_num (v : pyval) : result Qc :=
  match v with
  | PBool true => Ok (Q2Qc 1)
  | PBool false => Ok (Q2Qc 0)
  | PNum q => Ok q
  | _ => Raise TypeError
  end.

(** [f.value], [f.value = v] and [f.value] used as a number, for the field
    object at [l]. *)
Definition field_get (l : loc) : M heap pyval := λ h, (Ok (value (h l)), h).

Definition field_set (l : loc) (v : pyval) : M heap unit :=
  modify (write_value l v).

Definition field_num (l : loc) : M heap Qc :=
  v ← field_get l; lift_result (to_num v).

(** [min(a, b)] and [max(a, b)]: the first argument unless the second is
    strictly smaller (larger). *)
Definition py_min (a b : Qc) : Qc := if decide (b < a)%Qc then b else a.
Definition py_max (a b : Qc) : Qc := if decide (a < b)%Qc then b else a.

(** The heap of example states: the listed objects hold the listed values,
    every other object [None]. *)
Definition heap_of (values : list (loc * pyval)) : heap :=
  foldr (λ entry h, write_value entry.1 entry.2 h)
        (λ _, Field_init "HYDRO" None PNone None) values.

End PyNum.

(** *** [objects.py]: groups of references to fields *)

Module Objects.
Import Variables.

Record Opened : Type := mkOpened {
  HYDRO_CMDO_VA_BARRAGE : loc;
  HYDRO_CMDC_VA_BARRAGE : loc;
  HYDRO_ZSO_VA_BARRAGE : loc;
  HYDRO_ZSC_VA_BARRAGE : loc;
  HYDRO_ZT_VA_BARRAGE : loc;
}.

Record WaterLevelAndFlow : Type := mkWaterLevelAndFlow {
  HYDRO_LT_EAU_BARRAGE : loc;
  HYDRO_FT_IN_BARRAGE : loc;
  HYDRO_FT_VA_BARRAGE : loc;
  HYDRO_FT_VA_TETE : loc;
}.

Record OilPump : Type := mkOilPump {
  HYDRO_CMD_PO_HUILE : loc;
  HYDRO_RM_PO_HUILE : loc;
}.

Record OilTemperature : Type := mkOilTemperature {
  HYDRO_TT_HUILE : loc;
}.

Record WaterPump : Type := mkWaterPump {
  HYDRO_CMD_PO_EAU : loc;
  HYDRO_RM_PO_EAU : loc;
  HYDRO_ST_PO_EAU : loc;
  HYDRO_SSP_PO_EAU : loc;
}.

Record WaterFlow : Type := mkWaterFlow {
  HYDRO_FT_EAU_REFR : loc;
}.

Record WaterTemperature : Type := mkWaterTemperature {
  HYDRO_TT_EAU : loc;
}.

Record WarmingTemperature : Type := mkWarmingTemperature {
  HYDRO_TT_ECHAUFF : loc;
}.

Record CoolingTemperature : Type := mkCoolingTemperature {
  HYDRO_TT_EAU_REFR : loc;
}.

Record HeadValve : Type := mkHeadValve {
  HYDRO_CMDO_VA_TETE : loc;
  HYDRO_CMDC_VA_TETE : loc;
  HYDRO_ZSO_VA_TETE : loc;
  HYDRO_ZSC_VA_TETE : loc;
}.

Record FootValve : Type := mkFootValve {
  HYDRO_CMDO_VA_PIED : loc;
  HYDRO_CMDC_VA_PIED : loc;
  HYDRO_ZSO_VA_PIED : loc;
  HYDRO_ZSC_VA_PIED : loc;
}.

Record RGNValve : Type := mkRGNValve {
  HYDRO_ST_TURB : loc;
  HYDRO_ZT_VA_RGN : loc;
}.

Record RGUExcitation : Type := mkRGUExcitation {
  HYDRO_VT_ALTERN : loc;
  HYDRO_FQT_ALTERN : loc;
  HYDRO_VSP_ALTERN : loc;
}.

Record SyncCoupler : Type := mkSyncCoupler {
  HYDRO_CMD_COUPLAGE : loc;
  HYDRO_AUTORIZ_CPL : loc;
}.

Record SEPAM : Type := mkSEPAM {
  HYDRO_JT_ALTERN : loc;
  FREQ : loc;
  COURANT1 : loc;
  COURANT2 : loc;
  COURANT3 : loc;
  SHIFT : loc;
}.

End Objects.

(** *** [hydraulicCentral.py] *)

Module HydraulicCentral.
Import Variables PyNum Objects.

Definition MIN_OIL_TEMPERATURE : Qc := num 20.
Definition MAX_OIL_TEMPERATURE : Qc := num 70.
Definition INITIAL_OIL_TEMPERATURE : Qc := MIN_OIL_TEMPERATURE.

Record HydraulicCentral : Type := mkHydraulicCentral {
  _oilPump : OilPump;
  _oilTemperature : OilTemperature;
}.

Definition _update_oil_temperature (self : HydraulicCentral) : M heap unit :=
  running ← field_get (HYDRO_RM_PO_HUILE (_oilPump self));
  current ← field_num (HYDRO_TT_HUILE (_oilTemperature self));
  let temperature :=
    if py_truthy running then (current + Q2Qc 1)%Qc
    else (current - Q2Qc 1)%Qc in
  let temperature :=
    if decide (MAX_OIL_TEMPERATURE < temperature)%Qc then MAX_OIL_TEMPERATURE
    else if decide (temperature < MIN_OIL_TEMPERATURE)%Qc
         then MIN_OIL_TEMPERATURE
         else temperature in
  field_set (HYDRO_TT_HUILE (_oilTemperature self)) (PNum temperature).

Definition _update_oil_pump (self : HydraulicCentral) : M heap unit :=
  command ← field_get (HYDRO_CMD_PO_HUILE (_oilPump self));
  field_set (HYDRO_RM_PO_HUILE (_oilPump self)) command.

(** The body of the loop of [process], up to the [yield]. *)
Definition update_step (self : HydraulicCentral) : M heap unit :=
  _update_oil_temperature self;;
  _update_oil_pump self.

(** [n] turns of the loop; an exception ends the generator. *)
Fixpoint process (self : HydraulicCentral) (n : nat) : M heap unit :=
  match n with
  | O => mret tt
  | S n' => update_step self;; process self n'
  end.

(** Example states: the oil pump at 1 (command) and 2 (feedback), the oil
    temperature at 3. *)
Definition example_central : HydraulicCentral :=
  mkHydraulicCentral (mkOilPump 1%positive 2%positive)
                     (mkOilTemperature 3%positive).

Definition overheated : heap :=
  heap_of [(1%positive, PBool true); (2%positive, PBool true);
           (3%positive, PNum (num 95))].

Definition heating : heap :=
  heap_of [(1%positive, PBool true); (2%positive, PBool true);
           (3%positive, PNum (num 40))].

(** The plant at its start, the pump just commanded on. *)
Definition switched_on : heap :=
  heap_of [(1%positive, PBool true); (2%positive, PBool false);
           (3%positive, PNum INITIAL_OIL_TEMPERATURE)].

End HydraulicCentral.

(** *** [cooling.py] *)

Module Cooling.
Import Variables PyNum Objects.

Definition MAX_SSP_PO : Qc := num 1500.
Definition INITIAL_SSP_PO : Qc := num 1500.
Definition FACTOR_FT_EAU_REFR_ST_PO : Qc := num 200.
Definition FACTOR_FT_EAU_REFR_ZT_VA_RGN : Qc := num 100.

Record Cooling : Type := mkCooling {
  _waterPump : WaterPump;
  _waterFlow : WaterFlow;
  _waterTemperature : WaterTemperature;
  _warmingTemperature : WarmingTemperature;
  _coolingTemperature : CoolingTemperature;
  _syncCoupler : SyncCoupler;
  _RGNValve : RGNValve;
  _RGUExcitation : RGUExcitation;
  _waterLevelAndFlow : WaterLevelAndFlow;
  _SEPAM : SEPAM;
}.

Definition _updateWaterPump (self : Cooling) : M heap unit :=
  command ← field_get (HYDRO_CMD_PO_EAU (_waterPump self));
  (if py_truthy command then
     setpoint ← field_get (HYDRO_SSP_PO_EAU (_waterPump self));
     field_set (HYDRO_ST_PO_EAU (_waterPump self)) setpoint
   else
     field_set (HYDRO_ST_PO_EAU (_waterPump self)) (PNum (Q2Qc 0)));;
  command' ← field_get (HYDRO_CMD_PO_EAU (_waterPump self));
  field_set (HYDRO_RM_PO_EAU (_waterPump self)) command'.

Definition _updateWaterFlow (self : Cooling) : M heap unit :=
  speed ← field_num (HYDRO_ST_PO_EAU (_waterPump self));
  let flow := (speed / FACTOR_FT_EAU_REFR_ST_PO)%Qc in
  opening ← field_num (HYDRO_ZT_VA_RGN (_RGNValve self));
  let flow := (flow * (opening / FACTOR_FT_EAU_REFR_ZT_VA_RGN))%Qc in
  field_set (HYDRO_FT_EAU_REFR (_waterFlow self)) (PNum flow).

Definition _updateWaterTemperature (self : Cooling) : M heap unit :=
  speed ← field_num (HYDRO_ST_PO_EAU (_waterPump self));
  let factor := (speed / MAX_SSP_PO / Q2Qc 3)%Qc in
  warming ← field_num (HYDRO_TT_ECHAUFF (_warmingTemperature self));
  cooling ← field_num (HYDRO_TT_EAU_REFR (_coolingTemperature self));
  field_set (HYDRO_TT_EAU (_waterTemperature self))
            (PNum ((Q2Qc 1 - factor) * warming + factor * cooling)%Qc).

(** [0.01] is taken as the exact hundredth. *)
Definition _updateWarmingTemperature (self : Cooling) : M heap unit :=
  water ← field_num (HYDRO_TT_EAU (_waterTemperature self));
  turbine ← field_num (HYDRO_ST_TURB (_RGNValve self));
  field_set (HYDRO_TT_ECHAUFF (_warmingTemperature self))
            (PNum (water + turbine * Q2Qc (1 # 100))%Qc).

(** The body of the loop of [process], up to the [yield]. *)
Definition update_step (self : Cooling) : M heap unit :=
  _updateWaterPump self;;
  _updateWaterFlow self;;
  _updateWaterTemperature self;;
  _updateWarmingTemperature self.

(** [n] turns of the loop; an exception ends the generator. *)
Fixpoint process (self : Cooling) (n : nat) : M heap unit :=
  match n with
  | O => mret tt
  | S n' => update_step self;; process self n'
  end.

(** The fields a cooling system reads or writes. *)
Definition locations (self : Cooling) : list loc :=
  [HYDRO_CMD_PO_EAU (_waterPump self); HYDRO_RM_PO_EAU (_waterPump self);
   HYDRO_ST_PO_EAU (_waterPump self); HYDRO_SSP_PO_EAU (_waterPump self);
   HYDRO_FT_EAU_REFR (_waterFlow self);
   HYDRO_TT_EAU (_waterTemperature self);
   HYDRO_TT_ECHAUFF (_warmingTemperature self);
   HYDRO_TT_EAU_REFR (_coolingTemperature self);
   HYDRO_ST_TURB (_RGNValve self); HYDRO_ZT_VA_RGN (_RGNValve self)].

(** Example states: the water pump at 1 to 4, the flow at 5, the three
    temperatures at 6 to 8, the turbine speed at 9 and the opening of the
    governor valve at 10. *)
Definition example_cooling : Cooling :=
  mkCooling (mkWaterPump 1%positive 2%positive 3%positive 4%positive)
            (mkWaterFlow 5%positive) (mkWaterTemperature 6%positive)
            (mkWarmingTemperature 7%positive)
            (mkCoolingTemperature 8%positive)
            (mkSyncCoupler 11%positive 12%positive)
            (mkRGNValve 9%positive 10%positive)
            (mkRGUExcitation 13%positive 14%positive 15%positive)
            (mkWaterLevelAndFlow 16%positive 17%positive 18%positive
                                 19%positive)
            (mkSEPAM 20%positive 21%positive 22%positive 23%positive
                     24%positive 25%positive).

Definition plant (command setpoint : pyval) : heap :=
  heap_of [(1%positive, command); (4%positive, setpoint);
           (7%positive, PNum (num 30)); (8%positive, PNum (num 10));
           (9%positive, PNum (num 1500)); (10%positive, PNum (num 50))].

End Cooling.

(** *** [levelRegulation.py] *)

Module LevelRegulation.
Import Variables PyNum Objects.

Definition FACTOR : Qc := Q2Qc (1 # 2).
Definition MAX_WATER_LEVEL : Qc := num 10.
Definition MIN_WATER_LEVEL : Qc := num 0.
Definition K : Qc := num 5000.
Definition ZT_VA_BARRAGE_openingTime : Qc := num 8.
Definition ZT_VA_BARRAGE_MAX : Qc := num 100.
Definition ZT_VA_BARRAGE_MIN : Qc := num 0.
Definition ZT_VA_RGN_MIN_WORKING : Qc := num 2.
Definition HEAD_VALVE_FLOW_FACTOR : Qc := Q2Qc (1 # 2).

Record LevelRegulation : Type := mkLevelRegulation {
  _opened : Opened;
  _waterLevelAndFlow : WaterLevelAndFlow;
  _headValve : HeadValve;
  _footValve : FootValve;
  _RGNValve : RGNValve;
}.

(** The travel of the barrage valve in one update. *)
Definition barrage_increment : Qc :=
  (ZT_VA_BARRAGE_MAX / (ZT_VA_BARRAGE_openingTime / FACTOR))%Qc.

Definition _updateOpened (self : LevelRegulation) : M heap unit :=
  opening ← field_get (HYDRO_CMDO_VA_BARRAGE (_opened self));
  (if py_truthy opening then
     position ← field_num (HYDRO_ZT_VA_BARRAGE (_opened self));
     field_set (HYDRO_ZT_VA_BARRAGE (_opened self))
       (PNum (py_min ZT_VA_BARRAGE_MAX (position + barrage_increment)%Qc))
   else
     closing ← field_get (HYDRO_CMDC_VA_BARRAGE (_opened self));
     if py_truthy closing then
       position ← field_num (HYDRO_ZT_VA_BARRAGE (_opened self));
       field_set (HYDRO_ZT_VA_BARRAGE (_opened self))
         (PNum (py_max ZT_VA_BARRAGE_MIN (position - barrage_increment)%Qc))
     else mret tt);;
  position ← field_num (HYDRO_ZT_VA_BARRAGE (_opened self));
  field_set (HYDRO_ZSO_VA_BARRAGE (_opened self))
    (PBool (bool_decide (ZT_VA_BARRAGE_MAX ≤ position)%Qc));;
  position' ← field_num (HYDRO_ZT_VA_BARRAGE (_opened self));
  field_set (HYDRO_ZSC_VA_BARRAGE (_opened self))
    (PBool (bool_decide (position' ≤ ZT_VA_BARRAGE_MIN)%Qc)).

Definition _updateWaterLevelAndFlow (self : LevelRegulation) : M heap unit :=
  flow_in ← field_num (HYDRO_FT_IN_BARRAGE (_waterLevelAndFlow self));
  flow_barrage ← field_num (HYDRO_FT_VA_BARRAGE (_waterLevelAndFlow self));
  flow_head ← field_num (HYDRO_FT_VA_TETE (_waterLevelAndFlow self));
  let level_change := ((flow_in - flow_barrage - flow_head) / K)%Qc in
  current_level ← field_num (HYDRO_LT_EAU_BARRAGE (_waterLevelAndFlow self));
  let new_level :=
    py_max MIN_WATER_LEVEL
           (py_min MAX_WATER_LEVEL (current_level + level_change)%Qc) in
  field_set (HYDRO_LT_EAU_BARRAGE (_waterLevelAndFlow self)) (PNum new_level);;
  position ← field_get (HYDRO_ZT_VA_BARRAGE (_opened self));
  field_set (HYDRO_FT_VA_BARRAGE (_waterLevelAndFlow self)) position;;
  head_closed ← field_get (HYDRO_ZSC_VA_TETE (_headValve self));
  let valid_head := negb (py_truthy head_closed) in
  foot_closed ← field_get (HYDRO_ZSC_VA_PIED (_footValve self));
  let valid_foot := negb (py_truthy foot_closed) in
  rgn ← field_num (HYDRO_ZT_VA_RGN (_RGNValve self));
  let sufficient_rgn := bool_decide (ZT_VA_RGN_MIN_WORKING ≤ rgn)%Qc in
  level ← field_num (HYDRO_LT_EAU_BARRAGE (_waterLevelAndFlow self));
  let has_water := bool_decide (MIN_WATER_LEVEL ≤ level)%Qc in
  if valid_head && valid_foot && sufficient_rgn && has_water then
    rgn' ← field_num (HYDRO_ZT_VA_RGN (_RGNValve self));
    field_set (HYDRO_FT_VA_TETE (_waterLevelAndFlow self))
              (PNum (HEAD_VALVE_FLOW_FACTOR * rgn')%Qc)
  else
    field_set (HYDRO_FT_VA_TETE (_waterLevelAndFlow self)) (PNum (Q2Qc 0)).

(** The body of the loop of [process], up to the [yield]. *)
Definition update_step (self : LevelRegulation) : M heap unit :=
  _updateWaterLevelAndFlow self;;
  _updateOpened self.

(** [n] turns of the loop; an exception ends the generator. *)
Fixpoint process (self : LevelRegulation) (n : nat) : M heap unit :=
  match n with
  | O => mret tt
  | S n' => update_step self;; process self n'
  end.

(** The fields a level regulation reads or writes. *)
Definition locations (self : LevelRegulation) : list loc :=
  [HYDRO_CMDO_VA_BARRAGE (_opened self); HYDRO_CMDC_VA_BARRAGE (_opened self);
   HYDRO_ZSO_VA_BARRAGE (_opened self); HYDRO_ZSC_VA_BARRAGE (_opened self);
   HYDRO_ZT_VA_BARRAGE (_opened self);
   HYDRO_LT_EAU_BARRAGE (_waterLevelAndFlow self);
   HYDRO_FT_IN_BARRAGE (_waterLevelAndFlow self);
   HYDRO_FT_VA_BARRAGE (_waterLevelAndFlow self);
   HYDRO_FT_VA_TETE (_waterLevelAndFlow self);
   HYDRO_ZSC_VA_TETE (_headValve self); HYDRO_ZSC_VA_PIED (_footValve self);
   HYDRO_ZT_VA_RGN (_RGNValve self)].

(** Example states: the barrage valve at 1 to 5, the level and the flows
    at 6 to 9, the head valve at 10 to 13, the foot valve at 14 to 17, the
    governor valve at 18 and 19. *)
Definition example_regulation : LevelRegulation :=
  mkLevelRegulation
    (mkOpened 1%positive 2%positive 3%positive 4%positive 5%positive)
    (mkWaterLevelAndFlow 6%positive 7%positive 8%positive 9%positive)
    (mkHeadValve 10%positive 11%positive 12%positive 13%positive)
    (mkFootValve 14%positive 15%positive 16%positive 17%positive)
    (mkRGNValve 18%positive 19%positive).

Definition basin (opening closing : bool) (level position : Qc) : heap :=
  heap_of [(1%positive, PBool opening); (2%positive, PBool closing);
           (5%positive, PNum position); (6%positive, PNum level);
           (7%positive, PNum (num 75)); (8%positive, PNum (num 0));
           (9%positive, PNum (num 0)); (13%positive, PBool false);
           (17%positive, PBool false); (19%positive, PNum (num 50))].

End LevelRegulation.

(** *** [turbine.py] *)

Module Turbine.
Import Variables PyNum Objects.

Definition FACTOR : Qc := Q2Qc (1 # 2).
Definition ZT_VA_TETE_openingTime : Qc := num 3.
Definition ZT_VA_TETE_MAX : Qc := num 100.
Definition ZT_VA_TETE_MIN : Qc := num 0.
Definition ZT_VA_PIED_openingTime : Qc := num 3.
Definition ZT_VA_PIED_MAX : Qc := num 100.
Definition ZT_VA_PIED_MIN : Qc := num 0.
Definition ST_TURB_MIN : Qc := num 0.
Definition ST_TURB_MAX : Qc := num 1500.
Definition FACTOR_FT_VA_TETE_ST_TURB : Qc := num 300.
Definition FACTOR_ST_TURB_FQT_ALTERN : Qc := num 30.
Definition COUPLAGE_MIN : Qc := num 49.
Definition COUPLAGE_MAX : Qc := num 51.

Record Turbine : Type := mkTurbine {
  _headValve : HeadValve;
  _footValve : FootValve;
  _RGNValve : RGNValve;
  _RGUExcitation : RGUExcitation;
  _syncCoupler : SyncCoupler;
  _waterLevelAndFlow : WaterLevelAndFlow;
  _SEPAM : SEPAM;
}.

(** What a turbine works on: the field objects, and its own two mutable
    attributes, both [ZT_VA_TETE_MIN] and [ZT_VA_PIED_MIN] after
    [__init__]. *)
Record state : Type := mkState {
  objects : heap;
  _headValvePosition : Qc;
  _footValvePosition : Qc;
}.

Definition on_objects {A} (m : M heap A) : M state A := λ s,
  let '(r, h) := m (objects s) in
  (r, mkState h (_headValvePosition s) (_footValvePosition s)).

Definition get_headValvePosition : M state Qc :=
  λ s, (Ok (_headValvePosition s), s).
Definition set_headValvePosition (q : Qc) : M state unit :=
  modify (λ s, mkState (objects s) q (_footValvePosition s)).
Definition get_footValvePosition : M state Qc :=
  λ s, (Ok (_footValvePosition s), s).
Definition set_footValvePosition (q : Qc) : M state unit :=
  modify (λ s, mkState (objects s) (_headValvePosition s) q).

Definition initial_state (h : heap) : state :=
  mkState h ZT_VA_TETE_MIN ZT_VA_PIED_MIN.

Definition _updateHeadValve (self : Turbine) : M state unit :=
  opening ← on_objects (field_get (HYDRO_CMDO_VA_TETE (_headValve self)));
  (if py_truthy opening then
     position ← get_headValvePosition;
     set_headValvePosition
       (py_min ZT_VA_TETE_MAX
          (position + ZT_VA_TETE_MAX / (ZT_VA_TETE_openingTime / FACTOR))%Qc)
   else
     closing ← on_objects (field_get (HYDRO_CMDC_VA_TETE (_headValve self)));
     if py_truthy closing then
       position ← get_headValvePosition;
       set_headValvePosition
         (py_max ZT_VA_TETE_MIN
            (position - ZT_VA_TETE_MAX / (ZT_VA_TETE_openingTime / FACTOR))%Qc)
     else mret tt);;
  position ← get_headValvePosition;
  on_objects (field_set (HYDRO_ZSO_VA_TETE (_headValve self))
                (PBool (bool_decide (ZT_VA_TETE_MAX ≤ position)%Qc)));;
  position' ← get_headValvePosition;
  on_objects (field_set (HYDRO_ZSC_VA_TETE (_headValve self))
                (PBool (bool_decide (position' ≤ ZT_VA_TETE_MIN)%Qc))).

Definition _updateFootValve (self : Turbine) : M state unit :=
  opening ← on_objects (field_get (HYDRO_CMDO_VA_PIED (_footValve self)));
  (if py_truthy opening then
     position ← get_footValvePosition;
     set_footValvePosition
       (py_min ZT_VA_PIED_MAX
          (position + ZT_VA_PIED_MAX / (ZT_VA_PIED_openingTime / FACTOR))%Qc)
   else
     closing ← on_objects (field_get (HYDRO_CMDC_VA_PIED (_footValve self)));
     if py_truthy closing then
       position ← get_footValvePosition;
       set_footValvePosition
         (py_max ZT_VA_PIED_MIN
            (position - ZT_VA_PIED_MAX / (ZT_VA_PIED_openingTime / FACTOR))%Qc)
     else mret tt);;
  position ← get_footValvePosition;
  on_objects (field_set (HYDRO_ZSO_VA_PIED (_footValve self))
                (PBool (bool_decide (ZT_VA_PIED_MAX ≤ position)%Qc)));;
  position' ← get_footValvePosition;
  on_objects (field_set (HYDRO_ZSC_VA_PIED (_footValve self))
                (PBool (bool_decide (position' ≤ ZT_VA_PIED_MIN)%Qc))).

Definition _updateRGNValve (self : Turbine) : M heap unit :=
  opening ← field_num (HYDRO_ZT_VA_RGN (_RGNValve self));
  if decide (LevelRegulation.ZT_VA_RGN_MIN_WORKING < opening)%Qc then
    flow ← field_num (HYDRO_FT_VA_TETE (_waterLevelAndFlow self));
    within ←
      (if decide (FACTOR_FT_VA_TETE_ST_TURB * flow ≤ ST_TURB_MAX)%Qc
       then mret true
       else
         authorised ← field_get (HYDRO_AUTORIZ_CPL (_syncCoupler self));
         mret (negb (py_truthy authorised)));
    if within : bool then
      flow' ← field_num (HYDRO_FT_VA_TETE (_waterLevelAndFlow self));
      field_set (HYDRO_ST_TURB (_RGNValve self))
                (PNum (FACTOR_FT_VA_TETE_ST_TURB * flow')%Qc)
    else
      field_set (HYDRO_ST_TURB (_RGNValve self)) (PNum ST_TURB_MAX)
  else
    field_set (HYDRO_ST_TURB (_RGNValve self)) (PNum ST_TURB_MIN).

Definition _updateRGUExcitation (self : Turbine) : M heap unit :=
  speed ← field_num (HYDRO_ST_TURB (_RGNValve self));
  field_set (HYDRO_FQT_ALTERN (_RGUExcitation self))
            (PNum (speed / FACTOR_ST_TURB_FQT_ALTERN)%Qc);;
  setpoint ← field_get (HYDRO_VSP_ALTERN (_RGUExcitation self));
  field_set (HYDRO_VT_ALTERN (_RGUExcitation self)) setpoint.

Definition _updateSyncCoupler (self : Turbine) : M heap unit :=
  freq ← field_num (HYDRO_FQT_ALTERN (_RGUExcitation self));
  field_set (HYDRO_AUTORIZ_CPL (_syncCoupler self))
    (PBool (bool_decide (COUPLAGE_MIN < freq)%Qc
            && bool_decide (freq < COUPLAGE_MAX)%Qc)).

(** [v != 0]: a number is compared by value, every other object differs
    from [0]. *)
Definition differs_from_zero (v : pyval) : bool :=
  match v with
  | PNum q => negb (bool_decide (q = Q2Qc 0))
  | PBool b => b
  | _ => true
  end.

Section SEPAM.

(** [math.sqrt(3)], a positive constant of the platform. *)
Variable sqrt3 : Qc.

Definition _updateSEPAM (self : Turbine) : M heap unit :=
  let M_VOL_EAU := num 1000 in
  let GRAV := Q2Qc (981 # 100) in
  let HAUTEUR := num 15 in
  let RENDEMENT_ELEC := Q2Qc (85 # 100) in
  let RENDEMENT_MECA := Q2Qc (9 # 10) in
  let FACTEUR_PUISSANCE := Q2Qc (89 # 100) in
  let TENSION_SORTIE := num 5000 in
  flow ← field_num (HYDRO_FT_VA_TETE (_waterLevelAndFlow self));
  let pMeca := (M_VOL_EAU * GRAV * HAUTEUR * RENDEMENT_MECA * flow)%Qc in
  authorised ← field_get (HYDRO_AUTORIZ_CPL (_syncCoupler self));
  (if py_truthy authorised then
     field_set (HYDRO_JT_ALTERN (_SEPAM self))
               (PNum (RENDEMENT_ELEC * pMeca / num 1000)%Qc)
   else
     field_set (HYDRO_JT_ALTERN (_SEPAM self)) (PNum (Q2Qc 0)));;
  setpoint ← field_get (HYDRO_VSP_ALTERN (_RGUExcitation self));
  courant ←
    (if differs_from_zero setpoint then
       power ← field_num (HYDRO_JT_ALTERN (_SEPAM self));
       mret (power / (sqrt3 * TENSION_SORTIE * FACTEUR_PUISSANCE)
             * num 1000)%Qc
     else mret (Q2Qc 0));
  field_set (COURANT1 (_SEPAM self)) (PNum courant);;
  field_set (COURANT2 (_SEPAM self)) (PNum courant);;
  field_set (COURANT3 (_SEPAM self)) (PNum courant);;
  freq ← field_get (HYDRO_FQT_ALTERN (_RGUExcitation self));
  field_set (FREQ (_SEPAM self)) freq.

(** The body of the loop of [process], up to the [yield]. *)
Definition update_step (self : Turbine) : M state unit :=
  _updateHeadValve self;;
  _updateFootValve self;;
  on_objects (_updateRGNValve self);;
  on_objects (_updateRGUExcitation self);;
  on_objects (_updateSyncCoupler self);;
  on_objects (_updateSEPAM self).

End SEPAM.

(** The fields a turbine reads or writes. *)
Definition locations (self : Turbine) : list loc :=
  [HYDRO_CMDO_VA_TETE (_headValve self); HYDRO_CMDC_VA_TETE (_headValve self);
   HYDRO_ZSO_VA_TETE (_headValve self); HYDRO_ZSC_VA_TETE (_headValve self);
   HYDRO_CMDO_VA_PIED (_footValve self); HYDRO_CMDC_VA_PIED (_footValve self);
   HYDRO_ZSO_VA_PIED (_footValve self); HYDRO_ZSC_VA_PIED (_footValve self);
   HYDRO_ST_TURB (_RGNValve self); HYDRO_ZT_VA_RGN (_RGNValve self);
   HYDRO_VT_ALTERN (_RGUExcitation self);
   HYDRO_FQT_ALTERN (_RGUExcitation self);
   HYDRO_VSP_ALTERN (_RGUExcitation self);
   HYDRO_AUTORIZ_CPL (_syncCoupler self);
   HYDRO_FT_VA_TETE (_waterLevelAndFlow self);
   HYDRO_JT_ALTERN (_SEPAM self); FREQ (_SEPAM self);
   COURANT1 (_SEPAM self); COURANT2 (_SEPAM self); COURANT3 (_SEPAM self)].

(** Example states: the head valve at 1 to 4, the foot valve at 5 to 8,
    the governor valve at 9 and 10, the excitation at 11 to 13, the coupler
    at 14 and 15, the head flow at 19 and the metering unit at 20 to 25. *)
Definition example_turbine : Turbine :=
  mkTurbine (mkHeadValve 1%positive 2%positive 3%positive 4%positive)
            (mkFootValve 5%positive 6%positive 7%positive 8%positive)
            (mkRGNValve 9%positive 10%positive)
            (mkRGUExcitation 11%positive 12%positive 13%positive)
            (mkSyncCoupler 14%positive 15%positive)
            (mkWaterLevelAndFlow 16%positive 17%positive 18%positive
                                 19%positive)
            (mkSEPAM 20%positive 21%positive 22%positive 23%positive
                     24%positive 25%positive).

Definition running (opening flow : Qc) (authorised : bool) : state :=
  initial_state
    (heap_of [(1%positive, PBool true); (5%positive, PBool true);
              (10%positive, PNum opening); (13%positive, PNum (num 50));
              (15%positive, PBool authorised); (19%positive, PNum flow)]).

(** An approximation of the square root of three. *)
Definition example_sqrt3 : Qc := Q2Qc (1732 # 1000).

End Turbine.

(** *** [hydro.py]: the plant *)

Module Hydro.
Import Variables PyNum Objects.

(** The attributes of [world] that the script hands to the components: one
    [Field] object for each variable of the configuration, all distinct. *)
Module world.
Definition HYDRO_CMDO_VA_BARRAGE : loc := 1%positive.
Definition HYDRO_CMDC_VA_BARRAGE : loc := 2%positive.
Definition HYDRO_ZSO_VA_BARRAGE : loc := 3%positive.
Definition HYDRO_ZSC_VA_BARRAGE : loc := 4%positive.
Definition HYDRO_ZT_VA_BARRAGE : loc := 5%positive.
Definition HYDRO_LT_EAU_BARRAGE : loc := 6%positive.
Definition HYDRO_FT_IN_BARRAGE : loc := 7%positive.
Definition HYDRO_FT_VA_BARRAGE : loc := 8%positive.
Definition HYDRO_FT_VA_TETE : loc := 9%positive.
Definition HYDRO_CMD_PO_HUILE : loc := 10%positive.
Definition HYDRO_RM_PO_HUILE : loc := 11%positive.
Definition HYDRO_TT_HUILE : loc := 12%positive.
Definition HYDRO_CMD_PO_EAU : loc := 13%positive.
Definition HYDRO_RM_PO_EAU : loc := 14%positive.
Definition HYDRO_ST_PO_EAU : loc := 15%positive.
Definition HYDRO_SSP_PO_EAU : loc := 16%positive.
Definition HYDRO_FT_EAU_REFR : loc := 17%positive.
Definition HYDRO_TT_EAU : loc := 18%positive.
Definition HYDRO_TT_ECHAUFF : loc := 19%positive.
Definition HYDRO_TT_EAU_REFR : loc := 20%positive.
Definition HYDRO_CMDO_VA_TETE : loc := 21%positive.
Definition HYDRO_CMDC_VA_TETE : loc := 22%positive.
Definition HYDRO_ZSO_VA_TETE : loc := 23%positive.
Definition HYDRO_ZSC_VA_TETE : loc := 24%positive.
Definition HYDRO_CMDO_VA_PIED : loc := 25%positive.
Definition HYDRO_CMDC_VA_PIED : loc := 26%positive.
Definition HYDRO_ZSO_VA_PIED : loc := 27%positive.
Definition HYDRO_ZSC_VA_PIED : loc := 28%positive.
Definition HYDRO_ST_TURB : loc := 29%positive.
Definition HYDRO_ZT_VA_RGN : loc := 30%positive.
Definition HYDRO_VT_ALTERN : loc := 31%positive.
Definition HYDRO_FQT_ALTERN : loc := 32%positive.
Definition HYDRO_VSP_ALTERN : loc := 33%positive.
Definition HYDRO_CMD_COUPLAGE : loc := 34%positive.
Definition HYDRO_AUTORIZ_CPL : loc := 35%positive.
Definition HYDRO_JT_ALTERN : loc := 36%positive.
Definition HYDRO_FREQ : loc := 37%positive.
Definition HYDRO_COURANT1 : loc := 38%positive.
Definition HYDRO_COURANT2 : loc := 39%positive.
Definition HYDRO_COURANT3 : loc := 40%positive.
Definition HYDRO_SHIFT : loc := 41%positive.
End world.

Definition opened : Opened :=
  mkOpened world.HYDRO_CMDO_VA_BARRAGE world.HYDRO_CMDC_VA_BARRAGE
           world.HYDRO_ZSO_VA_BARRAGE world.HYDRO_ZSC_VA_BARRAGE
           world.HYDRO_ZT_VA_BARRAGE.

Definition water_level_and_flow : WaterLevelAndFlow :=
  mkWaterLevelAndFlow world.HYDRO_LT_EAU_BARRAGE world.HYDRO_FT_IN_BARRAGE
                      world.HYDRO_FT_VA_BARRAGE world.HYDRO_FT_VA_TETE.

Definition oil_pump : OilPump :=
  mkOilPump world.HYDRO_CMD_PO_HUILE world.HYDRO_RM_PO_HUILE.

Definition oil_temperature : OilTemperature :=
  mkOilTemperature world.HYDRO_TT_HUILE.

Definition water_pump : WaterPump :=
  mkWaterPump world.HYDRO_CMD_PO_EAU world.HYDRO_RM_PO_EAU
              world.HYDRO_ST_PO_EAU world.HYDRO_SSP_PO_EAU.

Definition water_flow : WaterFlow := mkWaterFlow world.HYDRO_FT_EAU_REFR.

Definition water_temperature : WaterTemperature :=
  mkWaterTemperature world.HYDRO_TT_EAU.

Definition warming_temperature : WarmingTemperature :=
  mkWarmingTemperature world.HYDRO_TT_ECHAUFF.

Definition cooling_temperature : CoolingTemperature :=
  mkCoolingTemperature world.HYDRO_TT_EAU_REFR.

Definition head_valve : HeadValve :=
  mkHeadValve world.HYDRO_CMDO_VA_TETE world.HYDRO_CMDC_VA_TETE
              world.HYDRO_ZSO_VA_TETE world.HYDRO_ZSC_VA_TETE.

Definition foot_valve : FootValve :=
  mkFootValve world.HYDRO_CMDO_VA_PIED world.HYDRO_CMDC_VA_PIED
              world.HYDRO_ZSO_VA_PIED world.HYDRO_ZSC_VA_PIED.

Definition rgn_valve : RGNValve :=
  mkRGNValve world.HYDRO_ST_TURB world.HYDRO_ZT_VA_RGN.

Definition rgu_excitation : RGUExcitation :=
  mkRGUExcitation world.HYDRO_VT_ALTERN world.HYDRO_FQT_ALTERN
                  world.HYDRO_VSP_ALTERN.

Definition sync_coupler : SyncCoupler :=
  mkSyncCoupler world.HYDRO_CMD_COUPLAGE world.HYDRO_AUTORIZ_CPL.

Definition sepam : SEPAM :=
  mkSEPAM world.HYDRO_JT_ALTERN world.HYDRO_FREQ world.HYDRO_COURANT1
          world.HYDRO_COURANT2 world.HYDRO_COURANT3 world.HYDRO_SHIFT.

Definition level_regulation : LevelRegulation.LevelRegulation :=
  LevelRegulation.mkLevelRegulation opened water_level_and_flow head_valve
                                    foot_valve rgn_valve.

Definition hydraulic_central : HydraulicCentral.HydraulicCentral :=
  HydraulicCentral.mkHydraulicCentral oil_pump oil_temperature.

Definition cooling : Cooling.Cooling :=
  Cooling.mkCooling water_pump water_flow water_temperature
                    warming_temperature cooling_temperature sync_coupler
                    rgn_valve rgu_excitation water_level_and_flow sepam.

Definition turbine : Turbine.Turbine :=
  Turbine.mkTurbine head_valve foot_valve rgn_valve rgu_excitation
                    sync_coupler water_level_and_flow sepam.

(** Modelled from the spec: the four constructors register their generators
    with the scheduler in the order of the script, after the generator of
    the orchestrator; all have [UPDATE_TICK = 1], so in every tick, once the
    orchestrator has had its turn, each runs the body of its loop once, in
    this order and without preemption.  An exception ends the run. *)
Definition components_tick (sqrt3 : Qc) : M Turbine.state unit :=
  Turbine.on_objects (LevelRegulation.update_step level_regulation);;
  Turbine.on_objects (HydraulicCentral.update_step hydraulic_central);;
  Turbine.on_objects (Cooling.update_step cooling);;
  Turbine.update_step sqrt3 turbine.

(** A plant with the head valve reported closed while water still flows
    through it and the generator is coupled at full speed. *)
Definition closed_head_valve : Turbine.state :=
  Turbine.initial_state
    (heap_of [(world.HYDRO_ZT_VA_BARRAGE, PNum (num 0));
              (world.HYDRO_LT_EAU_BARRAGE, PNum (num 7));
              (world.HYDRO_FT_IN_BARRAGE, PNum (num 75));
              (world.HYDRO_FT_VA_BARRAGE, PNum (num 0));
              (world.HYDRO_FT_VA_TETE, PNum (num 5));
              (world.HYDRO_TT_HUILE, PNum (num 20));
              (world.HYDRO_CMD_PO_EAU, PBool false);
              (world.HYDRO_TT_ECHAUFF, PNum (num 30));
              (world.HYDRO_TT_EAU_REFR, PNum (num 10));
              (world.HYDRO_ZSC_VA_TETE, PBool true);
              (world.HYDRO_ST_TURB, PNum (num 1500));
              (world.HYDRO_ZT_VA_RGN, PNum (num 50));
              (world.HYDRO_VSP_ALTERN, PNum (num 50));
              (world.HYDRO_AUTORIZ_CPL, PBool true)]).

End Hydro.

(** ** [modbus.py]: the register side of the store *)

Module Modbus.
Import Variables Simulator.

(** [round(x)] on a float: to the nearest integer, a tie to the even one. *)
Definition py_round (x : Qc) : Z :=
  let below := Qfloor x in
  let rest := (x - num below)%Qc in
  if decide (rest < half)%Qc then below
  else if decide (half < rest)%Qc then (below + 1)%Z
  else if Z.even below then below else (below + 1)%Z.

(** [2 ** k], for a positive or a negative exponent. *)
Definition pow2 (k : Z) : Qc :=
  if decide (0 ≤ k)%Z then num (2 ^ k) else (/ num (2 ^ (- k)))%Qc.

(** The binary exponent [e] of the positive rational [n / d]:
    [2 ** e ≤ n / d < 2 ** (e + 1)]. *)
Definition exponent (n : Z) (d : positive) : Z :=
  let k := (Z.log2 n - Z.log2 (Z.pos d))%Z in
  if decide (pow2 k ≤ Q2Qc (n # d))%Qc then k else (k - 1)%Z.

(** [float(val)] on a number: the double nearest to it (a significand of 53
    bits, the smallest exponent being -1022), a tie going to the even
    significand; a float is left as it is, an [int] beyond the largest
    double raises [OverflowError]. *)
Definition float_of_number (q : Qc) : result Qc :=
  let n := Qnum q in
  if decide (n = 0%Z) then Ok q
  else
    let a := Q2Qc (Z.abs n # Qden q) in
    let e := exponent (Z.abs n) (Qden q) in
    let quantum := pow2 (Z.max e (-1022) - 52) in
    let significand := py_round (a / quantum)%Qc in
    let r := (num significand * quantum)%Qc in
    if decide (r < pow2 1024)%Qc
    then Ok (if decide (0 < n)%Z then r else (- r)%Qc)
    else Raise OverflowError.

(** What [redis_encode] returns: a byte string or an integer. *)
Inductive encoded : Type :=
  | Bytes (s : string)
  | Int (z : Z).

(** Two conversions that are not part of the sources: the bytes the client
    of the store sends for an integer (its decimal digits), and [float] on
    a string or a byte string, which fails on what is not a number. *)
Class Wire : Type := {
  bytes_of_int : Z → string;
  float : string → option Qc;
}.

Section WithWire.
Context `{Wire}.

Definition redis_encode (val : pyval) : result encoded :=
  match val with
  | PBool true => Ok (Bytes "true")
  | PBool false => Ok (Bytes "false")
  | PNone => Ok (Int 0)
  | PNum q =>
      if decide (q = Q2Qc 0) then Ok (Int 0)
      else match float_of_number q with
           | Ok x => Ok (Int (py_round x))
           | Raise e => Raise e
           end
  | PStr s =>
      if decide (s = EmptyString) then Ok (Int 0)
      else match float s with
           | Some q => Ok (Int (py_round q))
           | None => Raise ValueError
           end
  | PBreaker _ => Raise TypeError
  | PDisconnector _ => Raise TypeError
  end.

(** [val] is what [get] returned: a byte string, or [None]. *)
Definition redis_decode (val : option string) : result pyval :=
  match val with
  | None => Ok (PNum (num 0))
  | Some s =>
      if decide (s = "true") then Ok (PBool true)
      else if decide (s = "false") then Ok (PBool false)
      else if decide (s = EmptyString) then Ok (PNum (num 0))
      else match float s with
           | Some q => Ok (PNum (num (py_round q)))
           | None => Raise ValueError
           end
  end.

(** Modelled from the spec: the store of the orchestrator, seen from the
    MODBUS server through its own client: when it is not reachable every
    operation raises; a [get] of an absent key returns [None]; a byte
    string is stored as it is and an integer as [bytes_of_int] of it. *)
Definition client_set (name : string) (value : encoded) : M Broker unit :=
  λ b, if reachable b
       then (Ok tt,
             mkBroker true
               (<[name := match value with
                          | Bytes s => s
                          | Int z => bytes_of_int z
                          end]> (store b)))
       else (Raise ConnectionError, b).

Definition client_get (name : string) : M Broker (option string) :=
  λ b, if reachable b then (Ok (store b !! name), b)
       else (Raise ConnectionError, b).

(** A data block: the variables of one slave and one kind of i/o, by
    MODBUS address. *)
Record RedisDataBlock : Type := mkRedisDataBlock {
  slave_id : Z;
  io_type : string;
  _toml_variables : gmap Z string;
}.

(** [self._toml_variables[real_addr]] *)
Definition variable_at (self : RedisDataBlock) (real_addr : Z)
    : result string :=
  match _toml_variables self !! real_addr with
  | Some var_name => Ok var_name
  | None => Raise KeyError
  end.

(** [enumerate(values)], counting from [start]. *)
Fixpoint enumerate {A} (start : nat) (values : list A) : list (nat * A) :=
  match values with
  | [] => []
  | val :: rest => (start, val) :: enumerate (S start) rest
  end.

Definition setValues (self : RedisDataBlock) (address : Z)
    (values : list pyval) : M Broker unit :=
  for_each (enumerate 0 values) (λ '(offset, val),
    let real_addr := (address + Z.of_nat offset - 1)%Z in
    var_name ← lift_result (variable_at self real_addr);
    value ← lift_result (redis_encode val);
    client_set var_name value).

(** The loop of [getValues] over the offsets still to come. *)
Fixpoint getValues_loop (self : RedisDataBlock) (address : Z)
    (offsets : list nat) (results : list pyval) : M Broker (list pyval) :=
  match offsets with
  | [] => mret results
  | offset :: rest =>
      let real_addr := (address + Z.of_nat offset - 1)%Z in
      var_name ← lift_result (variable_at self real_addr);
      raw ← client_get var_name;
      value ← lift_result (redis_decode raw);
      getValues_loop self address rest (results ++ [value])
  end.

(** [range(count)] is empty for a count that is not positive. *)
Definition getValues (self : RedisDataBlock) (address : Z) (count : Z)
    : M Broker (list pyval) :=
  getValues_loop self address (seq 0 (Z.to_nat count)) [].

End WithWire.

(** A wire on which the integers 0 to 2 are written as one digit, and the
    block of two coils and a register used as an example. *)
Definition example_wire : Wire := {|
  bytes_of_int z :=
    if decide (z = 0%Z) then "0" else if decide (z = 1%Z) then "1" else "2";
  float s :=
    if decide (s = "0") then Some (num 0)
    else if decide (s = "1") then Some (num 1)
    else if decide (s = "2") then Some (num 2)
    else None;
|}.

Definition example_block : RedisDataBlock :=
  mkRedisDataBlock 1 "DIGITAL"
    (<[0%Z := "HYDRO_CMD_PO_EAU"]>
       (<[1%Z := "HYDRO_CMD_PO_HUILE"]> (<[2%Z := "HYDRO_SSP_PO_EAU"]> ∅))).

End Modbus.

(** * Properties *)

Import Variables.

(** ** Invariants of computations *)

Section Stable.

Context {S : Type} (P : S → Prop).

Lemma stable_ret {A} (a : A) : stable P (mret a : M S A).
Proof. by intros s r s' HP [= _ <-]. Qed.

Lemma stable_raise {A} e : stable P (raise e : M S A).
Proof. by intros s r s' HP [= _ <-]. Qed.

Lemma stable_lift_result {A} (x : result A) : stable P (lift_result x : M S A).
Proof. by intros s r s' HP [= _ <-]. Qed.

Lemma stable_get_state : stable P (get_state : M S S).
Proof. by intros s r s' HP [= _ <-]. Qed.

Lemma stable_modify (f : S → S) :
  (∀ s, P s → P (f s)) → stable P (modify f).
Proof. intros Hf s r s' HP [= _ <-]. by apply Hf. Qed.

Lemma stable_bind {A B} (m : M S A) (k : A → M S B) :
  stable P m → (∀ a, stable P (k a)) → stable P (m ≫= k).
Proof.
  intros Hm Hk s r s' HP. unfold_M.
  destruct (m s) as [[a|e] s1] eqn:Hms.
  - apply (Hk a). by apply (Hm s _ _ HP Hms).
  - intros [= _ <-]. by apply (Hm s _ _ HP Hms).
Qed.

Lemma stable_for_each {A} (l : list A) (body : A → M S unit) :
  (∀ a, stable P (body a)) → stable P (for_each l body).
Proof.
  intros Hbody. induction l as [|a l IH]; cbn [for_each].
  - apply stable_ret.
  - apply stable_bind; [apply Hbody|by intros _].
Qed.

End Stable.

(** ** The disconnector state machine *)

Section Disconnector.

Implicit Types (self : instance) (s : DisconnectorStateType).

Lemma is_state_spec s s' : is_state (state_attr s) s' = bool_decide (s = s').
Proof. reflexivity. Qed.

Lemma setattr_other_attribute self n a :
  n ≠ "value" →
  DisconnectorStateField__setattr__ n a self = (Ok tt, <[n := a]> self).
Proof.
  intros Hn. unfold DisconnectorStateField__setattr__,
    DisconnectorStateField__setattr__guard.
  rewrite decide_False by done. reflexivity.
Qed.

Lemma setattr_value_missing self a :
  self !! "value" = None →
  DisconnectorStateField__setattr__ "value" a self = (Raise AttributeError, self).
Proof.
  intros Hv. unfold DisconnectorStateField__setattr__,
    DisconnectorStateField__setattr__guard, getattribute.
  rewrite decide_True by done. unfold_M. by rewrite Hv.
Qed.

(** C10: whatever the name, io type, hide flag and (valid) initial state,
    the constructor of [DisconnectorStateField] raises and returns no
    instance: [__init__] stops with [AttributeError] at the assignment of
    [value], which reads the current value in an instance that has only
    [_observer], [name] and [ioType] so far. *)
Theorem DisconnectorStateField_constructor_raises :
  ∀ (name : string) (io_type : option FieldType) (hide : option bool)
    (v : DisconnectorStateType),
    let partial : instance :=
      <["ioType" := from_option AType (AVal PNone) io_type]>
        (<["name" := AVal (PStr name)]> (<["_observer" := AVal PNone]> ∅)) in
    DisconnectorStateField_new name io_type (PDisconnector v) hide
      = Raise AttributeError
    ∧ DisconnectorStateField__init__ name io_type (PDisconnector v) hide ∅
      = (Raise AttributeError, partial)
    ∧ partial !! "value" = None
    ∧ DisconnectorStateField__setattr__ "value" (AVal (PDisconnector v)) partial
      = (Raise AttributeError, partial).
Proof. intros. repeat split. Qed.

(** With an initial value that is not a state the constructor raises too
    ([TypeError]): no call of the constructor returns an instance. *)
Lemma DisconnectorStateField_new_never_ok name io_type value hide :
  is_ok (DisconnectorStateField_new name io_type value hide) = false.
Proof. destruct value; reflexivity. Qed.

(** C4: in an instance whose current value is Broken, assigning any value
    (Broken included) raises [ValueError] to the caller and leaves the
    instance, hence the stored value, as it was. *)
Theorem disconnector_broken_is_terminal self (v : attrval) :
  self !! "value" = Some (state_attr D_BROKEN) →
  DisconnectorStateField__setattr__ "value" v self = (Raise ValueError, self)
  ∧ Disconnector_value
      (DisconnectorStateField__setattr__ "value" v self).2
    = Some (state_attr D_BROKEN).
Proof.
  intros Hv.
  assert (DisconnectorStateField__setattr__ "value" v self
          = (Raise ValueError, self)) as ->; [|done].
  unfold DisconnectorStateField__setattr__,
    DisconnectorStateField__setattr__guard, getattribute.
  rewrite decide_True by done. unfold_M. rewrite Hv. reflexivity.
Qed.

Lemma disconnector_broken_is_terminal_witness :
  disconnector D_BROKEN None !! "value" = Some (state_attr D_BROKEN)
  ∧ DisconnectorStateField__setattr__ "value" (state_attr D_OPEN)
      (disconnector D_BROKEN None)
    = (Raise ValueError, disconnector D_BROKEN None).
Proof.
  split; [reflexivity|].
  apply (disconnector_broken_is_terminal (disconnector D_BROKEN None)
           (state_attr D_OPEN)).
  reflexivity.
Defined.



End Disconnector.

(** ** Field collections and the breaker composite *)

Section Collections.

Implicit Types (h : heap) (l : loc) (s : BreakerStateType).

Lemma write_value_same h l v : value (write_value l v h l) = v.
Proof. unfold write_value. by rewrite decide_True. Qed.

Lemma write_value_other h l l' v : l' ≠ l → write_value l v h l' = h l'.
Proof. intros. unfold write_value. by rewrite decide_False. Qed.

Lemma BreakerStateType_value_inv s :
  BreakerStateType_of_value (PBool (BreakerStateType_value s).1)
                            (PBool (BreakerStateType_value s).2) = Ok s.
Proof. by destruct s. Qed.

(** C6 (as amended): for a breaker whose member list holds two distinct
    [Field] objects, and whatever the values they hold, writing a state
    stores its pair of booleans in the two members (and touches no other
    object), reading then gives that state back, for each of the four
    states; the constructor does the same write. *)
Theorem breaker_write_then_read h l0 l1 s (hide : bool) :
  l0 ≠ l1 →
  let self := mkFieldCollection [RField l0; RField l1] in
  let h' := (BreakerStateField_value_setter (PBreaker s) self h).2 in
  BreakerStateField_value_setter (PBreaker s) self h = (Ok tt, h')
  ∧ value (h' l0) = PBool (BreakerStateType_value s).1
  ∧ value (h' l1) = PBool (BreakerStateType_value s).2
  ∧ (∀ l, l ≠ l0 → l ≠ l1 → h' l = h l)
  ∧ BreakerStateField_value self h' = (Ok (PBreaker s), h')
  ∧ BreakerStateField__init__ [RField l0; RField l1] (PBreaker s) hide h
    = (Ok self, h').
Proof.
  intros Hne self h'.
  assert (h' = write_value l1 (PBool (BreakerStateType_value s).2)
                 (write_value l0 (PBool (BreakerStateType_value s).1) h))
    as Hh'.
  { subst h'. cbn. unfold_M. cbn. by destruct (BreakerStateType_value s). }
  assert (value (h' l0) = PBool (BreakerStateType_value s).1) as H0.
  { rewrite Hh', write_value_other by done. apply write_value_same. }
  assert (value (h' l1) = PBool (BreakerStateType_value s).2) as H1.
  { rewrite Hh'. apply write_value_same. }
  split_and!; try done.
  - subst h'. cbn. unfold_M. cbn. by destruct (BreakerStateType_value s).
  - intros l Hl0 Hl1. rewrite Hh'. by rewrite !write_value_other.
  - unfold BreakerStateField_value, subscript, read_value. cbn. unfold_M.
    rewrite H0, H1, BreakerStateType_value_inv. reflexivity.
  - unfold BreakerStateField__init__. cbn. unfold_M. cbn.
    subst h'. cbn. unfold_M. cbn. by destruct (BreakerStateType_value s).
Qed.

Lemma breaker_write_then_read_witness :
  ref_a ≠ ref_b
  ∧ BreakerStateField_value (mkFieldCollection [RField ref_a; RField ref_b])
      (BreakerStateField_value_setter (PBreaker B_CLOSED)
         (mkFieldCollection [RField ref_a; RField ref_b]) example_heap).2
    = (Ok (PBreaker B_CLOSED),
       (BreakerStateField_value_setter (PBreaker B_CLOSED)
          (mkFieldCollection [RField ref_a; RField ref_b]) example_heap).2).
Proof.
  assert (ref_a ≠ ref_b) as Hne by discriminate.
  split; [exact Hne|].
  apply (breaker_write_then_read example_heap ref_a ref_b B_CLOSED false Hne).
Defined.

(** C6, the claim as stated fails: a breaker can be built on one [Field]
    object given twice; writing Closed then stores [False] and [True] in the
    same object and the state read back is Broken (writing Open reads back
    as Transition). *)
Lemma breaker_aliased_members_read_differs :
  let self := mkFieldCollection [RField ref_a; RField ref_a] in
  let h' := (BreakerStateField_value_setter (PBreaker B_CLOSED) self
               example_heap).2 in
  BreakerStateField__init__ [RField ref_a; RField ref_a] (PBreaker B_CLOSED) false
    example_heap = (Ok self, h')
  ∧ (BreakerStateField_value self h').1 = Ok (PBreaker B_BROKEN)
  ∧ (BreakerStateField_value self h').1 ≠ Ok (PBreaker B_CLOSED)
  ∧ (BreakerStateField_value self
       (BreakerStateField_value_setter (PBreaker B_OPEN) self
          example_heap).2).1 = Ok (PBreaker B_TRANSITION).
Proof. cbv zeta. split_and!; try reflexivity. discriminate. Qed.

(** C9 (as amended): the constructor of a collection returns exactly when
    every supplied member is a [Field], and then holds the list supplied;
    otherwise it raises.  Reading [fields] gives the members back.  The
    membership is not fixed by the construction: [fields] has a public
    setter, and assigning a list of fields to it makes that list the
    membership, every member of which is a [Field]. *)
Theorem FieldCollection_membership (members : list pyref) :
  match FieldCollection__init__ members with
  | Ok self => forallb isinstance_Field members = true ∧ fields self = members
  | Raise _ => forallb isinstance_Field members = false
  end
  ∧ ∀ (self : FieldCollection) (new : list loc),
      fields (fields_setter (RField <$> new) self) = RField <$> new
      ∧ forallb isinstance_Field
          (fields (fields_setter (RField <$> new) self)) = true.
Proof.
  split.
  - unfold FieldCollection__init__.
    induction members as [|o members IH]; cbn; [done|].
    destruct o as [l|[n|]]; cbn; try done.
    destruct (check_members members); cbn in *; [|done].
    by destruct IH.
  - intros self new. split; [done|]. cbn.
    induction new as [|l new IH]; [done|]. by rewrite fmap_cons.
Qed.

(** C9, the claim as stated fails: after construction on the two fields at
    [ref_a] and [ref_b], an assignment to [fields] makes the fields at
    [ref_b] and [ref_c] the members: the field at [ref_a] has left the
    collection and the one at [ref_c] has entered it. *)
Lemma FieldCollection_membership_is_mutable :
  ∃ self,
    FieldCollection__init__ [RField ref_a; RField ref_b] = Ok self
    ∧ fields self = [RField ref_a; RField ref_b]
    ∧ fields (fields_setter [RField ref_b; RField ref_c] self)
      = [RField ref_b; RField ref_c]
    ∧ fields (fields_setter [RField ref_b; RField ref_c] self) ≠ fields self
    ∧ (RField ref_a
       ∉ fields (fields_setter [RField ref_b; RField ref_c] self))
    ∧ forallb isinstance_Field
        (fields (fields_setter [RField ref_b; RField ref_c] self)) = true.
Proof.
  eexists. split_and!; try reflexivity; [discriminate|].
  cbn. rewrite !not_elem_of_cons. split_and!; [discriminate..|].
  apply not_elem_of_nil.
Qed.

End Collections.

(** ** Fluid compositions *)

Section Fluid.

Local Open Scope Qc_scope.
Implicit Types (d : fluid_dict) (t : Qc).

Lemma _normalize_pos d :
  0 < sum_values d → _normalize d = scaled (sum_values d) d.
Proof. intros Ht. unfold _normalize. by rewrite decide_True. Qed.

Lemma _normalize_nonpos d : ¬ 0 < sum_values d → _normalize d = [].
Proof. intros Ht. unfold _normalize. by rewrite decide_False. Qed.

Lemma sum_values_cons k v d : sum_values ((k, v) :: d) = v + sum_values d.
Proof. reflexivity. Qed.

Lemma scaled_cons t k v d :
  scaled t ((k, v) :: d)
  = if decide (v = 0) then scaled t d else (k, v / t) :: scaled t d.
Proof.
  unfold scaled. rewrite filter_cons. cbn.
  destruct (decide (v = 0)) as [->|Hv].
  - by rewrite decide_False by (by intros []).
  - by rewrite decide_True.
Qed.

Lemma sum_values_scaled t d :
  t ≠ 0 → sum_values (scaled t d) = sum_values d / t.
Proof.
  intros Ht.
  induction d as [|[k v] d IH].
  - cbn. field. exact Ht.
  - rewrite scaled_cons, sum_values_cons. case_decide as Hv.
    + rewrite IH, Hv. field. exact Ht.
    + rewrite sum_values_cons, IH. field. exact Ht.
Qed.

Lemma scaled_nonzero t d : 0 < t → Forall (λ kv, kv.2 ≠ 0) (scaled t d).
Proof.
  intros Ht. unfold scaled. apply Forall_fmap, list.Forall_forall.
  intros [k v] [Hv _]%list_elem_of_filter. cbn in *.
  intros Hz. apply Hv.
  assert (t ≠ 0) as Hne by (by apply not_eq_sym, Qclt_not_eq).
  rewrite <- (Qcmult_div_r v t Hne), Hz. ring.
Qed.

Lemma scaled_positive t d :
  0 < t → Forall (λ kv, 0 ≤ kv.2) d → Forall (λ kv, 0 < kv.2) (scaled t d).
Proof.
  intros Ht Hd. unfold scaled. apply Forall_fmap, list.Forall_forall.
  intros [k v] [Hv Hin]%list_elem_of_filter. cbn in *.
  rewrite list.Forall_forall in Hd. specialize (Hd _ Hin). cbn in Hd.
  apply Qcmult_pos_pos; [|by apply Qcinv_pos].
  destruct (Qcle_lt_or_eq _ _ Hd) as [?|Heq]; [done|]. by destruct Hv.
Qed.

Lemma scaled_keys t d :
  (scaled t d).*1 = (filter (λ kv, kv.2 ≠ Q2Qc 0) d).*1.
Proof. unfold scaled. rewrite <- list_fmap_compose. by apply list_fmap_ext. Qed.

Lemma normalize_example_mix :
  _normalize example_mix = [("A", half); ("B", half)].
Proof. compute_done. Qed.

(** C7 (as amended): a non-empty composition passed to a fluid field, at
    construction or through the setter of [fluidDict], is stored
    normalised.  When its total is positive the stored entries are the
    non-zero entries divided by the total, in the same order: the zero
    entries are dropped, the stored fractions are non-zero and sum to 1, and
    they are positive when no entry is negative.  When its total is not
    positive the stored composition is empty and nothing is raised.  An
    empty composition (or [None]) is stored as [None].  In particular
    [{A:2, B:2, C:0}] is stored as [{A:1/2, B:1/2}] and a non-empty all-zero
    composition as the empty one. *)
Theorem fluid_normalization (self : FluidField) d :
  d ≠ [] →
  let total := sum_values d in
  let stored := _normalize d in
  fluidDict (fluidDict_setter (Some d) self) = Some stored
  ∧ fluidDict (FluidField__init__ (name (fluid_field self))
                 (ioType (fluid_field self)) (value (fluid_field self))
                 (hide (fluid_field self)) (Some d) (_temperature self))
    = Some stored
  ∧ (0 < total →
       stored = scaled total d
       ∧ stored.*1 = (filter (λ kv, kv.2 ≠ Q2Qc 0) d).*1
       ∧ Forall (λ kv, kv.2 ≠ 0) stored
       ∧ sum_values stored = 1
       ∧ (Forall (λ kv, 0 ≤ kv.2) d → Forall (λ kv, 0 < kv.2) stored))
  ∧ (¬ 0 < total → stored = [])
  ∧ (Forall (λ kv, kv.2 = 0) d → stored = [])
  ∧ fluidDict (fluidDict_setter (Some []) self) = None
  ∧ fluidDict (fluidDict_setter None self) = None
  ∧ fluidDict (fluidDict_setter (Some example_mix) self)
    = Some [("A", half); ("B", half)].
Proof.
  intros Hd total stored.
  assert (normalize_or_None (Some d) = Some stored) as Hstore.
  { destruct d; [done|reflexivity]. }
  split_and!; try done.
  - intros Ht. subst stored. rewrite _normalize_pos by done.
    assert (total ≠ 0) as Hne by (by apply not_eq_sym, Qclt_not_eq).
    split_and!.
    + done.
    + apply scaled_keys.
    + by apply scaled_nonzero.
    + rewrite sum_values_scaled by done. fold total. field. exact Hne.
    + by apply scaled_positive.
  - apply _normalize_nonpos.
  - intros Hz. apply _normalize_nonpos.
    assert (sum_values d = 0) as Hsum.
    { clear -Hz. induction Hz as [|[k v] d Hv _ IH]; [done|].
      rewrite sum_values_cons. cbn in Hv. rewrite Hv, IH. ring. }
    subst total. rewrite Hsum. by intros ?%Qclt_not_eq.
  - unfold fluidDict, fluidDict_setter. cbn. by rewrite normalize_example_mix.
Qed.

Lemma fluid_normalization_witness :
  example_mix ≠ []
  ∧ fluidDict (fluidDict_setter (Some example_mix) example_fluid)
    = Some (_normalize example_mix)
  ∧ sum_values (_normalize example_mix) = 1.
Proof.
  assert (example_mix ≠ []) as Hne by discriminate.
  destruct (fluid_normalization example_fluid example_mix Hne)
    as (Hset & _ & Hpos & _).
  destruct (Hpos eq_refl) as (_ & _ & _ & Hsum & _).
  split; [exact Hne|]. split; [exact Hset|exact Hsum].
Defined.

(** C7, the claim as stated fails: a composition with a negative entry and
    a positive total is stored with a negative fraction; and the empty
    composition, whose total is 0, is stored as [None], on which
    [fluidQuantity] raises, not as the empty composition. *)
Lemma fluid_negative_fraction_stored :
  fluidDict (fluidDict_setter (Some example_signed_mix) example_fluid)
    = Some [("A", Q2Qc (3 # 2)); ("B", Q2Qc (-1 # 2))]
  ∧ Q2Qc (-1 # 2) < 0
  ∧ ¬ Forall (λ kv, 0 ≤ kv.2)
        (default [] (fluidDict (fluidDict_setter (Some example_signed_mix)
                                  example_fluid)))
  ∧ sum_values [] = 0
  ∧ fluidDict (fluidDict_setter (Some []) example_fluid) = None
  ∧ fluidQuantity "A" (fluidDict_setter (Some []) example_fluid)
    = Raise AttributeError.
Proof.
  assert (_normalize example_signed_mix
          = [("A", Q2Qc (3 # 2)); ("B", Q2Qc (-1 # 2))]) as Hn.
  { compute_done. }
  unfold fluidDict, fluidDict_setter. cbn. rewrite Hn.
  split_and!; [done|reflexivity| |done..].
  intros Hall. apply Forall_cons_1 in Hall as [_ Hall].
  apply Forall_cons_1 in Hall as [Hb _]. cbn in Hb. by apply Hb.
Qed.

End Fluid.

(** ** The orchestrator *)

Import Simulator.

Section Orchestrator.

Context `{Json}.
Implicit Types (d : pydict) (b : Broker) (tr : list event) (f : Field)
  (st : gmap string string).

(** *** The dictionary *)

Lemma dict_get_app_notin k d1 d2 :
  k ∉ d1.*1 → dict_get k (d1 ++ d2) = dict_get k d2.
Proof.
  induction d1 as [|[k' a'] d1 IH]; cbn; [done|].
  intros [Hk Hd1]%not_elem_of_cons.
  rewrite decide_False by done. by apply IH.
Qed.

Lemma dict_set_app_notin k a d1 d2 :
  k ∉ d1.*1 → dict_set k a (d1 ++ d2) = d1 ++ dict_set k a d2.
Proof.
  induction d1 as [|[k' a'] d1 IH]; cbn; [done|].
  intros [Hk Hd1]%not_elem_of_cons.
  rewrite decide_False by done. by rewrite IH.
Qed.

Lemma dict_get_head k a d : dict_get k ((k, a) :: d) = Some a.
Proof. cbn. by rewrite decide_True. Qed.

Lemma dict_set_head k a a' d : dict_set k a' ((k, a) :: d) = (k, a') :: d.
Proof. cbn. by rewrite decide_True. Qed.



(** *** The selection of the fields of one direction *)

Lemma ioType_and_typed (bit : FieldType) (n : Z) f :
  FieldType_value bit = Some n →
  is_Some (ioType f ≫= FieldType_value) →
  ∃ m, ioType_and bit f = Ok m
       ∧ negb (bool_decide (m = 0%Z)) = has_bit n f.
Proof.
  intros Hbit [m Hm]. unfold ioType_and, has_bit. rewrite Hm.
  destruct (ioType f) as [t|]; [|done]. cbn in Hm. rewrite Hm, Hbit. eauto.
Qed.

Lemma select_fields_typed (bit : FieldType) (n : Z) (force_all : bool) d :
  FieldType_value bit = Some n →
  typed d = true →
  select_fields bit force_all d
  = Ok (fields_where (λ f, has_bit n f || force_all) d).
Proof.
  intros Hbit. induction d as [|[k [f|]] d IH]; cbn; [done| |by auto].
  intros [Hf Hd]%andb_prop. apply bool_decide_eq_true_1 in Hf.
  destruct (ioType_and_typed bit n f Hbit Hf) as (m & -> & <-).
  rewrite (IH Hd). by destruct (_ || _).
Qed.

Lemma select_fields_untyped (bit : FieldType) (n : Z) (force_all : bool) d :
  FieldType_value bit = Some n →
  is_ok (select_fields bit force_all d) = typed d.
Proof.
  intros Hbit. unfold typed.
  induction d as [|[k [f|]] d IH]; cbn; [done| |by auto].
  unfold typed_entry at 1. cbn. case_bool_decide as Hf; cbn.
  - destruct (ioType_and_typed bit n f Hbit Hf) as (m & -> & _).
    etrans; [|exact IH]. destruct (select_fields bit force_all d); [|done].
    by destruct (_ || _).
  - unfold ioType_and. destruct (ioType f) as [t|]; [|done]. cbn in Hf.
    destruct (FieldType_value t); [|done]. destruct Hf; eauto.
Qed.

Lemma fields_where_ext (p q : Field → bool) d :
  (∀ f, p f = q f) → fields_where p d = fields_where q d.
Proof.
  intros Hpq. induction d as [|[k [f|]] d IH]; cbn; [done| |done].
  by rewrite Hpq, IH.
Qed.

Lemma fields_where_field (p : Field → bool) k f d :
  fields_where p ((k, AField f) :: d)
  = if p f then (k, f) :: fields_where p d else fields_where p d.
Proof. reflexivity. Qed.

Lemma fields_where_other (p : Field → bool) k d :
  fields_where p ((k, AOther) :: d) = fields_where p d.
Proof. reflexivity. Qed.

Lemma fields_where_app (p : Field → bool) d1 d2 :
  fields_where p (d1 ++ d2) = fields_where p d1 ++ fields_where p d2.
Proof.
  induction d1 as [|[k [f|]] d1 IH]; cbn; [done| |done].
  destruct (p f); cbn; by rewrite IH.
Qed.


Lemma for_each_cons {S A} (a : A) (l : list A) (body : A → M S unit) (s : S) :
  for_each (a :: l) body s
  = match body a s with
    | (Ok _, s') => for_each l body s'
    | (Raise e, s') => (Raise e, s')
    end.
Proof. cbn. unfold_M. by destruct (body a s) as [[[]|e] s']. Qed.


(** *** The pull loop *)

Lemma loads_pulled_value st k :
  loads (st !! k) = match pulled_value st k with
                    | Some v => Ok v
                    | None => loads (st !! k)
                    end.
Proof.
  unfold pulled_value, loads. destruct (st !! k) as [doc|]; cbn; [|done].
  by destruct (json_loads doc).
Qed.

Lemma pull_body_ok d1 k f d2 b tr v :
  k ∉ d1.*1 →
  reachable b = true →
  pulled_value (store b) k = Some v →
  pull_body (k, f) (mkProcess (d1 ++ (k, AField f) :: d2) b tr)
  = (Ok tt, mkProcess (d1 ++ (k, AField (set_value v f)) :: d2) b
                      (tr ++ [EvGet k])).
Proof.
  intros Hk Hb Hv. unfold pull_body, broker_get, fromJSON, Process_getattr,
    dict_store, log. unfold_M. cbn. rewrite Hb. cbn.
  rewrite dict_get_app_notin, dict_get_head by done.
  rewrite loads_pulled_value, Hv. cbn.
  by rewrite dict_set_app_notin, dict_set_head by done.
Qed.


Lemma pull_body_unreachable d b tr kf :
  reachable b = false →
  pull_body kf (mkProcess d b tr) = (Raise ConnectionError, mkProcess d b tr).
Proof.
  intros Hb. destruct kf as [k f].
  unfold pull_body, broker_get. unfold_M. cbn. by rewrite Hb.
Qed.

Lemma pull_loop_ok d1 d2 d3 b tr :
  NoDup ((d1 ++ d2 ++ d3).*1) →
  reachable b = true →
  inputs_available (store b) d2 = true →
  for_each (fields_where is_input d2) pull_body
           (mkProcess (d1 ++ d2 ++ d3) b tr)
  = (Ok tt, mkProcess (d1 ++ (pull_entry (store b) <$> d2) ++ d3) b
                      (tr ++ pulls d2)).
Proof.
  intros Hnd Hb. revert d1 tr Hnd.
  induction d2 as [|[k a] d2 IH]; intros d1 tr Hnd Hav.
  { cbn. by rewrite !app_nil_r. }
  assert (k ∉ d1.*1) as Hk.
  { rewrite fmap_app in Hnd.
    apply list.NoDup_app in Hnd as (_ & Hdis & _). intros Hin.
    apply (Hdis _ Hin). cbn. left. }
  assert (∀ a', NoDup ((d1 ++ [(k, a')]) ++ d2 ++ d3).*1) as Hnd'.
  { intros a'. rewrite <- app_assoc. by rewrite fmap_app in Hnd |- *. }
  unfold inputs_available, pulls in *. rewrite fmap_cons.
  rewrite <- !app_comm_cons.
  destruct a as [f|]; [destruct (is_input f) eqn:Hin|].
  - rewrite fields_where_field, Hin in Hav |- *.
    apply andb_prop in Hav as [Hv Hav].
    apply bool_decide_eq_true_1 in Hv as [v Hv]; cbn in Hv.
    rewrite for_each_cons, (pull_body_ok _ k f _ b tr v Hk Hb Hv).
    rewrite (cons_middle _ d1 (d2 ++ d3)), app_assoc, (IH _ _ (Hnd' _) Hav).
    cbn. rewrite Hin, Hv. cbn. by rewrite <- !app_assoc.
  - rewrite fields_where_field, Hin in Hav |- *.
    rewrite (cons_middle _ d1 (d2 ++ d3)), app_assoc, (IH _ _ (Hnd' _) Hav).
    cbn. rewrite Hin. by rewrite <- !app_assoc.
  - rewrite fields_where_other in Hav |- *.
    rewrite (cons_middle _ d1 (d2 ++ d3)), app_assoc, (IH _ _ (Hnd' _) Hav).
    cbn. by rewrite <- !app_assoc.
Qed.

Lemma typed_app d1 d2 : typed (d1 ++ d2) = typed d1 && typed d2.
Proof. apply forallb_app. Qed.

Lemma _retrieve_fields_ok d b tr :
  NoDup (d.*1) →
  typed d = true →
  reachable b = true →
  inputs_available (store b) d = true →
  _retrieve_fields (mkProcess d b tr)
  = (Ok tt, mkProcess (pull_entry (store b) <$> d) b (tr ++ pulls d)).
Proof.
  intros Hnd Hty Hb Hav. unfold _retrieve_fields. unfold_M. cbn.
  rewrite (select_fields_typed INPUT_BIT 1 false d eq_refl Hty).
  rewrite (fields_where_ext _ is_input)
    by (intros f; apply orb_false_r).
  pose proof (pull_loop_ok [] d [] b tr) as Hloop.
  rewrite !app_nil_r in Hloop. cbn in Hloop. by apply Hloop.
Qed.


(** *** The push loop *)

Lemma push_loop_ok (sel : list (string * Field)) d st tr :
  forallb (λ kf, bool_decide (is_Some (json_dumps (value kf.2)))) sel = true →
  for_each sel push_body (mkProcess d (mkBroker true st) tr)
  = (Ok tt,
     mkProcess d
       (mkBroker true
          (foldl (λ st kf, <[kf.1 := default "" (json_dumps (value kf.2))]> st)
                 st sel))
       (tr ++ (push_event <$> sel))).
Proof.
  revert st tr. induction sel as [|[k f] sel IH]; intros st tr Hser.
  { cbn. by rewrite app_nil_r. }
  cbn in Hser. apply andb_prop in Hser as [Hf Hser].
  apply bool_decide_eq_true_1 in Hf as [doc Hdoc].
  rewrite for_each_cons.
  assert (push_body (k, f) (mkProcess d (mkBroker true st) tr)
          = (Ok tt, mkProcess d (mkBroker true (<[k := doc]> st))
                              (tr ++ [EvSet k doc]))) as ->.
  { unfold push_body, toJSON, broker_set, log. unfold_M. cbn.
    by rewrite Hdoc. }
  rewrite (IH _ _ Hser). cbn. unfold push_event at 2. cbn. rewrite Hdoc. cbn.
  by rewrite <- app_assoc.
Qed.

Lemma _publish_fields_ok (force_all : bool) d st tr :
  typed d = true →
  forallb (λ kf, bool_decide (is_Some (json_dumps (value kf.2))))
          (fields_where (λ f, is_output f || force_all) d) = true →
  _publish_fields force_all (mkProcess d (mkBroker true st) tr)
  = (Ok tt,
     mkProcess d
       (mkBroker true
          (foldl (λ st kf, <[kf.1 := default "" (json_dumps (value kf.2))]> st)
                 st (fields_where (λ f, is_output f || force_all) d)))
       (tr ++ (push_event <$> fields_where (λ f, is_output f || force_all) d))).
Proof.
  intros Hty Hser. unfold _publish_fields. unfold_M. cbn.
  rewrite (select_fields_typed OUTPUT_BIT 2 force_all d eq_refl Hty).
  by apply push_loop_ok.
Qed.

(** The forced push writes every field, whatever its direction, when all
    fields have an io type with an integer value. *)
Lemma forced_push_writes_every_typed_field d st tr :
  typed d = true →
  forallb (λ kf, bool_decide (is_Some (json_dumps (value kf.2))))
          (fields_where (λ _, true) d) = true →
  _publish_fields true (mkProcess d (mkBroker true st) tr)
  = (Ok tt,
     mkProcess d
       (mkBroker true
          (foldl (λ st kf, <[kf.1 := default "" (json_dumps (value kf.2))]> st)
                 st (fields_where (λ _, true) d)))
       (tr ++ (push_event <$> fields_where (λ _, true) d))).
Proof.
  intros Hty Hser.
  rewrite <- !(fields_where_ext (λ f, is_output f || true) (λ _, true))
    by (intros ?; apply orb_true_r).
  apply _publish_fields_ok; [done|].
  by rewrite (fields_where_ext _ (λ _, true)) by (intros ?; apply orb_true_r).
Qed.

(** A push does not start when a field has no io type, or the io type
    [_NONE_TYPE]: the selection itself raises, whatever [force_all]. *)
Lemma _publish_fields_untyped (force_all : bool) (self : Process) :
  typed (__dict__ self) = false →
  ∃ e, _publish_fields force_all self = (Raise e, self).
Proof.
  intros Hty. unfold _publish_fields. unfold_M.
  pose proof (select_fields_untyped OUTPUT_BIT 2 force_all (__dict__ self)
                eq_refl) as Hsel.
  rewrite Hty in Hsel.
  destruct (select_fields OUTPUT_BIT force_all (__dict__ self)); [done|eauto].
Qed.



(** *** Invariants of the process object

    The keys of [__dict__] stay distinct and, once every field has an io
    type with an integer value, this stays so: no operation of the
    orchestrator changes an io type. *)

Lemma dict_set_keys_in k a d x :
  x ∈ (dict_set k a d).*1 → x = k ∨ x ∈ d.*1.
Proof.
  induction d as [|[k' a'] d IH]; cbn.
  - rewrite list_elem_of_singleton. auto.
  - case_decide as Hk; cbn; rewrite !elem_of_cons.
    + intros [->|Hin]; auto.
    + intros [->|Hin]; [auto|]. destruct (IH Hin); auto.
Qed.

Lemma dict_set_NoDup k a d : NoDup (d.*1) → NoDup ((dict_set k a d).*1).
Proof.
  induction d as [|[k' a'] d IH]; cbn.
  - intros _. apply list.NoDup_singleton.
  - rewrite list.NoDup_cons. intros [Hk' Hnd].
    case_decide as Hk; cbn; rewrite list.NoDup_cons.
    + by subst k'.
    + split; [|by apply IH].
      intros [->|Hin]%dict_set_keys_in; [done|by apply Hk'].
Qed.

Lemma dict_set_typed k f v d :
  dict_get k d = Some (AField f) →
  typed (dict_set k (AField (set_value v f)) d) = typed d.
Proof.
  unfold typed. induction d as [|[k' a'] d IH]; cbn; [done|].
  case_decide as Hk; cbn.
  - by intros [= ->].
  - intros Hget. by rewrite IH.
Qed.

Lemma stable_setattr (P : Process → Prop) k a :
  stable P (dict_store k a) → stable P (Process_setattr k a).
Proof.
  intros Hst. unfold Process_setattr.
  destruct (descriptor_error k); [apply stable_raise|done].
Qed.

Lemma stable_bound_method {A} (P : Process → Prop) name (m : M Process A) :
  stable P m → stable P (bound_method name m).
Proof.
  intros Hm. unfold bound_method.
  apply stable_bind; [apply stable_get_state|intros self].
  destruct (dict_get name (__dict__ self)); [apply stable_raise|done].
Qed.

Lemma keys_unique_store k a : stable keys_unique (dict_store k a).
Proof. apply stable_modify. intros self. apply dict_set_NoDup. Qed.

Lemma keys_unique_setattr k a : stable keys_unique (Process_setattr k a).
Proof. apply stable_setattr, keys_unique_store. Qed.

Lemma same_dict_stable {A} (P : Process → Prop) (m : M Process A) :
  (∀ self self', __dict__ self' = __dict__ self → P self → P self') →
  (∀ self r self', m self = (r, self') → __dict__ self' = __dict__ self) →
  stable P m.
Proof. intros HP Hm self r self' Hself Hrun. eapply HP; eauto. Qed.

Lemma broker_get_dict key self r self' :
  broker_get key self = (r, self') → __dict__ self' = __dict__ self.
Proof.
  unfold broker_get, log. unfold_M.
  destruct (reachable (_broker self)); by intros [= _ <-].
Qed.

Lemma broker_set_dict key payload self r self' :
  broker_set key payload self = (r, self') → __dict__ self' = __dict__ self.
Proof.
  unfold broker_set, log. unfold_M.
  destruct (reachable (_broker self)); by intros [= _ <-].
Qed.

Lemma push_body_dict item self r self' :
  push_body item self = (r, self') → __dict__ self' = __dict__ self.
Proof.
  destruct item as [k f]. unfold push_body, toJSON. unfold_M.
  destruct (json_dumps (value f)); [apply broker_set_dict|by intros [= _ <-]].
Qed.

Section Invariants.

Context (P : Process → Prop).
Hypothesis P_dict :
  ∀ self self', __dict__ self' = __dict__ self → P self → P self'.
Hypothesis P_fromJSON : ∀ key payload, stable P (fromJSON key payload).

Lemma stable_publish (force_all : bool) : stable P (_publish_fields force_all).
Proof using P_dict.
  unfold _publish_fields.
  apply stable_bind; [apply stable_get_state|intros self].
  apply stable_bind; [apply stable_lift_result|intros selected].
  apply stable_for_each. intros item.
  apply same_dict_stable; [done|apply push_body_dict].
Qed.

Lemma stable_retrieve : stable P _retrieve_fields.
Proof using P_dict P_fromJSON.
  unfold _retrieve_fields.
  apply stable_bind; [apply stable_get_state|intros self].
  apply stable_bind; [apply stable_lift_result|intros selected].
  apply stable_for_each. intros [k f]. unfold pull_body.
  apply stable_bind; [|intros val; apply P_fromJSON].
  apply same_dict_stable; [done|apply broker_get_dict].
Qed.

Lemma stable_process_iteration : stable P process_iteration.
Proof using P_dict P_fromJSON.
  unfold process_iteration.
  apply stable_bind; [apply stable_retrieve|intros _].
  apply stable_bind; [|intros _; apply stable_publish].
  apply stable_modify. intros self. by apply P_dict.
Qed.

Lemma stable_process n : stable P (process n).
Proof using P_dict P_fromJSON.
  induction n as [|n IH]; cbn [process]; [apply stable_ret|].
  apply stable_bind; [apply stable_process_iteration|by intros _].
Qed.

End Invariants.

Lemma keys_unique_fromJSON key payload :
  stable keys_unique (fromJSON key payload).
Proof.
  unfold fromJSON. apply stable_bind.
  - intros self r self' Hself. unfold Process_getattr.
    destruct (dict_get key (__dict__ self)); by intros [= _ <-].
  - intros [f|]; [|apply stable_raise].
    apply stable_bind; [apply stable_lift_result|intros v].
    apply keys_unique_store.
Qed.

Lemma all_typed_fromJSON key payload : stable all_typed (fromJSON key payload).
Proof.
  intros self r self' Hty. unfold fromJSON, Process_getattr, dict_store.
  unfold_M. destruct (dict_get key (__dict__ self)) as [[f|]|] eqn:Hget;
    try (by intros [= _ <-]).
  destruct (loads payload); intros [= _ <-]; [|done].
  unfold all_typed. cbn. by rewrite dict_set_typed.
Qed.

(** Every turn of the loop, completed or not, leaves the keys distinct and
    the fields typed: a steady state is followed by a steady state. *)
Lemma process_keeps_keys_unique n : stable keys_unique (process n).
Proof.
  apply stable_process; [|apply keys_unique_fromJSON].
  unfold keys_unique. by intros self self' ->.
Qed.

Lemma process_keeps_fields_typed n : stable all_typed (process n).
Proof.
  apply stable_process; [|apply all_typed_fromJSON].
  unfold all_typed. by intros self self' ->.
Qed.

(** Start-up builds a dictionary with distinct keys. *)
Lemma startup_keys_unique (broker : Broker) (data : Config) :
  stable keys_unique (Process__init__ broker data).
Proof.
  assert (∀ self self', __dict__ self' = __dict__ self →
                        keys_unique self → keys_unique self') as Hdict
    by (unfold keys_unique; by intros self self' ->).
  assert (stable keys_unique (_init_all_fields data)) as Hinit.
  { unfold _init_all_fields.
    apply stable_bind; [apply keys_unique_setattr|intros _].
    apply stable_bind;
      [|intros _; by apply stable_bound_method, stable_publish].
    apply stable_for_each. intros [key val]. unfold init_variable.
    apply stable_bind; [apply stable_lift_result|intros io_type].
    apply stable_bind; [apply stable_lift_result|intros [var_type v]].
    apply stable_bind; [apply stable_lift_result|intros var].
    apply keys_unique_setattr. }
  unfold Process__init__.
  apply stable_bind; [apply keys_unique_setattr|intros _].
  apply stable_bind; [|intros _].
  { apply stable_modify. intros self. by apply Hdict. }
  apply stable_bind; [by apply stable_bound_method|intros _].
  apply stable_bind; [apply keys_unique_setattr|intros _].
  apply stable_bind; [apply stable_bound_method, stable_ret|intros _].
  apply keys_unique_setattr.
Qed.

(** *** Membership facts *)

Lemma elem_of_fields_where (p : Field → bool) k f d :
  (k, f) ∈ fields_where p d ↔ (k, AField f) ∈ d ∧ p f = true.
Proof.
  induction d as [|[k' [f'|]] d IH].
  - cbn. split; [by intros ?%elem_of_nil|by intros [?%elem_of_nil _]].
  - rewrite fields_where_field, elem_of_cons.
    destruct (p f') eqn:Hp; rewrite ?elem_of_cons, IH.
    + split.
      * intros [[= -> ->]|[Hin Hpf]]; auto.
      * intros [[[= -> ->]|Hin] Hpf]; auto.
    + split.
      * intros [Hin Hpf]; auto.
      * intros [[[= -> ->]|Hin] Hpf]; [congruence|auto].
  - rewrite fields_where_other, elem_of_cons, IH. split.
    + intros [Hin Hpf]; auto.
    + intros [[[=]|Hin] Hpf]; auto.
Qed.



Lemma fields_where_keys_NoDup (p : Field → bool) d :
  NoDup (d.*1) → NoDup ((fields_where p d).*1).
Proof.
  induction d as [|[k [f|]] d IH]; [done| |].
  - rewrite fmap_cons, list.NoDup_cons. intros [Hk Hnd].
    rewrite fields_where_field. destruct (p f); [|by apply IH].
    rewrite fmap_cons, list.NoDup_cons. split; [|by apply IH].
    intros ([k' f'] & Heq & [Hin _]%elem_of_fields_where)%list_elem_of_fmap.
    cbn in Heq. subst k'. apply Hk, list_elem_of_fmap.
    by exists (k, AField f').
  - rewrite fmap_cons, list.NoDup_cons. intros [Hk Hnd].
    rewrite fields_where_other. by apply IH.
Qed.

Lemma foldl_insert_notin (g : string * Field → string)
    (sel : list (string * Field)) st k :
  k ∉ sel.*1 →
  foldl (λ st kf, <[kf.1 := g kf]> st) st sel !! k = st !! k.
Proof.
  revert st. induction sel as [|[k' f'] sel IH]; intros st; [done|].
  rewrite fmap_cons, not_elem_of_cons. intros [Hk Hsel]. cbn.
  rewrite IH by done. by apply lookup_insert_ne.
Qed.

Lemma foldl_insert_lookup (g : string * Field → string)
    (sel : list (string * Field)) st k f :
  NoDup (sel.*1) → (k, f) ∈ sel →
  foldl (λ st kf, <[kf.1 := g kf]> st) st sel !! k = Some (g (k, f)).
Proof.
  revert st. induction sel as [|[k' f'] sel IH]; intros st;
    [by intros _ ?%elem_of_nil|].
  rewrite fmap_cons, list.NoDup_cons, elem_of_cons.
  intros [Hk Hnd] [[= -> ->]|Hin]; cbn.
  - rewrite foldl_insert_notin by done. apply lookup_insert_eq.
  - by apply IH.
Qed.

(** *** The per-tick cycle *)


(** *** Synchronisation errors *)




(** *** Start-up *)

(** When [_init_all_fields] returns, every field has an io type with an
    integer value: otherwise the forced push has raised. *)
Lemma startup_leaves_typed_fields (data : Config) (self self' : Process) :
  _init_all_fields data self = (Ok tt, self') →
  typed (__dict__ self') = true.
Proof.
  unfold _init_all_fields. unfold_M.
  destruct (Process_setattr _ _ self) as [[[]|?] s1]; [|done].
  destruct (for_each _ _ s1) as [[[]|?] s2]; [|done].
  unfold bound_method. unfold_M.
  destruct (dict_get "_publish_fields" (__dict__ s2)); [done|].
  intros Hpub. destruct (typed (__dict__ s2)) eqn:Hty.
  - unfold _publish_fields in Hpub. unfold_M. cbn in Hpub.
    rewrite (select_fields_typed OUTPUT_BIT 2 true _ eq_refl Hty) in Hpub.
    cbn in Hpub.
    assert (∀ sel s s', for_each sel push_body s = (Ok tt, s') →
                        __dict__ s' = __dict__ s) as Hsame.
    { clear. induction sel as [|[k f] sel IH]; intros s s'.
      - by intros [= <-].
      - rewrite for_each_cons.
        unfold push_body at 1, toJSON, broker_set, log. unfold_M. cbn.
        destruct (json_dumps (value f)); cbn; [|done].
        destruct (reachable (_broker s)); cbn; [|done].
        intros Hrest. by rewrite (IH _ _ Hrest). }
    by rewrite (Hsame _ _ _ Hpub).
  - destruct (_publish_fields_untyped true s2 Hty) as [e He]. congruence.
Qed.

(** C8, the code at the failing input: with a variable that declares no
    [ioType] the field is built, with io type [None], and the forced push
    then raises [AttributeError] before anything is written; start-up does
    not complete. *)
Theorem forced_push_raises_without_ioType :
  let built :=
    [("_broker", AOther); ("_factor", AOther);
     ("HYDRO_LOCAL",
      AField (Field_init "HYDRO_LOCAL" None (PBool false) None))] in
  Process__init__ empty_broker config_without_ioType new_process
  = (Raise AttributeError, mkProcess built empty_broker [])
  ∧ _publish_fields true (mkProcess built empty_broker [])
    = (Raise AttributeError, mkProcess built empty_broker [])
  ∧ typed built = false.
Proof. cbv zeta. split_and!; reflexivity. Qed.

End Orchestrator.




(** ** Evaluation order of the registered processes *)

Import Scheduler.

Section EvaluationOrder.

Context {W V : Type}.
Implicit Types (env : Env W) (ps : list (Proc W)) (p : Proc W) (w : W)
  (g : Generator W) (F : W → V).

Lemma resume_proc_gen t p w : gen (resume_proc t p w).1 = gen p.
Proof.
  unfold resume_proc. destruct (wake p <=? t); [|done].
  by destruct (resume (gen p) (resumed p) w).
Qed.

Lemma resume_proc_due t p w :
  wake p ≤ t →
  resume_proc t p w
  = (mkProc (gen p) (S (resumed p)) (t + (resume (gen p) (resumed p) w).2),
     (resume (gen p) (resumed p) w).1).
Proof.
  intros Hdue. unfold resume_proc.
  rewrite (proj2 (Nat.leb_le _ _) Hdue).
  by destruct (resume (gen p) (resumed p) w).
Qed.

Lemma resume_proc_preserves F t p w :
  preserves F (gen p) → F (resume_proc t p w).2 = F w.
Proof.
  intros Hp. unfold resume_proc. destruct (wake p <=? t); [|done].
  specialize (Hp (resumed p) w).
  by destruct (resume (gen p) (resumed p) w).
Qed.

Lemma resume_all_cons t p ps w :
  resume_all t (p :: ps) w
  = ((resume_proc t p w).1 :: (resume_all t ps (resume_proc t p w).2).1,
     (resume_all t ps (resume_proc t p w).2).2).
Proof.
  cbn [resume_all]. destruct (resume_proc t p w) as [p' w']. cbn [fst snd].
  by destruct (resume_all t ps w').
Qed.

Lemma resume_all_app t ps1 ps2 w :
  resume_all t (ps1 ++ ps2) w
  = ((resume_all t ps1 w).1 ++ (resume_all t ps2 (resume_all t ps1 w).2).1,
     (resume_all t ps2 (resume_all t ps1 w).2).2).
Proof.
  revert w. induction ps1 as [|p ps1 IH]; intros w.
  - cbn. by destruct (resume_all t ps2 w).
  - rewrite <- app_comm_cons, !resume_all_cons, IH. done.
Qed.

Lemma resume_all_gens t ps w : gen <$> (resume_all t ps w).1 = gen <$> ps.
Proof.
  revert w. induction ps as [|p ps IH]; intros w; [done|].
  rewrite resume_all_cons. cbn. by rewrite resume_proc_gen, IH.
Qed.

Lemma resume_all_preserves F t ps w :
  Forall (λ p, preserves F (gen p)) ps → F (resume_all t ps w).2 = F w.
Proof.
  intros Hall. revert w. induction Hall as [|p ps Hp _ IH]; intros w; [done|].
  rewrite resume_all_cons. cbn. by rewrite IH, resume_proc_preserves.
Qed.

Lemma resume_all_lookup t ps w i p :
  ps !! i = Some p →
  (resume_all t ps w).1 !! i
  = Some (resume_proc t p (resume_all t (take i ps) w).2).1.
Proof.
  revert w i. induction ps as [|q ps IH]; intros w i; [done|].
  rewrite resume_all_cons. destruct i as [|i].
  - by intros [= ->].
  - intros Hi. cbn [lookup list_lookup fst]. cbn in Hi.
    change (take (S i) (q :: ps)) with (q :: take i ps).
    rewrite resume_all_cons. cbn [snd]. by apply IH.
Qed.

Lemma resume_all_take_S t ps w i p :
  ps !! i = Some p →
  (resume_all t (take (S i) ps) w).2
  = (resume_proc t p (resume_all t (take i ps) w).2).2.
Proof.
  intros Hi. rewrite (take_S_r _ _ _ Hi), resume_all_app. cbn.
  by destruct (resume_proc t p _).
Qed.

Lemma tick_procs env :
  procs (tick env) = (resume_all (now env) (procs env) (world env)).1.
Proof.
  unfold tick. by destruct (resume_all (now env) (procs env) (world env)).
Qed.

Lemma tick_world env :
  world (tick env) = (resume_all (now env) (procs env) (world env)).2.
Proof.
  unfold tick. by destruct (resume_all (now env) (procs env) (world env)).
Qed.

Lemma tick_now env : now (tick env) = S (now env).
Proof.
  unfold tick. by destruct (resume_all (now env) (procs env) (world env)).
Qed.

Lemma run_S n env : run (S n) env = tick (run n env).
Proof. reflexivity. Qed.

Lemma run_gens n env : gen <$> procs (run n env) = gen <$> procs env.
Proof.
  induction n as [|n IH]; [done|].
  by rewrite run_S, tick_procs, resume_all_gens.
Qed.

(** Constructing a component registers its process, last. *)
Lemma Component__init__registers (upd : W → W) (updateTick : nat) env :
  procs (Component__init__ upd updateTick env).2
  = procs env ++ [mkProc (Component_process (mkComponent upd updateTick)) 0
                         (now env)]
  ∧ world (Component__init__ upd updateTick env).2 = world env
  ∧ UPDATE_TICK (Component__init__default upd env).1 = 1.
Proof. done. Qed.

Lemma register_cons g (gens : list (Generator W)) env :
  register (g :: gens) env = register gens (env_process g env).
Proof. reflexivity. Qed.

Lemma register_procs (gens : list (Generator W)) env :
  procs (register gens env)
  = procs env ++ ((λ g, mkProc g 0 (now env)) <$> gens).
Proof.
  revert env. induction gens as [|g gens IH]; intros env.
  - cbn. by rewrite app_nil_r.
  - rewrite register_cons, IH. cbn. by rewrite <- app_assoc.
Qed.

Lemma register_now (gens : list (Generator W)) env :
  now (register gens env) = now env.
Proof.
  revert env. induction gens as [|g gens IH]; intros env; [done|].
  by rewrite register_cons, IH.
Qed.

Lemma register_world (gens : list (Generator W)) env :
  world (register gens env) = world env.
Proof.
  revert env. induction gens as [|g gens IH]; intros env; [done|].
  by rewrite register_cons, IH.
Qed.

(** A process that always asks for a delay of at most one tick is due at
    every tick. *)
Lemma run_due g i n env :
  (∀ k w, (resume g k w).2 ≤ 1) →
  (∃ p, procs env !! i = Some p ∧ gen p = g ∧ wake p ≤ now env) →
  ∃ p, procs (run n env) !! i = Some p ∧ gen p = g
       ∧ wake p ≤ now (run n env).
Proof.
  intros Hdelay Hinit. induction n as [|n (p & Hp & Hg & Hdue)]; [done|].
  rewrite run_S, tick_procs, tick_now.
  rewrite (resume_all_lookup _ _ _ _ _ Hp).
  eexists. split; [done|]. rewrite resume_proc_gen. split; [done|].
  rewrite resume_proc_due by done. cbn.
  rewrite Hg. specialize (Hdelay (resumed p)
    (resume_all (now (run n env)) (take i (procs (run n env)))
                (world (run n env))).2).
  lia.
Qed.

Lemma preserves_below F ps i n :
  (∀ k p, ps !! k = Some p → k ≠ i → preserves F (gen p)) →
  n ≤ i →
  Forall (λ p, preserves F (gen p)) (take n ps).
Proof.
  intros Hps Hn. apply Forall_lookup. intros k p Hk.
  apply lookup_take_Some in Hk as [Hk Hlt]. apply (Hps k p Hk). lia.
Qed.

Lemma preserves_above F ps i n :
  (∀ k p, ps !! k = Some p → k ≠ i → preserves F (gen p)) →
  i < n →
  Forall (λ p, preserves F (gen p)) (drop n ps).
Proof.
  intros Hps Hn. apply Forall_lookup. intros k p Hk.
  rewrite lookup_drop in Hk. apply (Hps _ p Hk). lia.
Qed.

(** After the process at [i], and up to any later position of the same
    tick, [F] reads what that process left. *)
Lemma frame_same_tick F t ps w i j :
  (∀ k p, ps !! k = Some p → k ≠ i → preserves F (gen p)) →
  i < j →
  F (resume_all t (take j ps) w).2 = F (resume_all t (take (S i) ps) w).2.
Proof.
  intros Hps Hij.
  rewrite <- (take_drop (S i) (take j ps)), resume_all_app. cbn [snd].
  rewrite take_take, Nat.min_l by lia.
  apply resume_all_preserves, Forall_lookup. intros k p Hk.
  rewrite lookup_drop in Hk. apply lookup_take_Some in Hk as [Hk _].
  apply (Hps _ p Hk). lia.
Qed.

(** C1: processes registered in the order of [gens], among them the
    components [X] at position [i] and [Y] at position [j], both with the
    default update period of one tick, [X] being the only process that
    changes what [F] reads (the field [X] owns).  At every tick [t] both
    update steps run, each on the world left by the processes registered
    before it.  If [X] is registered before [Y], the world [Y] updates in
    holds for [F] the value [X] has just written in the same tick; if [X] is
    registered after [Y], it holds the value [X] wrote in the previous tick
    (the initial value at the first tick).  What is observed is a function
    of the registration list and of the initial world alone. *)
Theorem evaluation_order (gens : list (Generator W)) (w0 : W)
    (X Y : Component W) F (i j : nat) :
  gens !! i = Some (Component_process X) →
  gens !! j = Some (Component_process Y) →
  UPDATE_TICK X = 1 →
  UPDATE_TICK Y = 1 →
  (∀ k g, gens !! k = Some g → k ≠ i → preserves F g) →
  let env := register gens (new_env w0) in
  ∀ t,
    world_after env t i = update X (world_before env t i)
    ∧ world_after env t j = update Y (world_before env t j)
    ∧ (i < j →
         F (world_before env t j) = F (update X (world_before env t i)))
    ∧ (j < i →
         F (world_before env (S t) j) = F (update X (world_before env t i))
         ∧ F (world_before env 0 j) = F w0).
Proof.
  intros HX HY HtX HtY Hown env t.
  assert (∀ n, gen <$> procs (run n env) = gens) as Hgens.
  { intros n. rewrite run_gens. subst env. rewrite register_procs. cbn.
    rewrite <- list_fmap_compose. apply list_fmap_id. }
  assert (∀ n k p, procs (run n env) !! k = Some p → gens !! k = Some (gen p))
    as Hgen.
  { intros n k p Hk. rewrite <- (Hgens n), list_lookup_fmap, Hk. done. }
  assert (∀ n k p, procs (run n env) !! k = Some p → k ≠ i →
                   preserves F (gen p)) as Hframe.
  { intros n k p Hk Hne. apply (Hown k); [by apply (Hgen n)|done]. }
  assert (∀ (C : Component W) k n,
            gens !! k = Some (Component_process C) → UPDATE_TICK C = 1 →
            world_after env n k = update C (world_before env n k)) as Hstep.
  { intros C k n HC HtC.
    destruct (run_due (Component_process C) k n env) as (p & Hp & Hg & Hdue).
    - intros ? ?. cbn. lia.
    - subst env. rewrite register_procs, register_now. cbn.
      rewrite list_lookup_fmap, HC. cbn. eauto.
    - unfold world_after, world_before. cbn zeta.
      rewrite (resume_all_take_S _ _ _ _ _ Hp), resume_proc_due by done.
      cbn. by rewrite Hg. }
  assert (world_after env t i = update X (world_before env t i)) as HXt
    by (by apply Hstep).
  split_and!.
  - done.
  - by apply Hstep.
  - intros Hij. rewrite <- HXt. unfold world_after, world_before. cbn zeta.
    apply frame_same_tick; [apply (Hframe t)|done].
  - intros Hji. split.
    + rewrite <- HXt. unfold world_after, world_before. cbn zeta.
      rewrite run_S, tick_now, tick_world.
      rewrite (resume_all_preserves F)
        by (apply (preserves_below F _ i); [|lia];
            rewrite <- run_S; apply (Hframe (S t))).
      rewrite <- (take_drop (S i) (procs (run t env))) at 1.
      rewrite resume_all_app. cbn [snd].
      apply resume_all_preserves, (preserves_above F _ i); [|lia].
      apply (Hframe t).
    + unfold world_before. cbn zeta.
      rewrite (resume_all_preserves F)
        by (apply (preserves_below F _ i); [apply (Hframe 0)|lia]).
      subst env. cbn. by rewrite register_world.
Qed.

End EvaluationOrder.

(** C1, on an example: a producer increments a shared field and a consumer
    copies it.  With the producer registered first the consumer sees, at
    every tick, the value just written; the theorem applies with the
    producer at position 0 and the consumer at position 1. *)
Lemma evaluation_order_witness :
  let gens := [Component_process producer; Component_process consumer] in
  let F := λ h : heap, value (h ref_a) in
  gens !! 0 = Some (Component_process producer)
  ∧ gens !! 1 = Some (Component_process consumer)
  ∧ UPDATE_TICK producer = 1
  ∧ UPDATE_TICK consumer = 1
  ∧ (0 < 1 →
       F (world_before (register gens (new_env counter_heap)) 2 1)
       = F (update producer
              (world_before (register gens (new_env counter_heap)) 2 0))).
Proof.
  intros gens F.
  assert (∀ k g, gens !! k = Some g → k ≠ 0 → preserves F g) as Hown.
  { intros [|[|k]] g Hk Hne; [done| |done].
    injection Hk as <-. intros n h. subst F. cbn.
    by rewrite write_value_other. }
  do 4 (split; [reflexivity|]).
  destruct (evaluation_order gens counter_heap producer consumer F 0 1
              eq_refl eq_refl eq_refl eq_refl Hown 2) as (_ & _ & Hlt & _).
  exact Hlt.
Defined.

(** The two registration orders, run for three ticks from a counter at 0:
    registered after the producer, the consumer has copied the value of the
    third increment; registered before it, that of the second. *)
Example consumer_registered_second :
  let env := register [Component_process producer; Component_process consumer]
                      (new_env counter_heap) in
  value (world (run 3 env) ref_a) = PNum (num 3)
  ∧ value (world (run 3 env) ref_b) = PNum (num 3).
Proof. split; compute_done. Qed.

Example consumer_registered_first :
  let env := register [Component_process consumer; Component_process producer]
                      (new_env counter_heap) in
  value (world (run 3 env) ref_a) = PNum (num 3)
  ∧ value (world (run 3 env) ref_b) = PNum (num 2).
Proof. split; compute_done. Qed.

(** * The hydro components *)

Section RunningOnTheHeap.
Import Variables PyNum.

Lemma bind_run {S A B} (m : M S A) (k : A → M S B) s a s' :
  m s = (Ok a, s') → (x ← m; k x) s = k a s'.
Proof. intros E. unfold_M. by rewrite E. Qed.

Lemma bind_raise {S A B} (m : M S A) (k : A → M S B) s e s' :
  m s = (Raise e, s') → (x ← m; k x) s = (Raise e, s').
Proof. intros E. unfold_M. by rewrite E. Qed.

Lemma field_get_run l h : field_get l h = (Ok (value (h l)), h).
Proof. done. Qed.

Lemma field_set_run l v h : field_set l v h = (Ok tt, write_value l v h).
Proof. done. Qed.

Lemma field_num_run l h q :
  to_num (value (h l)) = Ok q → field_num l h = (Ok q, h).
Proof. intros E. unfold field_num, field_get. unfold_M. by rewrite E. Qed.

Lemma field_num_raise l h e :
  to_num (value (h l)) = Raise e → field_num l h = (Raise e, h).
Proof. intros E. unfold field_num, field_get. unfold_M. by rewrite E. Qed.

Lemma to_num_raise v e : to_num v = Raise e → e = TypeError.
Proof. destruct v as [|[]| | | |]; cbn; congruence. Qed.

Lemma value_write_other h l l' v :
  l' ≠ l → value (write_value l v h l') = value (h l').
Proof. intros. by rewrite write_value_other. Qed.

Lemma py_min_le_l a b : (py_min a b ≤ a)%Qc.
Proof.
  unfold py_min. case_decide; [by apply Qclt_le_weak|apply Qcle_refl].
Qed.

Lemma py_min_le_r a b : (py_min a b ≤ b)%Qc.
Proof.
  unfold py_min. case_decide; [apply Qcle_refl|by apply Qcnot_lt_le].
Qed.

Lemma py_max_ge_l a b : (a ≤ py_max a b)%Qc.
Proof.
  unfold py_max. case_decide; [by apply Qclt_le_weak|apply Qcle_refl].
Qed.

Lemma py_max_ge_r a b : (b ≤ py_max a b)%Qc.
Proof.
  unfold py_max. case_decide; [apply Qcle_refl|by apply Qcnot_lt_le].
Qed.

End RunningOnTheHeap.

(** Linear arithmetic on [Qc], through [Q]. *)
Lemma Qc_eq_Qeq (a b : Qc) : a = b ↔ (a == b)%Q.
Proof. split; [by intros ->|apply Qc_is_canon]. Qed.

Ltac qc_lra :=
  repeat match goal with
         | H : ¬ (_ < _)%Qc |- _ => apply Qcnot_lt_le in H
         | H : ¬ (_ ≤ _)%Qc |- _ => apply Qcnot_le_lt in H
         | H : @eq Qc _ _ |- _ => apply Qc_eq_Qeq in H
         | |- @eq Qc _ _ => apply Qc_eq_Qeq
         end;
  unfold Qcle, Qclt, Qcminus, Qcdiv, Qcplus, Qcmult, Qcopp, Qcinv, num, Q2Qc
    in *;
  cbn [this] in *;
  rewrite ?Qred_correct in *;
  unfold inject_Z in *;
  cbn [Qinv Qnum Qden] in *;
  lra.

Ltac qc_nra :=
  repeat match goal with
         | H : ¬ (_ < _)%Qc |- _ => apply Qcnot_lt_le in H
         | H : ¬ (_ ≤ _)%Qc |- _ => apply Qcnot_le_lt in H
         | H : @eq Qc _ _ |- _ => apply Qc_eq_Qeq in H
         | |- @eq Qc _ _ => apply Qc_eq_Qeq
         end;
  unfold Qcle, Qclt, Qcminus, Qcdiv, Qcplus, Qcmult, Qcopp, Qcinv, num, Q2Qc
    in *;
  cbn [this] in *;
  rewrite ?Qred_correct in *;
  unfold inject_Z in *;
  cbn [Qinv Qnum Qden] in *;
  nra.

(** Equations of the field [Qc], through [Q]. *)
Ltac qc_field :=
  apply Qc_is_canon;
  unfold Qcminus, Qcdiv, Qcplus, Qcmult, Qcopp, Qcinv, num, Q2Qc;
  cbn [this]; rewrite ?Qred_correct; unfold inject_Z; field.

(** Stepping through a computation on the heap. *)
Ltac heap_simpl :=
  repeat first
    [ rewrite write_value_same
    | rewrite value_write_other by done
    | rewrite write_value_other by done ].

Ltac not_written :=
  repeat (apply not_elem_of_cons; split; [done|]); apply not_elem_of_nil.

Ltac run_heap :=
  unfold PyNum.field_num, PyNum.field_get, PyNum.field_set; unfold_M; cbn.

(** The pairwise disequalities of a duplicate-free list of references. *)
Ltac split_NoDup H :=
  repeat (apply list.NoDup_cons in H as [? H]);
  clear H;
  repeat match goal with
         | H' : _ ∉ _ :: _ |- _ => apply not_elem_of_cons in H' as [? H']
         | H' : _ ∉ [] |- _ => clear H'
         end.

Lemma num_of_nat_nonneg (n : nat) : (Q2Qc 0 ≤ num (Z.of_nat n))%Qc.
Proof.
  unfold Qcle, num, Q2Qc. cbn [this]. rewrite !Qred_correct.
  unfold inject_Z, Qle. cbn [Qnum Qden]. lia.
Qed.

Lemma num_succ (n : nat) :
  num (Z.of_nat (S n)) = (num (Z.of_nat n) + Q2Qc 1)%Qc.
Proof.
  apply Qc_is_canon. unfold num, Qcplus, Q2Qc. cbn [this].
  rewrite !Qred_correct, Nat2Z.inj_succ, <- Z.add_1_r, inject_Z_plus.
  reflexivity.
Qed.

Section HydraulicCentralProperties.
Import Variables PyNum Objects HydraulicCentral.

Variable self : HydraulicCentral.
Local Abbreviation cmd := (HYDRO_CMD_PO_HUILE (_oilPump self)).
Local Abbreviation rm := (HYDRO_RM_PO_HUILE (_oilPump self)).
Local Abbreviation tt_huile := (HYDRO_TT_HUILE (_oilTemperature self)).

(** One update on a numeric oil temperature. *)
Lemma hydraulic_update_step h t :
  rm ≠ tt_huile →
  to_num (value (h tt_huile)) = Ok t →
  ∃ h' t',
    update_step self h = (Ok tt, h') ∧
    value (h' tt_huile) = PNum t' ∧
    (MIN_OIL_TEMPERATURE ≤ t' ≤ MAX_OIL_TEMPERATURE)%Qc ∧
    (py_truthy (value (h rm)) = true →
     (t + Q2Qc 1 ≤ MAX_OIL_TEMPERATURE → MIN_OIL_TEMPERATURE ≤ t + Q2Qc 1 →
      t' = t + Q2Qc 1) ∧
     (MAX_OIL_TEMPERATURE ≤ t + Q2Qc 1 → t' = MAX_OIL_TEMPERATURE))%Qc ∧
    (py_truthy (value (h rm)) = false →
     (MIN_OIL_TEMPERATURE ≤ t - Q2Qc 1 → t - Q2Qc 1 ≤ MAX_OIL_TEMPERATURE →
      t' = t - Q2Qc 1) ∧
     (t - Q2Qc 1 ≤ MIN_OIL_TEMPERATURE → t' = MIN_OIL_TEMPERATURE))%Qc ∧
    (cmd ≠ tt_huile → value (h' rm) = value (h cmd)) ∧
    (∀ l, l ≠ rm → l ≠ tt_huile → h' l = h l).
Proof.
  intros Hne Ht.
  unfold update_step, _update_oil_temperature, _update_oil_pump.
  run_heap. rewrite Ht. cbn.
  eexists _, _. split; [done|]. heap_simpl. split; [done|].
  unfold MIN_OIL_TEMPERATURE, MAX_OIL_TEMPERATURE.
  split_and!.
  - destruct (py_truthy _); repeat case_decide; qc_lra.
  - destruct (py_truthy _); repeat case_decide; qc_lra.
  - intros ->. split; intros; repeat case_decide; qc_lra.
  - intros ->. split; intros; repeat case_decide; qc_lra.
  - intros. by heap_simpl.
  - intros. by heap_simpl.
Qed.

Lemma hydraulic_process_S n h :
  process self (S n) h =
  match update_step self h with
  | (Ok _, h') => process self n h'
  | (Raise e, h') => (Raise e, h')
  end.
Proof. cbn [process]. unfold_M. by destruct (update_step self h) as [[[]|] ?]. Qed.

(** X1: started on an oil temperature that is an [int], a [bool] or a
    finite float (an exact rational here; a float NaN is none: it is
    neither above the upper limit nor below the lower one, and the clamp
    would write it back), whatever it is and whatever the command and the
    feedback hold, the hydraulic central never raises, and after every
    update the oil temperature is a number between [MIN_OIL_TEMPERATURE]
    and [MAX_OIL_TEMPERATURE]. *)
Theorem oil_temperature_stays_in_range n h t :
  rm ≠ tt_huile →
  to_num (value (h tt_huile)) = Ok t →
  ∃ h' t',
    process self (S n) h = (Ok tt, h') ∧
    value (h' tt_huile) = PNum t' ∧
    (MIN_OIL_TEMPERATURE ≤ t' ≤ MAX_OIL_TEMPERATURE)%Qc.
Proof.
  intros Hne. revert h t. induction n as [|n IH]; intros h t Ht.
  - destruct (hydraulic_update_step h t Hne Ht)
      as (h' & t' & Hrun & Hv & Hrange & _).
    exists h', t'. rewrite hydraulic_process_S, Hrun. done.
  - destruct (hydraulic_update_step h t Hne Ht)
      as (h1 & t1 & Hrun & Hv & _).
    rewrite hydraulic_process_S, Hrun.
    apply (IH h1 t1). by rewrite Hv.
Qed.

(** X2: while the command and the feedback of the oil pump are both on,
    the oil temperature rises by one degree per update up to
    [MAX_OIL_TEMPERATURE] and stays there; while both are off it falls by one
    degree per update down to [MIN_OIL_TEMPERATURE] and stays there. *)
Theorem oil_temperature_ramp (running : bool) n h t :
  cmd ≠ tt_huile → rm ≠ tt_huile →
  py_truthy (value (h cmd)) = running →
  py_truthy (value (h rm)) = running →
  to_num (value (h tt_huile)) = Ok t →
  (MIN_OIL_TEMPERATURE ≤ t ≤ MAX_OIL_TEMPERATURE)%Qc →
  ∃ h' t',
    process self n h = (Ok tt, h') ∧
    to_num (value (h' tt_huile)) = Ok t' ∧
    (if running then
       (t + num (Z.of_nat n) ≤ MAX_OIL_TEMPERATURE →
        t' = t + num (Z.of_nat n)) ∧
       (MAX_OIL_TEMPERATURE ≤ t + num (Z.of_nat n) →
        t' = MAX_OIL_TEMPERATURE)
     else
       (MIN_OIL_TEMPERATURE ≤ t - num (Z.of_nat n) →
        t' = t - num (Z.of_nat n)) ∧
       (t - num (Z.of_nat n) ≤ MIN_OIL_TEMPERATURE →
        t' = MIN_OIL_TEMPERATURE))%Qc.
Proof.
  intros Hc Hr. revert h t. induction n as [|n IH]; intros h t Hcmd Hrm Ht Hrange.
  - exists h, t. split; [done|]. split; [done|].
    revert Hrange. unfold MIN_OIL_TEMPERATURE, MAX_OIL_TEMPERATURE.
    change (Z.of_nat 0) with 0%Z. intros [??].
    destruct running; split; intros; qc_lra.
  - destruct (hydraulic_update_step h t Hr Ht)
      as (h1 & t1 & Hrun & Hv & Hrange1 & Hon & Hoff & Hfb & Hframe).
    rewrite hydraulic_process_S, Hrun.
    assert (value (h1 cmd) = value (h cmd)) as Hcmd1.
    { destruct (decide (cmd = rm)) as [E|E].
      - rewrite E at 1. by apply Hfb.
      - by rewrite Hframe. }
    destruct (IH h1 t1) as (h' & t' & Hrun' & Hv' & Hres).
    { by rewrite Hcmd1. }
    { by rewrite Hfb. }
    { by rewrite Hv. }
    { done. }
    exists h', t'. split; [done|]. split; [done|].
    clear IH. rewrite num_succ.
    revert Hrange Hrange1 Hon Hoff Hres.
    unfold MIN_OIL_TEMPERATURE, MAX_OIL_TEMPERATURE.
    intros [??] [??] Hon Hoff Hres.
    destruct running.
    + destruct (Hon Hrm) as [Ha Hb], Hres as [Hc' Hd].
      assert (0 ≤ num (Z.of_nat n))%Qc as Hn.
      { apply num_of_nat_nonneg. }
      generalize dependent (num (Z.of_nat n)). intros k Hc' Hd Hn.
      destruct (decide (t + Q2Qc 1 ≤ num 70)%Qc) as [Hle|Hgt].
      * assert (t1 = t + Q2Qc 1)%Qc as -> by (apply Ha; qc_lra).
        split; intros.
        -- rewrite Hc' by qc_lra. qc_lra.
        -- apply Hd. qc_lra.
      * assert (t1 = num 70) as -> by (apply Hb; qc_lra).
        split; intros.
        -- qc_lra.
        -- apply Hd. qc_lra.
    + destruct (Hoff Hrm) as [Ha Hb], Hres as [Hc' Hd].
      assert (0 ≤ num (Z.of_nat n))%Qc as Hn.
      { apply num_of_nat_nonneg. }
      generalize dependent (num (Z.of_nat n)). intros k Hc' Hd Hn.
      destruct (decide (num 20 ≤ t - Q2Qc 1)%Qc) as [Hle|Hgt].
      * assert (t1 = t - Q2Qc 1)%Qc as -> by (apply Ha; qc_lra).
        split; intros.
        -- rewrite Hc' by qc_lra. qc_lra.
        -- apply Hd. qc_lra.
      * assert (t1 = num 20) as -> by (apply Hb; qc_lra).
        split; intros.
        -- qc_lra.
        -- apply Hd. qc_lra.
Qed.

(** X3: the feedback of the oil pump takes the command one update late,
    and the temperature follows the feedback.  With the oil temperature
    within its range, the update that finds the command on and the feedback
    still off treats the pump as stopped: the oil cools by one degree, though
    not below [MIN_OIL_TEMPERATURE] (oil at the lower limit, as at the start
    of the plant, stays there), and the feedback is switched on; only the
    next update heats the oil, by one degree. *)
Theorem oil_pump_command_acts_one_update_late h t :
  cmd ≠ tt_huile → rm ≠ tt_huile →
  py_truthy (value (h cmd)) = true →
  py_truthy (value (h rm)) = false →
  to_num (value (h tt_huile)) = Ok t →
  (MIN_OIL_TEMPERATURE ≤ t ≤ MAX_OIL_TEMPERATURE)%Qc →
  ∃ h1 h2 t1,
    update_step self h = (Ok tt, h1) ∧
    value (h1 tt_huile) = PNum t1 ∧
    (MIN_OIL_TEMPERATURE + Q2Qc 1 ≤ t → t1 = t - Q2Qc 1)%Qc ∧
    (t ≤ MIN_OIL_TEMPERATURE + Q2Qc 1 → t1 = MIN_OIL_TEMPERATURE)%Qc ∧
    py_truthy (value (h1 rm)) = true ∧
    update_step self h1 = (Ok tt, h2) ∧
    value (h2 tt_huile) = PNum (t1 + Q2Qc 1)%Qc.
Proof.
  intros Hc Hr Hcmd Hrm Ht Hrange.
  destruct (hydraulic_update_step h t Hr Ht)
    as (h1 & t1 & Hrun & Hv & Hrange1 & _ & Hoff & Hfb & _).
  destruct (Hoff Hrm) as [Ha Hb].
  assert (to_num (value (h1 tt_huile)) = Ok t1) as Ht1 by by rewrite Hv.
  destruct (hydraulic_update_step h1 _ Hr Ht1)
    as (h2 & t2 & Hrun2 & Hv2 & _ & Hon & _).
  destruct Hon as [Hup _]; [by rewrite Hfb|].
  revert Hrange Hrange1 Ha Hb Hup.
  unfold MIN_OIL_TEMPERATURE, MAX_OIL_TEMPERATURE.
  intros [Hlo Hhi] [Hlo1 Hhi1] Ha Hb Hup.
  assert (t1 + Q2Qc 1 ≤ num 70)%Qc as Hroom.
  { destruct (decide (num 20 + Q2Qc 1 ≤ t)%Qc) as [Hle|Hgt].
    - rewrite Ha; qc_lra.
    - rewrite Hb; qc_lra. }
  assert (t2 = t1 + Q2Qc 1)%Qc as -> by (apply Hup; qc_lra).
  exists h1, h2, t1. rewrite Hfb by done. split_and!; try done.
  - intros. apply Ha; qc_lra.
  - intros. apply Hb; qc_lra.
Qed.

(** On an oil temperature that is not a number the update raises
    [TypeError] before anything is written. *)
Lemma oil_temperature_not_a_number h e :
  to_num (value (h tt_huile)) = Raise e →
  update_step self h = (Raise TypeError, h).
Proof.
  intros Ht. rewrite (to_num_raise _ _ Ht) in Ht.
  unfold update_step, _update_oil_temperature. run_heap. by rewrite Ht.
Qed.

End HydraulicCentralProperties.

Lemma oil_temperature_stays_in_range_witness :
  2%positive ≠ 3%positive
  ∧ PyNum.to_num (Variables.value (HydraulicCentral.overheated 3%positive))
    = Ok (num 95)
  ∧ ∃ h' t',
      HydraulicCentral.process HydraulicCentral.example_central 3
        HydraulicCentral.overheated = (Ok tt, h') ∧
      Variables.value (h' 3%positive) = Variables.PNum t' ∧
      (HydraulicCentral.MIN_OIL_TEMPERATURE ≤ t'
       ≤ HydraulicCentral.MAX_OIL_TEMPERATURE)%Qc.
Proof.
  assert (2%positive ≠ 3%positive) as Hne by discriminate.
  split; [exact Hne|]. split; [reflexivity|].
  apply (oil_temperature_stays_in_range HydraulicCentral.example_central 2
           HydraulicCentral.overheated (num 95) Hne).
  reflexivity.
Defined.

Lemma oil_temperature_ramp_witness :
  (HydraulicCentral.MIN_OIL_TEMPERATURE ≤ num 40
   ≤ HydraulicCentral.MAX_OIL_TEMPERATURE)%Qc
  ∧ ∃ h' t',
      HydraulicCentral.process HydraulicCentral.example_central 50
        HydraulicCentral.heating = (Ok tt, h') ∧
      PyNum.to_num (Variables.value (h' 3%positive)) = Ok t' ∧
      ((num 40 + num (Z.of_nat 50) ≤ HydraulicCentral.MAX_OIL_TEMPERATURE →
        t' = num 40 + num (Z.of_nat 50)) ∧
       (HydraulicCentral.MAX_OIL_TEMPERATURE ≤ num 40 + num (Z.of_nat 50) →
        t' = HydraulicCentral.MAX_OIL_TEMPERATURE))%Qc.
Proof.
  assert (HydraulicCentral.MIN_OIL_TEMPERATURE ≤ num 40
          ≤ HydraulicCentral.MAX_OIL_TEMPERATURE)%Qc as Hrange by done.
  split; [exact Hrange|].
  apply (oil_temperature_ramp HydraulicCentral.example_central true 50
           HydraulicCentral.heating (num 40));
    [discriminate|discriminate|reflexivity|reflexivity|reflexivity
    |exact Hrange].
Defined.

Lemma oil_pump_command_acts_one_update_late_witness :
  Variables.py_truthy
    (Variables.value (HydraulicCentral.switched_on 1%positive)) = true
  ∧ Variables.py_truthy
      (Variables.value (HydraulicCentral.switched_on 2%positive)) = false
  ∧ (HydraulicCentral.MIN_OIL_TEMPERATURE
     ≤ HydraulicCentral.INITIAL_OIL_TEMPERATURE
     ≤ HydraulicCentral.MAX_OIL_TEMPERATURE)%Qc
  ∧ ∃ h1 h2 t1,
      HydraulicCentral.update_step HydraulicCentral.example_central
        HydraulicCentral.switched_on = (Ok tt, h1) ∧
      Variables.value (h1 3%positive) = Variables.PNum t1 ∧
      (HydraulicCentral.MIN_OIL_TEMPERATURE + Q2Qc 1
       ≤ HydraulicCentral.INITIAL_OIL_TEMPERATURE →
       t1 = HydraulicCentral.INITIAL_OIL_TEMPERATURE - Q2Qc 1)%Qc ∧
      (HydraulicCentral.INITIAL_OIL_TEMPERATURE
       ≤ HydraulicCentral.MIN_OIL_TEMPERATURE + Q2Qc 1 →
       t1 = HydraulicCentral.MIN_OIL_TEMPERATURE)%Qc ∧
      Variables.py_truthy (Variables.value (h1 2%positive)) = true ∧
      HydraulicCentral.update_step HydraulicCentral.example_central h1
      = (Ok tt, h2) ∧
      Variables.value (h2 3%positive) = Variables.PNum (t1 + Q2Qc 1)%Qc.
Proof.
  assert (HydraulicCentral.MIN_OIL_TEMPERATURE
          ≤ HydraulicCentral.INITIAL_OIL_TEMPERATURE
          ≤ HydraulicCentral.MAX_OIL_TEMPERATURE)%Qc as Hrange by done.
  split; [reflexivity|]. split; [reflexivity|]. split; [exact Hrange|].
  apply (oil_pump_command_acts_one_update_late
           HydraulicCentral.example_central HydraulicCentral.switched_on
           HydraulicCentral.INITIAL_OIL_TEMPERATURE);
    [discriminate|discriminate|reflexivity|reflexivity|reflexivity
    |exact Hrange].
Defined.

Section CoolingProperties.
Import Variables PyNum Objects Cooling.

Variable self : Cooling.
Local Abbreviation cmd := (HYDRO_CMD_PO_EAU (_waterPump self)).
Local Abbreviation rm := (HYDRO_RM_PO_EAU (_waterPump self)).
Local Abbreviation st := (HYDRO_ST_PO_EAU (_waterPump self)).
Local Abbreviation ssp := (HYDRO_SSP_PO_EAU (_waterPump self)).
Local Abbreviation ft := (HYDRO_FT_EAU_REFR (_waterFlow self)).
Local Abbreviation tt_eau := (HYDRO_TT_EAU (_waterTemperature self)).
Local Abbreviation tt_echauff := (HYDRO_TT_ECHAUFF (_warmingTemperature self)).
Local Abbreviation tt_refr := (HYDRO_TT_EAU_REFR (_coolingTemperature self)).
Local Abbreviation st_turb := (HYDRO_ST_TURB (_RGNValve self)).
Local Abbreviation zt_rgn := (HYDRO_ZT_VA_RGN (_RGNValve self)).

(** One update of the cooling system on numeric inputs. *)
Lemma cooling_update_step h p z w c s :
  NoDup (locations self) →
  to_num (if py_truthy (value (h cmd)) then value (h ssp)
          else PNum (Q2Qc 0)) = Ok p →
  to_num (value (h zt_rgn)) = Ok z →
  to_num (value (h tt_echauff)) = Ok w →
  to_num (value (h tt_refr)) = Ok c →
  to_num (value (h st_turb)) = Ok s →
  ∃ h',
    update_step self h = (Ok tt, h') ∧
    value (h' st) = (if py_truthy (value (h cmd)) then value (h ssp)
                     else PNum (Q2Qc 0)) ∧
    value (h' rm) = value (h cmd) ∧
    value (h' ft) = PNum (p / FACTOR_FT_EAU_REFR_ST_PO
                          * (z / FACTOR_FT_EAU_REFR_ZT_VA_RGN))%Qc ∧
    value (h' tt_eau) = PNum ((Q2Qc 1 - p / MAX_SSP_PO / Q2Qc 3) * w
                              + p / MAX_SSP_PO / Q2Qc 3 * c)%Qc ∧
    value (h' tt_echauff) = PNum ((Q2Qc 1 - p / MAX_SSP_PO / Q2Qc 3) * w
                                  + p / MAX_SSP_PO / Q2Qc 3 * c
                                  + s * Q2Qc (1 # 100))%Qc ∧
    (∀ l, l ∉ [rm; st; ft; tt_eau; tt_echauff] → h' l = h l).
Proof.
  intros Hnd Hp Hz Hw Hc Hs. unfold locations in Hnd. split_NoDup Hnd.
  unfold update_step, _updateWaterPump, _updateWaterFlow,
    _updateWaterTemperature, _updateWarmingTemperature.
  run_heap.
  destruct (py_truthy (value (h cmd))) eqn:Hcmd; cbn; heap_simpl.
  all: rewrite Hp; cbn; heap_simpl; rewrite Hz; cbn; heap_simpl.
  all: rewrite Hp; cbn; heap_simpl; rewrite Hw; cbn; rewrite Hc; cbn.
  all: heap_simpl; rewrite Hs; cbn.
  all: eexists; split; [done|]; heap_simpl.
  all: split_and!; try done.
  all: intros l Hl; rewrite !not_elem_of_cons in Hl; destruct_and!.
  all: by heap_simpl.
Qed.

Lemma cooling_process_S n h :
  process self (S n) h =
  match update_step self h with
  | (Ok _, h') => process self n h'
  | (Raise e, h') => (Raise e, h')
  end.
Proof. cbn [process]. unfold_M. by destruct (update_step self h) as [[[]|] ?]. Qed.

(** X5: while the water pump is commanded off, every update sets the pump
    speed and the cooling flow to zero, hands the warming temperature on to
    the water temperature, and adds a hundredth of the turbine speed to the
    warming temperature: after [n + 1] updates the warming temperature has
    grown by [(n + 1) * ST_TURB / 100], with no upper limit. *)
Theorem cooling_pump_off_warms_without_limit n h z w c s :
  NoDup (locations self) →
  py_truthy (value (h cmd)) = false →
  to_num (value (h zt_rgn)) = Ok z →
  to_num (value (h tt_echauff)) = Ok w →
  to_num (value (h tt_refr)) = Ok c →
  to_num (value (h st_turb)) = Ok s →
  ∃ h',
    process self (S n) h = (Ok tt, h') ∧
    value (h' st) = PNum (Q2Qc 0) ∧
    value (h' rm) = value (h cmd) ∧
    value (h' ft) = PNum (Q2Qc 0) ∧
    value (h' tt_eau)
    = PNum (w + num (Z.of_nat n) * (s * Q2Qc (1 # 100)))%Qc ∧
    value (h' tt_echauff)
    = PNum (w + num (Z.of_nat (S n)) * (s * Q2Qc (1 # 100)))%Qc.
Proof.
  intros Hnd. revert h w.
  induction n as [|n IH]; intros h w Hcmd Hz Hw Hc Hs.
  - destruct (cooling_update_step h (Q2Qc 0) z w c s)
      as (h' & Hrun & Hst & Hrm & Hft & Heau & Hech & _); try done.
    { by rewrite Hcmd. }
    exists h'. rewrite cooling_process_S, Hrun. rewrite Hcmd in Hst.
    split_and!; try done.
    + rewrite Hft. f_equal. apply Qc_is_canon. reflexivity.
    + rewrite Heau. f_equal. change (Z.of_nat 0) with 0%Z.
      unfold MAX_SSP_PO. qc_lra.
    + rewrite Hech. f_equal. change (Z.of_nat 1) with 1%Z.
      unfold MAX_SSP_PO. qc_lra.
  - destruct (cooling_update_step h (Q2Qc 0) z w c s)
      as (h1 & Hrun & Hst & Hrm & Hft & Heau & Hech & Hframe); try done.
    { by rewrite Hcmd. }
    pose proof Hnd as Hnd'. unfold locations in Hnd'. split_NoDup Hnd'.
    rewrite cooling_process_S, Hrun.
    destruct (IH h1 (w + s * Q2Qc (1 # 100))%Qc)
      as (h' & Hrun' & Hst' & Hrm' & Hft' & Heau' & Hech');
      rewrite ?Hframe by not_written;
      try done.
    { rewrite Hech. cbn. f_equal. unfold MAX_SSP_PO. qc_lra. }
    exists h'. rewrite Hframe in Hrm'
      by not_written.
    split_and!; try done.
    + rewrite Heau'. f_equal. rewrite (num_succ n). ring.
    + rewrite Hech'. f_equal. rewrite (num_succ (S n)). ring.
Qed.

(** X6: with the water pump commanded on at a set-point between zero and
    [MAX_SSP_PO], an update copies the set-point to the pump speed and mixes
    the water temperature from the warming and the cooling temperatures:
    with cooling water no warmer than the warming temperature, the water
    temperature lies between the warming temperature and the warming
    temperature less a third of the difference, which it reaches at
    [MAX_SSP_PO]. *)
Theorem cooling_mixes_at_most_a_third h p z w c s :
  NoDup (locations self) →
  py_truthy (value (h cmd)) = true →
  to_num (value (h ssp)) = Ok p →
  (Q2Qc 0 ≤ p ≤ MAX_SSP_PO)%Qc →
  to_num (value (h zt_rgn)) = Ok z →
  to_num (value (h tt_echauff)) = Ok w →
  to_num (value (h tt_refr)) = Ok c →
  to_num (value (h st_turb)) = Ok s →
  (c ≤ w)%Qc →
  ∃ h' t,
    update_step self h = (Ok tt, h') ∧
    value (h' st) = value (h ssp) ∧
    value (h' tt_eau) = PNum t ∧
    (w - (w - c) / Q2Qc 3 ≤ t ≤ w)%Qc ∧
    (p = MAX_SSP_PO → t = w - (w - c) / Q2Qc 3)%Qc ∧
    value (h' tt_echauff) = PNum (t + s * Q2Qc (1 # 100))%Qc.
Proof.
  intros Hnd Hcmd Hp [Hp0 Hp1] Hz Hw Hc Hs Hcw.
  destruct (cooling_update_step h p z w c s)
    as (h' & Hrun & Hst & Hrm & Hft & Heau & Hech & _); try done.
  { by rewrite Hcmd. }
  rewrite Hcmd in Hst.
  eexists h', _. split_and!; try done.
  - unfold MAX_SSP_PO in *.
    assert ((Q2Qc 1 - p / num 1500 / Q2Qc 3) * w + p / num 1500 / Q2Qc 3 * c
            = w - p / num 4500 * (w - c))%Qc as -> by qc_field.
    assert (p / num 4500 * (w - c) ≤ Q2Qc (1 # 3) * (w - c))%Qc
      by (apply Qcmult_le_compat_r; clear -Hp0 Hp1 Hcw; qc_lra).
    assert (Q2Qc 0 * (w - c) ≤ p / num 4500 * (w - c))%Qc
      by (apply Qcmult_le_compat_r; clear -Hp0 Hp1 Hcw; qc_lra).
    clear -Hp0 Hp1 Hcw H H0. qc_lra.
  - unfold MAX_SSP_PO in *.
    assert ((Q2Qc 1 - p / num 1500 / Q2Qc 3) * w + p / num 1500 / Q2Qc 3 * c
            = w - p / num 4500 * (w - c))%Qc as -> by qc_field.
    assert (p / num 4500 * (w - c) ≤ Q2Qc (1 # 3) * (w - c))%Qc
      by (apply Qcmult_le_compat_r; clear -Hp0 Hp1 Hcw; qc_lra).
    assert (Q2Qc 0 * (w - c) ≤ p / num 4500 * (w - c))%Qc
      by (apply Qcmult_le_compat_r; clear -Hp0 Hp1 Hcw; qc_lra).
    clear -Hp0 Hp1 Hcw H H0. qc_lra.
  - intros ->. unfold MAX_SSP_PO. qc_field.
Qed.

(** X7: an update is not atomic.  With the pump commanded on and a
    set-point that is not a number, the set-point is copied to the pump
    speed and the feedback is refreshed before the update raises
    [TypeError]; the flow and the temperatures keep their values. *)
Theorem cooling_update_is_not_atomic h e :
  st ≠ rm → cmd ≠ st →
  py_truthy (value (h cmd)) = true →
  to_num (value (h ssp)) = Raise e →
  ∃ h',
    update_step self h = (Raise TypeError, h') ∧
    value (h' st) = value (h ssp) ∧
    value (h' rm) = value (h cmd) ∧
    (∀ l, l ≠ st → l ≠ rm → h' l = h l).
Proof.
  intros Hne Hne' Hcmd Hp. rewrite (to_num_raise _ _ Hp) in Hp.
  unfold update_step, _updateWaterPump, _updateWaterFlow.
  run_heap. rewrite Hcmd. cbn. heap_simpl. rewrite Hp. cbn.
  eexists. split; [done|]. heap_simpl. split_and!; try done.
  intros. by heap_simpl.
Qed.

End CoolingProperties.

Lemma cooling_pump_off_warms_without_limit_witness :
  NoDup (Cooling.locations Cooling.example_cooling)
  ∧ Variables.py_truthy
      (Variables.value
         (Cooling.plant (Variables.PBool false) (Variables.PNum (num 1500))
            1%positive)) = false
  ∧ ∃ h',
      Cooling.process Cooling.example_cooling 4
        (Cooling.plant (Variables.PBool false) (Variables.PNum (num 1500)))
      = (Ok tt, h') ∧
      Variables.value (h' 7%positive)
      = Variables.PNum
          (num 30 + num (Z.of_nat 4) * (num 1500 * Q2Qc (1 # 100)))%Qc.
Proof.
  assert (NoDup (Cooling.locations Cooling.example_cooling)) as Hnd
    by compute_done.
  split; [exact Hnd|]. split; [reflexivity|].
  destruct (cooling_pump_off_warms_without_limit Cooling.example_cooling 3
              (Cooling.plant (Variables.PBool false)
                 (Variables.PNum (num 1500)))
              (num 50) (num 30) (num 10) (num 1500) Hnd)
    as (h' & Hrun & _ & _ & _ & _ & Hwarm); try reflexivity.
  exists h'. split; [exact Hrun|exact Hwarm].
Defined.

Lemma cooling_mixes_at_most_a_third_witness :
  (Q2Qc 0 ≤ num 1500 ≤ Cooling.MAX_SSP_PO)%Qc
  ∧ (num 10 ≤ num 30)%Qc
  ∧ ∃ h' t,
      Cooling.update_step Cooling.example_cooling
        (Cooling.plant (Variables.PBool true) (Variables.PNum (num 1500)))
      = (Ok tt, h') ∧
      Variables.value (h' 6%positive) = Variables.PNum t ∧
      (num 30 - (num 30 - num 10) / Q2Qc 3 ≤ t ≤ num 30)%Qc.
Proof.
  assert (Q2Qc 0 ≤ num 1500 ≤ Cooling.MAX_SSP_PO)%Qc as Hp by done.
  assert (num 10 ≤ num 30)%Qc as Hcw by done.
  split; [exact Hp|]. split; [exact Hcw|].
  destruct (cooling_mixes_at_most_a_third Cooling.example_cooling
              (Cooling.plant (Variables.PBool true)
                 (Variables.PNum (num 1500)))
              (num 1500) (num 50) (num 30) (num 10) (num 1500))
    as (h' & t & Hrun & _ & Hv & Hrange & _);
    [compute_done|reflexivity|reflexivity|exact Hp|reflexivity|reflexivity
    |reflexivity|reflexivity|exact Hcw|].
  exists h', t. split; [exact Hrun|]. split; [exact Hv|exact Hrange].
Defined.

Lemma cooling_update_is_not_atomic_witness :
  PyNum.to_num
    (Variables.value
       (Cooling.plant (Variables.PBool true) Variables.PNone 4%positive))
  = Raise TypeError
  ∧ ∃ h',
      Cooling.update_step Cooling.example_cooling
        (Cooling.plant (Variables.PBool true) Variables.PNone)
      = (Raise TypeError, h') ∧
      Variables.value (h' 3%positive) = Variables.PNone ∧
      Variables.value (h' 2%positive) = Variables.PBool true.
Proof.
  split; [reflexivity|].
  destruct (cooling_update_is_not_atomic Cooling.example_cooling
              (Cooling.plant (Variables.PBool true) Variables.PNone)
              TypeError)
    as (h' & Hrun & Hst & Hrm & _);
    [discriminate|discriminate|reflexivity|reflexivity|].
  exists h'. split; [exact Hrun|]. split; [exact Hst|exact Hrm].
Defined.

Section LevelRegulationProperties.
Import Variables PyNum Objects LevelRegulation.

Variable self : LevelRegulation.
Local Abbreviation cmdo := (HYDRO_CMDO_VA_BARRAGE (_opened self)).
Local Abbreviation cmdc := (HYDRO_CMDC_VA_BARRAGE (_opened self)).
Local Abbreviation zso := (HYDRO_ZSO_VA_BARRAGE (_opened self)).
Local Abbreviation zsc := (HYDRO_ZSC_VA_BARRAGE (_opened self)).
Local Abbreviation zt := (HYDRO_ZT_VA_BARRAGE (_opened self)).
Local Abbreviation lt := (HYDRO_LT_EAU_BARRAGE (_waterLevelAndFlow self)).
Local Abbreviation ft_in := (HYDRO_FT_IN_BARRAGE (_waterLevelAndFlow self)).
Local Abbreviation ft_barrage :=
  (HYDRO_FT_VA_BARRAGE (_waterLevelAndFlow self)).
Local Abbreviation ft_tete := (HYDRO_FT_VA_TETE (_waterLevelAndFlow self)).
Local Abbreviation zsc_tete := (HYDRO_ZSC_VA_TETE (_headValve self)).
Local Abbreviation zsc_pied := (HYDRO_ZSC_VA_PIED (_footValve self)).
Local Abbreviation zt_rgn := (HYDRO_ZT_VA_RGN (_RGNValve self)).

(** One update of the barrage valve on a numeric position. *)
Lemma _updateOpened_run h p :
  NoDup [cmdo; cmdc; zso; zsc; zt] →
  to_num (value (h zt)) = Ok p →
  ∃ h' p',
    _updateOpened self h = (Ok tt, h') ∧
    to_num (value (h' zt)) = Ok p' ∧
    p' = (if py_truthy (value (h cmdo))
          then py_min ZT_VA_BARRAGE_MAX (p + barrage_increment)%Qc
          else if py_truthy (value (h cmdc))
               then py_max ZT_VA_BARRAGE_MIN (p - barrage_increment)%Qc
               else p) ∧
    value (h' zso) = PBool (bool_decide (ZT_VA_BARRAGE_MAX ≤ p')%Qc) ∧
    value (h' zsc) = PBool (bool_decide (p' ≤ ZT_VA_BARRAGE_MIN)%Qc) ∧
    (∀ l, l ∉ [zt; zso; zsc] → h' l = h l).
Proof.
  intros Hnd Hp. split_NoDup Hnd.
  unfold _updateOpened. run_heap.
  destruct (py_truthy (value (h cmdo))) eqn:Ho; cbn;
    [|destruct (py_truthy (value (h cmdc))) eqn:Hc; cbn].
  all: rewrite Hp; cbn; heap_simpl; cbn; rewrite ?Hp; cbn; heap_simpl; cbn.
  all: eexists _, _; split; [done|]; heap_simpl.
  all: split_and!; try done.
  all: intros l Hl; rewrite !not_elem_of_cons in Hl; destruct_and!.
  all: by heap_simpl.
Qed.

(** One update of the level and the flows on numeric inputs. *)
Lemma _updateWaterLevelAndFlow_run h a b d l r :
  NoDup [lt; ft_in; ft_barrage; ft_tete; zt; zsc_tete; zsc_pied; zt_rgn] →
  to_num (value (h ft_in)) = Ok a →
  to_num (value (h ft_barrage)) = Ok b →
  to_num (value (h ft_tete)) = Ok d →
  to_num (value (h lt)) = Ok l →
  to_num (value (h zt_rgn)) = Ok r →
  ∃ h',
    _updateWaterLevelAndFlow self h = (Ok tt, h') ∧
    value (h' lt)
    = PNum (py_max MIN_WATER_LEVEL
              (py_min MAX_WATER_LEVEL (l + (a - b - d) / K)%Qc)) ∧
    value (h' ft_barrage) = value (h zt) ∧
    value (h' ft_tete)
    = PNum (if negb (py_truthy (value (h zsc_tete)))
               && negb (py_truthy (value (h zsc_pied)))
               && bool_decide (ZT_VA_RGN_MIN_WORKING ≤ r)%Qc
            then (HEAD_VALVE_FLOW_FACTOR * r)%Qc else Q2Qc 0) ∧
    (∀ l', l' ∉ [lt; ft_barrage; ft_tete] → h' l' = h l').
Proof.
  intros Hnd Ha Hb Hd Hl Hr. split_NoDup Hnd.
  unfold _updateWaterLevelAndFlow. run_heap.
  rewrite Ha; cbn. rewrite Hb; cbn. rewrite Hd; cbn. rewrite Hl; cbn.
  heap_simpl. rewrite Hr. cbn. heap_simpl. cbn.
  rewrite (bool_decide_eq_true_2 (MIN_WATER_LEVEL ≤ _)%Qc)
    by apply py_max_ge_l.
  rewrite andb_true_r.
  destruct (negb (py_truthy (value (h zsc_tete)))
            && negb (py_truthy (value (h zsc_pied)))
            && bool_decide (ZT_VA_RGN_MIN_WORKING ≤ r)%Qc) eqn:Hflow; cbn.
  all: heap_simpl; rewrite ?Hr; cbn.
  all: eexists; split; [done|]; heap_simpl.
  all: split_and!; try done.
  all: intros l' Hl'; rewrite !not_elem_of_cons in Hl'; destruct_and!.
  all: by heap_simpl.
Qed.

Lemma barrage_increment_eq : barrage_increment = Q2Qc (25 # 4).
Proof. by apply Qc_is_canon. Qed.

(** X8: an update of the barrage valve keeps the position between
    [ZT_VA_BARRAGE_MIN] and [ZT_VA_BARRAGE_MAX], and leaves the two limit
    switches telling exactly whether the new position is at the upper,
    respectively the lower, end of the travel. *)
Theorem barrage_valve_stays_within_travel h p :
  NoDup [cmdo; cmdc; zso; zsc; zt] →
  to_num (value (h zt)) = Ok p →
  (ZT_VA_BARRAGE_MIN ≤ p ≤ ZT_VA_BARRAGE_MAX)%Qc →
  ∃ h' p',
    _updateOpened self h = (Ok tt, h') ∧
    to_num (value (h' zt)) = Ok p' ∧
    (ZT_VA_BARRAGE_MIN ≤ p' ≤ ZT_VA_BARRAGE_MAX)%Qc ∧
    (value (h' zso) = PBool true ↔ p' = ZT_VA_BARRAGE_MAX) ∧
    (value (h' zsc) = PBool true ↔ p' = ZT_VA_BARRAGE_MIN).
Proof.
  intros Hnd Hp [Hlo Hhi].
  destruct (_updateOpened_run h p Hnd Hp)
    as (h' & p' & Hrun & Hp' & Heq & Hzso & Hzsc & _).
  exists h', p'. split; [done|]. split; [done|].
  assert (ZT_VA_BARRAGE_MIN ≤ p' ≤ ZT_VA_BARRAGE_MAX)%Qc as [Hlo' Hhi'].
  { rewrite Heq, barrage_increment_eq. clear Heq Hzso Hzsc.
    revert Hlo Hhi. unfold py_min, py_max, ZT_VA_BARRAGE_MIN, ZT_VA_BARRAGE_MAX.
    intros. destruct (py_truthy _); [|destruct (py_truthy _)];
      repeat case_decide; split; qc_lra. }
  split; [done|]. rewrite Hzso, Hzsc. split.
  - split.
    + intros [= Hb%bool_decide_eq_true_1]. by apply Qcle_antisym.
    + intros ->. by rewrite bool_decide_eq_true_2 by apply Qcle_refl.
  - split.
    + intros [= Hb%bool_decide_eq_true_1]. by apply Qcle_antisym.
    + intros ->. by rewrite bool_decide_eq_true_2 by apply Qcle_refl.
Qed.

(** X9: the opening command of the barrage valve has priority over the
    closing command: whenever it is on, also together with the closing
    command, an update moves the valve up by 6.25, stopping at
    [ZT_VA_BARRAGE_MAX]. *)
Theorem barrage_valve_opening_has_priority h p :
  NoDup [cmdo; cmdc; zso; zsc; zt] →
  to_num (value (h zt)) = Ok p →
  py_truthy (value (h cmdo)) = true →
  ∃ h' p',
    _updateOpened self h = (Ok tt, h') ∧
    to_num (value (h' zt)) = Ok p' ∧
    ((p + Q2Qc (25 # 4) ≤ ZT_VA_BARRAGE_MAX → p' = p + Q2Qc (25 # 4)) ∧
     (ZT_VA_BARRAGE_MAX ≤ p + Q2Qc (25 # 4) → p' = ZT_VA_BARRAGE_MAX))%Qc.
Proof.
  intros Hnd Hp Ho.
  destruct (_updateOpened_run h p Hnd Hp)
    as (h' & p' & Hrun & Hp' & Heq & _).
  exists h', p'. split; [done|]. split; [done|].
  rewrite Heq, Ho, barrage_increment_eq.
  unfold py_min, ZT_VA_BARRAGE_MAX.
  split; intros; case_decide; qc_lra.
Qed.


(** X11: the flow through the head valve does not depend on the water
    level, not even on an empty reservoir: it is half the opening of the
    governor valve when neither the head nor the foot valve is closed and
    that opening is at least [ZT_VA_RGN_MIN_WORKING], and zero otherwise. *)
Theorem head_flow_does_not_depend_on_level h a b d l r :
  NoDup [lt; ft_in; ft_barrage; ft_tete; zt; zsc_tete; zsc_pied; zt_rgn] →
  to_num (value (h ft_in)) = Ok a →
  to_num (value (h ft_barrage)) = Ok b →
  to_num (value (h ft_tete)) = Ok d →
  to_num (value (h lt)) = Ok l →
  to_num (value (h zt_rgn)) = Ok r →
  ∃ h',
    _updateWaterLevelAndFlow self h = (Ok tt, h') ∧
    (py_truthy (value (h zsc_tete)) = false →
     py_truthy (value (h zsc_pied)) = false →
     (ZT_VA_RGN_MIN_WORKING ≤ r)%Qc →
     value (h' ft_tete) = PNum (HEAD_VALVE_FLOW_FACTOR * r)%Qc) ∧
    (py_truthy (value (h zsc_tete)) = true
     ∨ py_truthy (value (h zsc_pied)) = true
     ∨ (r < ZT_VA_RGN_MIN_WORKING)%Qc →
     value (h' ft_tete) = PNum (Q2Qc 0)).
Proof.
  intros Hnd Ha Hb Hd Hl Hr.
  destruct (_updateWaterLevelAndFlow_run h a b d l r Hnd Ha Hb Hd Hl Hr)
    as (h' & Hrun & _ & _ & Hflow & _).
  exists h'. split; [done|]. rewrite Hflow. split.
  - intros -> -> Hge. by rewrite bool_decide_eq_true_2.
  - intros [->|[->|Hlt]]; cbn; [done|by rewrite andb_false_r|].
    rewrite bool_decide_eq_false_2, andb_false_r; [done|].
    by apply Qclt_not_le.
Qed.

(** One turn of the loop on numeric inputs. *)
Lemma level_update_step h a b d l r p :
  NoDup (locations self) →
  to_num (value (h ft_in)) = Ok a →
  to_num (value (h ft_barrage)) = Ok b →
  to_num (value (h ft_tete)) = Ok d →
  to_num (value (h lt)) = Ok l →
  to_num (value (h zt_rgn)) = Ok r →
  to_num (value (h zt)) = Ok p →
  ∃ h' l' d' p',
    update_step self h = (Ok tt, h') ∧
    value (h' lt) = PNum l' ∧
    (MIN_WATER_LEVEL ≤ l' ≤ MAX_WATER_LEVEL)%Qc ∧
    to_num (value (h' ft_barrage)) = Ok p ∧
    value (h' ft_tete) = PNum d' ∧
    to_num (value (h' zt)) = Ok p' ∧
    p' = (if py_truthy (value (h cmdo))
          then py_min ZT_VA_BARRAGE_MAX (p + barrage_increment)%Qc
          else if py_truthy (value (h cmdc))
               then py_max ZT_VA_BARRAGE_MIN (p - barrage_increment)%Qc
               else p) ∧
    (∀ x, x ∉ [lt; ft_barrage; ft_tete; zt; zso; zsc] → h' x = h x) ∧
    d' = (if negb (py_truthy (value (h zsc_tete)))
             && negb (py_truthy (value (h zsc_pied)))
             && bool_decide (ZT_VA_RGN_MIN_WORKING ≤ r)%Qc
          then (HEAD_VALVE_FLOW_FACTOR * r)%Qc else Q2Qc 0).
Proof.
  intros Hnd Ha Hb Hd Hl Hr Hp. unfold locations in Hnd.
  pose proof Hnd as Hnd'. split_NoDup Hnd'.
  destruct (_updateWaterLevelAndFlow_run h a b d l r) as (h1 & Hrun & Hlt & Hbar & Hflow & Hframe);
    try done.
  { repeat (apply list.NoDup_cons; split; [not_written|]). apply NoDup_nil_2. }
  destruct (_updateOpened_run h1 p) as (h' & p' & Hrun' & Hp' & Heq & _ & _ & Hframe').
  { repeat (apply list.NoDup_cons; split; [not_written|]). apply NoDup_nil_2. }
  { rewrite Hframe by not_written. done. }
  eexists h', _, _, p'. split.
  { unfold update_step. by rewrite (bind_run _ _ _ _ _ Hrun). }
  rewrite !Hframe' by not_written. rewrite Hlt, Hbar, Hflow.
  split; [done|]. split.
  { unfold py_min, py_max, MIN_WATER_LEVEL, MAX_WATER_LEVEL.
    generalize (l + (a - b - d) / K)%Qc. intros.
    repeat case_decide; split; qc_lra. }
  split; [done|]. split; [done|]. split; [done|]. split.
  { rewrite Heq. by rewrite !Hframe by not_written. }
  split; [|done].
  intros x Hx. rewrite !not_elem_of_cons in Hx. destruct_and!.
  rewrite Hframe', Hframe by not_written. done.
Qed.

Lemma level_process_S n h :
  process self (S n) h =
  match update_step self h with
  | (Ok _, h') => process self n h'
  | (Raise e, h') => (Raise e, h')
  end.
Proof. cbn [process]. unfold_M. by destruct (update_step self h) as [[[]|] ?]. Qed.


(** X13: while the opening command is held, the barrage valve travels 6.25
    per turn of the loop until it reaches [ZT_VA_BARRAGE_MAX]: a closed
    valve is fully open after sixteen turns and not before. *)
Theorem barrage_valve_opening_time n h a b d l r p :
  NoDup (locations self) →
  py_truthy (value (h cmdo)) = true →
  to_num (value (h ft_in)) = Ok a →
  to_num (value (h ft_barrage)) = Ok b →
  to_num (value (h ft_tete)) = Ok d →
  to_num (value (h lt)) = Ok l →
  to_num (value (h zt_rgn)) = Ok r →
  to_num (value (h zt)) = Ok p →
  (ZT_VA_BARRAGE_MIN ≤ p ≤ ZT_VA_BARRAGE_MAX)%Qc →
  ∃ h' p',
    process self n h = (Ok tt, h') ∧
    to_num (value (h' zt)) = Ok p' ∧
    ((p + num (Z.of_nat n) * Q2Qc (25 # 4) ≤ ZT_VA_BARRAGE_MAX →
      p' = p + num (Z.of_nat n) * Q2Qc (25 # 4)) ∧
     (ZT_VA_BARRAGE_MAX ≤ p + num (Z.of_nat n) * Q2Qc (25 # 4) →
      p' = ZT_VA_BARRAGE_MAX))%Qc.
Proof.
  intros Hnd Ho Ha. revert h b d l p Ho Ha.
  induction n as [|n IH]; intros h b d l p Ho Ha Hb Hd Hl Hr Hp Hrange.
  - exists h, p. split; [done|]. split; [done|].
    change (Z.of_nat 0) with 0%Z. revert Hrange.
    unfold ZT_VA_BARRAGE_MIN, ZT_VA_BARRAGE_MAX. intros [??].
    split; intros; qc_lra.
  - destruct (level_update_step h a b d l r p)
      as (h1 & l1 & d1 & p1 & Hrun & Hl1 & Hlr & Hb1 & Hd1 & Hp1 & Heq
          & Hframe & _); try done.
    pose proof Hnd as Hnd'. unfold locations in Hnd'. split_NoDup Hnd'.
    rewrite Ho, barrage_increment_eq in Heq.
    assert (ZT_VA_BARRAGE_MIN ≤ p1 ≤ ZT_VA_BARRAGE_MAX)%Qc as Hrange1.
    { rewrite Heq. revert Hrange.
      unfold py_min, ZT_VA_BARRAGE_MIN, ZT_VA_BARRAGE_MAX.
      intros [??]. case_decide; split; qc_lra. }
    rewrite level_process_S, Hrun.
    destruct (IH h1 p d1 l1 p1) as (h' & p' & Hrun' & Hp' & Hres); try done.
    { by rewrite Hframe by not_written. }
    { by rewrite Hframe by not_written. }
    { by rewrite Hd1. }
    { by rewrite Hl1. }
    { by rewrite Hframe by not_written. }
    exists h', p'. split; [done|]. split; [done|].
    clear IH. rewrite num_succ.
    pose proof (num_of_nat_nonneg n) as Hn.
    revert Hrange Hrange1 Heq Hres.
    unfold py_min, ZT_VA_BARRAGE_MIN, ZT_VA_BARRAGE_MAX.
    generalize (num (Z.of_nat n)) Hn. clear Hn. intros k Hk [??] [??] Heq [Hx Hy].
    case_decide; subst p1.
    + split; intros.
      * rewrite Hx by qc_lra. qc_lra.
      * apply Hy. qc_lra.
    + split; intros.
      * assert (k = Q2Qc 0) as -> by qc_lra.
        rewrite Hx by qc_lra. qc_lra.
      * apply Hy. qc_lra.
Qed.

End LevelRegulationProperties.

Lemma barrage_valve_stays_within_travel_witness :
  (LevelRegulation.ZT_VA_BARRAGE_MIN ≤ num 96
   ≤ LevelRegulation.ZT_VA_BARRAGE_MAX)%Qc
  ∧ ∃ h' p',
      LevelRegulation._updateOpened LevelRegulation.example_regulation
        (LevelRegulation.basin true false (num 7) (num 96)) = (Ok tt, h') ∧
      PyNum.to_num (Variables.value (h' 5%positive)) = Ok p' ∧
      (LevelRegulation.ZT_VA_BARRAGE_MIN ≤ p'
       ≤ LevelRegulation.ZT_VA_BARRAGE_MAX)%Qc.
Proof.
  assert (LevelRegulation.ZT_VA_BARRAGE_MIN ≤ num 96
          ≤ LevelRegulation.ZT_VA_BARRAGE_MAX)%Qc as Hrange by done.
  split; [exact Hrange|].
  destruct (barrage_valve_stays_within_travel
              LevelRegulation.example_regulation
              (LevelRegulation.basin true false (num 7) (num 96)) (num 96))
    as (h' & p' & Hrun & Hp & Hr & _);
    [compute_done|reflexivity|exact Hrange|].
  exists h', p'. split; [exact Hrun|]. split; [exact Hp|exact Hr].
Defined.

Lemma barrage_valve_opening_has_priority_witness :
  Variables.py_truthy
    (Variables.value
       (LevelRegulation.basin true true (num 7) (num 50) 1%positive)) = true
  ∧ Variables.py_truthy
      (Variables.value
         (LevelRegulation.basin true true (num 7) (num 50) 2%positive))
    = true
  ∧ ∃ h' p',
      LevelRegulation._updateOpened LevelRegulation.example_regulation
        (LevelRegulation.basin true true (num 7) (num 50)) = (Ok tt, h') ∧
      PyNum.to_num (Variables.value (h' 5%positive)) = Ok p' ∧
      ((num 50 + Q2Qc (25 # 4) ≤ LevelRegulation.ZT_VA_BARRAGE_MAX →
        p' = num 50 + Q2Qc (25 # 4)) ∧
       (LevelRegulation.ZT_VA_BARRAGE_MAX ≤ num 50 + Q2Qc (25 # 4) →
        p' = LevelRegulation.ZT_VA_BARRAGE_MAX))%Qc.
Proof.
  split; [reflexivity|]. split; [reflexivity|].
  apply (barrage_valve_opening_has_priority
           LevelRegulation.example_regulation
           (LevelRegulation.basin true true (num 7) (num 50)) (num 50));
    [compute_done|reflexivity|reflexivity].
Defined.


Lemma head_flow_does_not_depend_on_level_witness :
  NoDup [6%positive; 7%positive; 8%positive; 9%positive; 5%positive;
         13%positive; 17%positive; 19%positive]
  ∧ (LevelRegulation.ZT_VA_RGN_MIN_WORKING ≤ num 50)%Qc
  ∧ ∃ h',
      LevelRegulation._updateWaterLevelAndFlow
        LevelRegulation.example_regulation
        (LevelRegulation.basin false false (num 0) (num 100)) = (Ok tt, h') ∧
      Variables.value (h' 9%positive)
      = Variables.PNum (LevelRegulation.HEAD_VALVE_FLOW_FACTOR * num 50)%Qc.
Proof.
  assert (NoDup [6%positive; 7%positive; 8%positive; 9%positive; 5%positive;
                 13%positive; 17%positive; 19%positive]) as Hnd
    by compute_done.
  assert (LevelRegulation.ZT_VA_RGN_MIN_WORKING ≤ num 50)%Qc as Hge by done.
  split; [exact Hnd|]. split; [exact Hge|].
  destruct (head_flow_does_not_depend_on_level
              LevelRegulation.example_regulation
              (LevelRegulation.basin false false (num 0) (num 100))
              (num 75) (num 0) (num 0) (num 0) (num 50) Hnd)
    as (h' & Hrun & Hflow & _); try reflexivity.
  exists h'. split; [exact Hrun|].
  apply Hflow; [reflexivity|reflexivity|exact Hge].
Defined.


Lemma barrage_valve_opening_time_witness :
  NoDup (LevelRegulation.locations LevelRegulation.example_regulation)
  ∧ Variables.py_truthy
      (Variables.value
         (LevelRegulation.basin true false (num 7) (num 0) 1%positive))
    = true
  ∧ ∃ h',
      LevelRegulation.process LevelRegulation.example_regulation 16
        (LevelRegulation.basin true false (num 7) (num 0)) = (Ok tt, h') ∧
      PyNum.to_num (Variables.value (h' 5%positive))
      = Ok LevelRegulation.ZT_VA_BARRAGE_MAX.
Proof.
  assert (NoDup (LevelRegulation.locations
                   LevelRegulation.example_regulation)) as Hnd
    by compute_done.
  split; [exact Hnd|]. split; [reflexivity|].
  destruct (barrage_valve_opening_time LevelRegulation.example_regulation
              16 (LevelRegulation.basin true false (num 7) (num 0))
              (num 75) (num 0) (num 0) (num 7) (num 50) (num 0) Hnd)
    as (h' & p' & Hrun & Hp & _ & Hfull); try reflexivity; [done|].
  exists h'. split; [exact Hrun|].
  transitivity (Ok p' : result Qc); [exact Hp|]. f_equal. apply Hfull. done.
Defined.

(** A valve driven by an opening and a closing command stays within its
    travel. *)
Lemma valve_travel (opening closing : bool) (lo hi inc p : Qc) :
  (Q2Qc 0 ≤ inc)%Qc →
  (lo ≤ p ≤ hi)%Qc →
  (lo ≤ (if opening then PyNum.py_min hi (p + inc)
         else if closing then PyNum.py_max lo (p - inc) else p) ≤ hi)%Qc.
Proof.
  intros Hinc [Hlo Hhi]. unfold PyNum.py_min, PyNum.py_max.
  destruct opening; [|destruct closing]; repeat case_decide; split; qc_lra.
Qed.

Section TurbineProperties.
Import Variables PyNum Objects Turbine.

Variable sqrt3 : Qc.
Variable self : Turbine.
Local Abbreviation cmdo_tete := (HYDRO_CMDO_VA_TETE (_headValve self)).
Local Abbreviation cmdc_tete := (HYDRO_CMDC_VA_TETE (_headValve self)).
Local Abbreviation zso_tete := (HYDRO_ZSO_VA_TETE (_headValve self)).
Local Abbreviation zsc_tete := (HYDRO_ZSC_VA_TETE (_headValve self)).
Local Abbreviation cmdo_pied := (HYDRO_CMDO_VA_PIED (_footValve self)).
Local Abbreviation cmdc_pied := (HYDRO_CMDC_VA_PIED (_footValve self)).
Local Abbreviation zso_pied := (HYDRO_ZSO_VA_PIED (_footValve self)).
Local Abbreviation zsc_pied := (HYDRO_ZSC_VA_PIED (_footValve self)).
Local Abbreviation st_turb := (HYDRO_ST_TURB (_RGNValve self)).
Local Abbreviation zt_rgn := (HYDRO_ZT_VA_RGN (_RGNValve self)).
Local Abbreviation vt := (HYDRO_VT_ALTERN (_RGUExcitation self)).
Local Abbreviation fqt := (HYDRO_FQT_ALTERN (_RGUExcitation self)).
Local Abbreviation vsp := (HYDRO_VSP_ALTERN (_RGUExcitation self)).
Local Abbreviation autoriz := (HYDRO_AUTORIZ_CPL (_syncCoupler self)).
Local Abbreviation ft_tete := (HYDRO_FT_VA_TETE (_waterLevelAndFlow self)).
Local Abbreviation jt := (HYDRO_JT_ALTERN (_SEPAM self)).
Local Abbreviation freq := (FREQ (_SEPAM self)).
Local Abbreviation courant1 := (COURANT1 (_SEPAM self)).
Local Abbreviation courant2 := (COURANT2 (_SEPAM self)).
Local Abbreviation courant3 := (COURANT3 (_SEPAM self)).

Ltac run_state :=
  unfold on_objects, get_headValvePosition, set_headValvePosition,
    get_footValvePosition, set_footValvePosition;
  run_heap.

Lemma on_objects_run {A} (m : M heap A) s a h' :
  m (objects s) = (Ok a, h') →
  on_objects m s
  = (Ok a, mkState h' (_headValvePosition s) (_footValvePosition s)).
Proof. intros E. unfold on_objects. by rewrite E. Qed.

Lemma _updateHeadValve_run s :
  ∃ p',
    _updateHeadValve self s
    = (Ok tt,
       mkState
         (write_value zsc_tete (PBool (bool_decide (p' ≤ ZT_VA_TETE_MIN)%Qc))
            (write_value zso_tete
               (PBool (bool_decide (ZT_VA_TETE_MAX ≤ p')%Qc)) (objects s)))
         p' (_footValvePosition s)) ∧
    p' = (if py_truthy (value (objects s cmdo_tete))
          then py_min ZT_VA_TETE_MAX
                 (_headValvePosition s
                  + ZT_VA_TETE_MAX / (ZT_VA_TETE_openingTime / FACTOR))%Qc
          else if py_truthy (value (objects s cmdc_tete))
               then py_max ZT_VA_TETE_MIN
                      (_headValvePosition s
                       - ZT_VA_TETE_MAX / (ZT_VA_TETE_openingTime / FACTOR))%Qc
               else _headValvePosition s).
Proof.
  unfold _updateHeadValve. run_state.
  destruct (py_truthy (value (objects s cmdo_tete))); cbn;
    [|destruct (py_truthy (value (objects s cmdc_tete))); cbn].
  all: by eexists.
Qed.

Lemma _updateFootValve_run s :
  ∃ p',
    _updateFootValve self s
    = (Ok tt,
       mkState
         (write_value zsc_pied (PBool (bool_decide (p' ≤ ZT_VA_PIED_MIN)%Qc))
            (write_value zso_pied
               (PBool (bool_decide (ZT_VA_PIED_MAX ≤ p')%Qc)) (objects s)))
         (_headValvePosition s) p') ∧
    p' = (if py_truthy (value (objects s cmdo_pied))
          then py_min ZT_VA_PIED_MAX
                 (_footValvePosition s
                  + ZT_VA_PIED_MAX / (ZT_VA_PIED_openingTime / FACTOR))%Qc
          else if py_truthy (value (objects s cmdc_pied))
               then py_max ZT_VA_PIED_MIN
                      (_footValvePosition s
                       - ZT_VA_PIED_MAX / (ZT_VA_PIED_openingTime / FACTOR))%Qc
               else _footValvePosition s).
Proof.
  unfold _updateFootValve. run_state.
  destruct (py_truthy (value (objects s cmdo_pied))); cbn;
    [|destruct (py_truthy (value (objects s cmdc_pied))); cbn].
  all: by eexists.
Qed.

Lemma _updateRGNValve_run h r f :
  to_num (value (h zt_rgn)) = Ok r →
  to_num (value (h ft_tete)) = Ok f →
  _updateRGNValve self h
  = (Ok tt,
     write_value st_turb
       (PNum (if decide (LevelRegulation.ZT_VA_RGN_MIN_WORKING < r)%Qc
              then if decide (FACTOR_FT_VA_TETE_ST_TURB * f ≤ ST_TURB_MAX)%Qc
                   then (FACTOR_FT_VA_TETE_ST_TURB * f)%Qc
                   else if py_truthy (value (h autoriz)) then ST_TURB_MAX
                        else (FACTOR_FT_VA_TETE_ST_TURB * f)%Qc
              else ST_TURB_MIN)) h).
Proof.
  intros Hr Hf. unfold _updateRGNValve. run_heap. rewrite Hr. cbn.
  case_decide; [|done]. rewrite Hf. cbn.
  case_decide; cbn; [by rewrite Hf|].
  destruct (py_truthy _); cbn; [done|by rewrite Hf].
Qed.

Lemma _updateRGUExcitation_run h sp :
  to_num (value (h st_turb)) = Ok sp →
  _updateRGUExcitation self h
  = (Ok tt,
     write_value vt
       (value (write_value fqt (PNum (sp / FACTOR_ST_TURB_FQT_ALTERN)%Qc) h
                 vsp))
       (write_value fqt (PNum (sp / FACTOR_ST_TURB_FQT_ALTERN)%Qc) h)).
Proof. intros Hs. unfold _updateRGUExcitation. run_heap. by rewrite Hs. Qed.

Lemma _updateSyncCoupler_run h q :
  to_num (value (h fqt)) = Ok q →
  _updateSyncCoupler self h
  = (Ok tt,
     write_value autoriz
       (PBool (bool_decide (COUPLAGE_MIN < q)%Qc
               && bool_decide (q < COUPLAGE_MAX)%Qc)) h).
Proof. intros Hq. unfold _updateSyncCoupler. run_heap. by rewrite Hq. Qed.

Lemma _updateSEPAM_run h f :
  vsp ≠ jt → fqt ≠ jt → fqt ≠ courant1 → fqt ≠ courant2 → fqt ≠ courant3 →
  to_num (value (h ft_tete)) = Ok f →
  ∃ power current,
    _updateSEPAM sqrt3 self h
    = (Ok tt,
       write_value freq (value (h fqt))
         (write_value courant3 (PNum current)
            (write_value courant2 (PNum current)
               (write_value courant1 (PNum current)
                  (write_value jt (PNum power) h))))) ∧
    power = (if py_truthy (value (h autoriz))
             then Q2Qc (85 # 100)
                  * (num 1000 * Q2Qc (981 # 100) * num 15 * Q2Qc (9 # 10) * f)
                  / num 1000
             else Q2Qc 0)%Qc ∧
    current = (if differs_from_zero (value (h vsp))
               then power / (sqrt3 * num 5000 * Q2Qc (89 # 100)) * num 1000
               else Q2Qc 0)%Qc.
Proof.
  intros ????? Hf. unfold _updateSEPAM. run_heap. rewrite Hf. cbn.
  destruct (py_truthy (value (h autoriz))); cbn; heap_simpl.
  all: destruct (differs_from_zero (value (h vsp))); cbn; heap_simpl; cbn.
  all: heap_simpl; by eexists _, _.
Qed.

(** One turn of the loop of the turbine on a numeric opening of the
    governor valve and a numeric head flow. *)
Lemma turbine_update_step s r f :
  NoDup (locations self) →
  to_num (value (objects s zt_rgn)) = Ok r →
  to_num (value (objects s ft_tete)) = Ok f →
  ∃ s' head foot speed power current,
    update_step sqrt3 self s = (Ok tt, s') ∧
    _headValvePosition s' = head ∧
    head = (if py_truthy (value (objects s cmdo_tete))
            then py_min ZT_VA_TETE_MAX
                   (_headValvePosition s
                    + ZT_VA_TETE_MAX / (ZT_VA_TETE_openingTime / FACTOR))%Qc
            else if py_truthy (value (objects s cmdc_tete))
                 then py_max ZT_VA_TETE_MIN
                        (_headValvePosition s
                         - ZT_VA_TETE_MAX
                           / (ZT_VA_TETE_openingTime / FACTOR))%Qc
                 else _headValvePosition s) ∧
    value (objects s' zso_tete)
    = PBool (bool_decide (ZT_VA_TETE_MAX ≤ head)%Qc) ∧
    value (objects s' zsc_tete)
    = PBool (bool_decide (head ≤ ZT_VA_TETE_MIN)%Qc) ∧
    _footValvePosition s' = foot ∧
    foot = (if py_truthy (value (objects s cmdo_pied))
            then py_min ZT_VA_PIED_MAX
                   (_footValvePosition s
                    + ZT_VA_PIED_MAX / (ZT_VA_PIED_openingTime / FACTOR))%Qc
            else if py_truthy (value (objects s cmdc_pied))
                 then py_max ZT_VA_PIED_MIN
                        (_footValvePosition s
                         - ZT_VA_PIED_MAX
                           / (ZT_VA_PIED_openingTime / FACTOR))%Qc
                 else _footValvePosition s) ∧
    value (objects s' zso_pied)
    = PBool (bool_decide (ZT_VA_PIED_MAX ≤ foot)%Qc) ∧
    value (objects s' zsc_pied)
    = PBool (bool_decide (foot ≤ ZT_VA_PIED_MIN)%Qc) ∧
    value (objects s' st_turb) = PNum speed ∧
    speed = (if decide (LevelRegulation.ZT_VA_RGN_MIN_WORKING < r)%Qc
             then if decide (FACTOR_FT_VA_TETE_ST_TURB * f ≤ ST_TURB_MAX)%Qc
                  then (FACTOR_FT_VA_TETE_ST_TURB * f)%Qc
                  else if py_truthy (value (objects s autoriz))
                       then ST_TURB_MAX
                       else (FACTOR_FT_VA_TETE_ST_TURB * f)%Qc
             else ST_TURB_MIN) ∧
    value (objects s' fqt) = PNum (speed / FACTOR_ST_TURB_FQT_ALTERN)%Qc ∧
    value (objects s' vt) = value (objects s vsp) ∧
    value (objects s' autoriz)
    = PBool (bool_decide (COUPLAGE_MIN < speed / FACTOR_ST_TURB_FQT_ALTERN)%Qc
             && bool_decide
                  (speed / FACTOR_ST_TURB_FQT_ALTERN < COUPLAGE_MAX)%Qc) ∧
    value (objects s' jt) = PNum power ∧
    power = (if bool_decide
                  (COUPLAGE_MIN < speed / FACTOR_ST_TURB_FQT_ALTERN)%Qc
                && bool_decide
                     (speed / FACTOR_ST_TURB_FQT_ALTERN < COUPLAGE_MAX)%Qc
             then Q2Qc (85 # 100)
                  * (num 1000 * Q2Qc (981 # 100) * num 15 * Q2Qc (9 # 10) * f)
                  / num 1000
             else Q2Qc 0)%Qc ∧
    value (objects s' courant1) = PNum current ∧
    value (objects s' courant2) = PNum current ∧
    value (objects s' courant3) = PNum current ∧
    current = (if differs_from_zero (value (objects s vsp))
               then power / (sqrt3 * num 5000 * Q2Qc (89 # 100)) * num 1000
               else Q2Qc 0)%Qc ∧
    value (objects s' freq) = PNum (speed / FACTOR_ST_TURB_FQT_ALTERN)%Qc ∧
    (∀ x, x ∉ [zso_tete; zsc_tete; zso_pied; zsc_pied; st_turb; fqt; vt;
               autoriz; jt; courant1; courant2; courant3; freq] →
          objects s' x = objects s x).
Proof.
  intros Hnd Hr Hf. unfold locations in Hnd. split_NoDup Hnd.
  destruct (_updateHeadValve_run s) as (head & Hhead & Hheq).
  set (s1 := mkState _ head _) in Hhead.
  destruct (_updateFootValve_run s1) as (foot & Hfoot & Hfeq).
  set (s2 := mkState _ _ foot) in Hfoot.
  assert (to_num (value (objects s2 zt_rgn)) = Ok r) as Hr2
    by (cbn; by heap_simpl).
  assert (to_num (value (objects s2 ft_tete)) = Ok f) as Hf2
    by (cbn; by heap_simpl).
  pose proof (_updateRGNValve_run _ _ _ Hr2 Hf2) as Hrgn.
  set (speed := if decide (_ < r)%Qc then _ else _) in Hrgn.
  set (h3 := write_value st_turb _ _) in Hrgn.
  assert (to_num (value (h3 st_turb)) = Ok speed) as Hs3
    by (unfold h3; by heap_simpl).
  pose proof (_updateRGUExcitation_run _ _ Hs3) as Hrgu.
  set (h4 := write_value vt _ _) in Hrgu.
  assert (to_num (value (h4 fqt))
          = Ok (speed / FACTOR_ST_TURB_FQT_ALTERN)%Qc) as Hq4
    by (unfold h4; by heap_simpl).
  pose proof (_updateSyncCoupler_run _ _ Hq4) as Hsync.
  set (h5 := write_value autoriz _ _) in Hsync.
  assert (to_num (value (h5 ft_tete)) = Ok f) as Hf5.
  { unfold h5, h4, h3. heap_simpl. done. }
  destruct (_updateSEPAM_run h5 f) as (power & current & Hsepam & Hpow & Hcur);
    try done.
  set (h6 := write_value freq _ _) in Hsepam.
  exists (mkState h6 head foot), head, foot, speed, power, current.
  split.
  { unfold update_step.
    rewrite (bind_run _ _ _ _ _ Hhead); cbn beta.
    rewrite (bind_run _ _ _ _ _ Hfoot); cbn beta.
    rewrite (bind_run _ _ _ _ _ (on_objects_run _ s2 _ _ Hrgn)); cbn beta.
    rewrite (bind_run _ _ _ _ _
               (on_objects_run _ (mkState h3 _ _) _ _ Hrgu)); cbn beta.
    rewrite (bind_run _ _ _ _ _
               (on_objects_run _ (mkState h4 _ _) _ _ Hsync)); cbn beta.
    by rewrite (on_objects_run _ (mkState h5 _ _) _ _ Hsepam). }
  cbn [objects _headValvePosition _footValvePosition].
  unfold h6, h5, h4, h3 in *. cbn [objects s2 s1] in *.
  heap_simpl. rewrite Hheq in Hfeq |- *. cbn [objects s1] in Hfeq.
  revert Hpow Hcur Hfeq. heap_simpl. intros Hpow Hcur Hfeq.
  split_and!; try done.
  - unfold speed, s2, s1. cbn [objects]. by heap_simpl.
  - intros x Hx. rewrite !not_elem_of_cons in Hx. destruct_and!.
    by heap_simpl.
Qed.


(** X15: the speed limit [ST_TURB_MAX] applies only while the coupling is
    authorised.  With the governor valve open and a head flow that would
    drive the turbine faster than [ST_TURB_MAX], an authorised turbine is
    held at [ST_TURB_MAX], which keeps the frequency at 50 and the
    authorisation on; a turbine that is not authorised takes the full speed
    [FACTOR_FT_VA_TETE_ST_TURB * flow]. *)
Theorem turbine_speed_limited_only_when_coupled s r f :
  NoDup (locations self) →
  to_num (value (objects s zt_rgn)) = Ok r →
  to_num (value (objects s ft_tete)) = Ok f →
  (LevelRegulation.ZT_VA_RGN_MIN_WORKING < r)%Qc →
  (ST_TURB_MAX < FACTOR_FT_VA_TETE_ST_TURB * f)%Qc →
  ∃ s',
    update_step sqrt3 self s = (Ok tt, s') ∧
    (py_truthy (value (objects s autoriz)) = true →
     value (objects s' st_turb) = PNum ST_TURB_MAX ∧
     value (objects s' fqt) = PNum (num 50) ∧
     value (objects s' autoriz) = PBool true) ∧
    (py_truthy (value (objects s autoriz)) = false →
     value (objects s' st_turb) = PNum (FACTOR_FT_VA_TETE_ST_TURB * f)%Qc).
Proof.
  intros Hnd Hr Hf Hopen Hover.
  destruct (turbine_update_step s r f Hnd Hr Hf)
    as (s' & head & foot & speed & power & current & Hrun & _ & _ & _ & _
        & _ & _ & _ & _ & Hst & Hspeed & Hfqt & _ & Hauth & _).
  rewrite decide_True in Hspeed by done.
  rewrite decide_False in Hspeed by by apply Qclt_not_le.
  exists s'. split; [done|]. split.
  - intros Ha. rewrite Ha in Hspeed. subst speed.
    rewrite Hst, Hfqt, Hauth.
    assert (ST_TURB_MAX / FACTOR_ST_TURB_FQT_ALTERN = num 50)%Qc as ->
      by by apply Qc_is_canon.
    done.
  - intros Ha. rewrite Ha in Hspeed. by subst speed.
Qed.

(** X16: after a turn of the turbine loop the frequency is the speed
    divided by [FACTOR_ST_TURB_FQT_ALTERN], the metering unit reports that
    same frequency, and the coupling is authorised exactly when the speed
    lies strictly between 1470 and 1530, that is the frequency strictly
    between [COUPLAGE_MIN] and [COUPLAGE_MAX]. *)
Theorem coupling_authorised_in_frequency_window s r f :
  NoDup (locations self) →
  to_num (value (objects s zt_rgn)) = Ok r →
  to_num (value (objects s ft_tete)) = Ok f →
  ∃ s' speed,
    update_step sqrt3 self s = (Ok tt, s') ∧
    value (objects s' st_turb) = PNum speed ∧
    value (objects s' fqt) = PNum (speed / FACTOR_ST_TURB_FQT_ALTERN)%Qc ∧
    value (objects s' freq) = value (objects s' fqt) ∧
    (value (objects s' autoriz) = PBool true
     ↔ (num 1470 < speed)%Qc ∧ (speed < num 1530)%Qc) ∧
    (value (objects s' autoriz) = PBool false
     ↔ ¬ ((num 1470 < speed)%Qc ∧ (speed < num 1530)%Qc)).
Proof.
  intros Hnd Hr Hf.
  destruct (turbine_update_step s r f Hnd Hr Hf)
    as (s' & head & foot & speed & power & current & Hrun & _ & _ & _ & _
        & _ & _ & _ & _ & Hst & _ & Hfqt & _ & Hauth & _ & _ & _ & _ & _
        & _ & Hfreq & _).
  exists s', speed. split; [done|]. split; [done|]. split; [done|].
  split; [by rewrite Hfreq, Hfqt|].
  rewrite Hauth.
  assert ((COUPLAGE_MIN < speed / FACTOR_ST_TURB_FQT_ALTERN)%Qc
          ↔ (num 1470 < speed)%Qc) as Hlo.
  { unfold COUPLAGE_MIN, FACTOR_ST_TURB_FQT_ALTERN. split; intros; qc_lra. }
  assert ((speed / FACTOR_ST_TURB_FQT_ALTERN < COUPLAGE_MAX)%Qc
          ↔ (speed < num 1530)%Qc) as Hhi.
  { unfold COUPLAGE_MAX, FACTOR_ST_TURB_FQT_ALTERN. split; intros; qc_lra. }
  split.
  - rewrite <- Hlo, <- Hhi. split.
    + intros [= [H1 H2]%andb_true_iff].
      by apply bool_decide_eq_true_1 in H1, H2.
    + intros [H1 H2]. by rewrite !bool_decide_eq_true_2.
  - rewrite <- Hlo, <- Hhi. split.
    + intros [= Hb] [H1 H2]. by rewrite !bool_decide_eq_true_2 in Hb.
    + intros Hn. f_equal. apply andb_false_iff.
      destruct (decide (COUPLAGE_MIN < speed / FACTOR_ST_TURB_FQT_ALTERN)%Qc).
      * right. apply bool_decide_eq_false_2. tauto.
      * left. by apply bool_decide_eq_false_2.
Qed.

(** X17: the metering unit reports power and current only for a coupled
    generator.  After a turn of the turbine loop the three currents are
    equal; if the coupling is not authorised the power and the currents are
    zero, and so are the currents whenever the voltage set-point is zero. *)
Theorem no_power_without_coupling s r f :
  NoDup (locations self) →
  to_num (value (objects s zt_rgn)) = Ok r →
  to_num (value (objects s ft_tete)) = Ok f →
  ∃ s' power current,
    update_step sqrt3 self s = (Ok tt, s') ∧
    value (objects s' jt) = PNum power ∧
    value (objects s' courant1) = PNum current ∧
    value (objects s' courant2) = PNum current ∧
    value (objects s' courant3) = PNum current ∧
    (value (objects s' autoriz) = PBool false →
     power = Q2Qc 0 ∧ current = Q2Qc 0) ∧
    (value (objects s' autoriz) = PBool true →
     power = Q2Qc (85 # 100)
             * (num 1000 * Q2Qc (981 # 100) * num 15 * Q2Qc (9 # 10) * f)
             / num 1000)%Qc ∧
    (differs_from_zero (value (objects s vsp)) = false →
     current = Q2Qc 0).
Proof.
  intros Hnd Hr Hf.
  destruct (turbine_update_step s r f Hnd Hr Hf)
    as (s' & head & foot & speed & power & current & Hrun & _ & _ & _ & _
        & _ & _ & _ & _ & _ & _ & _ & _ & Hauth & Hjt & Hpow
        & Hc1 & Hc2 & Hc3 & Hcur & _).
  exists s', power, current. split_and!; try done.
  - rewrite Hauth. intros [= Hb]. rewrite Hb in Hpow. subst power.
    split; [done|]. rewrite Hcur. destruct (differs_from_zero _); [|done].
    unfold Qcdiv. ring.
  - rewrite Hauth. intros [= Hb]. by rewrite Hb in Hpow.
  - intros Hv. by rewrite Hv in Hcur.
Qed.

(** X18: a turn of the turbine loop keeps the internal positions of the
    head and of the foot valve within their travel, and sets each limit
    switch exactly when the position is at the corresponding end: in
    particular a valve never reports open and closed together. *)
Theorem turbine_valves_stay_within_travel s r f :
  NoDup (locations self) →
  to_num (value (objects s zt_rgn)) = Ok r →
  to_num (value (objects s ft_tete)) = Ok f →
  (ZT_VA_TETE_MIN ≤ _headValvePosition s ≤ ZT_VA_TETE_MAX)%Qc →
  (ZT_VA_PIED_MIN ≤ _footValvePosition s ≤ ZT_VA_PIED_MAX)%Qc →
  ∃ s',
    update_step sqrt3 self s = (Ok tt, s') ∧
    (ZT_VA_TETE_MIN ≤ _headValvePosition s' ≤ ZT_VA_TETE_MAX)%Qc ∧
    (ZT_VA_PIED_MIN ≤ _footValvePosition s' ≤ ZT_VA_PIED_MAX)%Qc ∧
    (value (objects s' zso_tete) = PBool true
     ↔ _headValvePosition s' = ZT_VA_TETE_MAX) ∧
    (value (objects s' zsc_tete) = PBool true
     ↔ _headValvePosition s' = ZT_VA_TETE_MIN) ∧
    (value (objects s' zso_pied) = PBool true
     ↔ _footValvePosition s' = ZT_VA_PIED_MAX) ∧
    (value (objects s' zsc_pied) = PBool true
     ↔ _footValvePosition s' = ZT_VA_PIED_MIN).
Proof.
  intros Hnd Hr Hf [Hh0 Hh1] [Hf0 Hf1].
  destruct (turbine_update_step s r f Hnd Hr Hf)
    as (s' & head & foot & speed & power & current & Hrun & Hhead & Hheq
        & Hzso & Hzsc & Hfoot & Hfeq & Hzso' & Hzsc' & _).
  exists s'. split; [done|].
  rewrite Hhead, Hfoot, Hzso, Hzsc, Hzso', Hzsc'.
  assert (ZT_VA_TETE_MIN ≤ head ≤ ZT_VA_TETE_MAX)%Qc as [??].
  { rewrite Hheq. by apply valve_travel. }
  assert (ZT_VA_PIED_MIN ≤ foot ≤ ZT_VA_PIED_MAX)%Qc as [??].
  { rewrite Hfeq. by apply valve_travel. }
  split_and!; try done.
  all: split;
    [intros [= Hb%bool_decide_eq_true_1]; by apply Qcle_antisym
    |intros ->; by rewrite bool_decide_eq_true_2 by apply Qcle_refl].
Qed.

End TurbineProperties.


Lemma turbine_speed_limited_only_when_coupled_witness :
  (LevelRegulation.ZT_VA_RGN_MIN_WORKING < num 50)%Qc
  ∧ (Turbine.ST_TURB_MAX < Turbine.FACTOR_FT_VA_TETE_ST_TURB * num 6)%Qc
  ∧ ∃ s',
      Turbine.update_step Turbine.example_sqrt3 Turbine.example_turbine
        (Turbine.running (num 50) (num 6) true) = (Ok tt, s') ∧
      Variables.value (Turbine.objects s' 9%positive)
      = Variables.PNum Turbine.ST_TURB_MAX ∧
      Variables.value (Turbine.objects s' 15%positive)
      = Variables.PBool true.
Proof.
  assert (LevelRegulation.ZT_VA_RGN_MIN_WORKING < num 50)%Qc as Hopen
    by done.
  assert (Turbine.ST_TURB_MAX
          < Turbine.FACTOR_FT_VA_TETE_ST_TURB * num 6)%Qc as Hover by done.
  split; [exact Hopen|]. split; [exact Hover|].
  destruct (turbine_speed_limited_only_when_coupled Turbine.example_sqrt3
              Turbine.example_turbine (Turbine.running (num 50) (num 6) true)
              (num 50) (num 6))
    as (s' & Hrun & Hon & _);
    [compute_done|reflexivity|reflexivity|exact Hopen|exact Hover|].
  destruct Hon as (Hst & _ & Hauth); [reflexivity|].
  exists s'. split; [exact Hrun|]. split; [exact Hst|exact Hauth].
Defined.

Lemma coupling_authorised_in_frequency_window_witness :
  NoDup (Turbine.locations Turbine.example_turbine)
  ∧ ∃ s' speed,
      Turbine.update_step Turbine.example_sqrt3 Turbine.example_turbine
        (Turbine.running (num 50) (num 5) false) = (Ok tt, s') ∧
      Variables.value (Turbine.objects s' 9%positive)
      = Variables.PNum speed ∧
      (Variables.value (Turbine.objects s' 15%positive)
       = Variables.PBool true
       ↔ (num 1470 < speed)%Qc ∧ (speed < num 1530)%Qc).
Proof.
  assert (NoDup (Turbine.locations Turbine.example_turbine)) as Hnd
    by compute_done.
  split; [exact Hnd|].
  destruct (coupling_authorised_in_frequency_window Turbine.example_sqrt3
              Turbine.example_turbine
              (Turbine.running (num 50) (num 5) false) (num 50) (num 5) Hnd)
    as (s' & speed & Hrun & Hst & _ & _ & Hauth & _);
    [reflexivity|reflexivity|].
  exists s', speed. split; [exact Hrun|]. split; [exact Hst|exact Hauth].
Defined.

Lemma no_power_without_coupling_witness :
  NoDup (Turbine.locations Turbine.example_turbine)
  ∧ ∃ s' power current,
      Turbine.update_step Turbine.example_sqrt3 Turbine.example_turbine
        (Turbine.running (num 50) (num 2) false) = (Ok tt, s') ∧
      Variables.value (Turbine.objects s' 20%positive)
      = Variables.PNum power ∧
      Variables.value (Turbine.objects s' 22%positive)
      = Variables.PNum current ∧
      (Variables.value (Turbine.objects s' 15%positive)
       = Variables.PBool false → power = Q2Qc 0 ∧ current = Q2Qc 0).
Proof.
  assert (NoDup (Turbine.locations Turbine.example_turbine)) as Hnd
    by compute_done.
  split; [exact Hnd|].
  destruct (no_power_without_coupling Turbine.example_sqrt3
              Turbine.example_turbine
              (Turbine.running (num 50) (num 2) false) (num 50) (num 2) Hnd)
    as (s' & power & current & Hrun & Hjt & Hc1 & _ & _ & Hoff & _);
    [reflexivity|reflexivity|].
  exists s', power, current.
  split; [exact Hrun|]. split; [exact Hjt|]. split; [exact Hc1|exact Hoff].
Defined.

Lemma turbine_valves_stay_within_travel_witness :
  NoDup (Turbine.locations Turbine.example_turbine)
  ∧ (Turbine.ZT_VA_TETE_MIN
     ≤ Turbine._headValvePosition (Turbine.running (num 50) (num 2) false)
     ≤ Turbine.ZT_VA_TETE_MAX)%Qc
  ∧ ∃ s',
      Turbine.update_step Turbine.example_sqrt3 Turbine.example_turbine
        (Turbine.running (num 50) (num 2) false) = (Ok tt, s') ∧
      (Turbine.ZT_VA_TETE_MIN ≤ Turbine._headValvePosition s'
       ≤ Turbine.ZT_VA_TETE_MAX)%Qc ∧
      (Variables.value (Turbine.objects s' 4%positive)
       = Variables.PBool true
       ↔ Turbine._headValvePosition s' = Turbine.ZT_VA_TETE_MIN).
Proof.
  assert (NoDup (Turbine.locations Turbine.example_turbine)) as Hnd
    by compute_done.
  assert (Turbine.ZT_VA_TETE_MIN
          ≤ Turbine._headValvePosition
              (Turbine.running (num 50) (num 2) false)
          ≤ Turbine.ZT_VA_TETE_MAX)%Qc as Hhead by done.
  split; [exact Hnd|]. split; [exact Hhead|].
  destruct (turbine_valves_stay_within_travel Turbine.example_sqrt3
              Turbine.example_turbine
              (Turbine.running (num 50) (num 2) false) (num 50) (num 2) Hnd)
    as (s' & Hrun & Hrange & _ & _ & Hzsc & _);
    [reflexivity|reflexivity|exact Hhead|done|].
  exists s'. split; [exact Hrun|]. split; [exact Hrange|exact Hzsc].
Defined.

(** * The plant of [hydro.py] *)

Section PlantProperties.
Import Variables PyNum Objects Hydro.

Variable sqrt3 : Qc.

Ltac other_object :=
  repeat (apply not_elem_of_cons; split; [compute_done|]);
  apply not_elem_of_nil.

(** X4: a head valve reported closed stops the generator within the tick,
    because the level regulation is registered before the turbine.  If the
    closed switch of the head valve is set when the components take their
    turn, then after the four updates of the tick the head flow, the
    turbine speed, the frequency, the power and the three currents are zero
    and the coupling is not authorised, although the turbine was running
    before; the cooling system, registered before the turbine, has still
    worked with the turbine speed of the previous tick. *)
Theorem closed_head_valve_stops_the_generator_within_the_tick
    s a b d l r p t ps w c st :
  py_truthy (value (Turbine.objects s world.HYDRO_ZSC_VA_TETE)) = true →
  to_num (value (Turbine.objects s world.HYDRO_FT_IN_BARRAGE)) = Ok a →
  to_num (value (Turbine.objects s world.HYDRO_FT_VA_BARRAGE)) = Ok b →
  to_num (value (Turbine.objects s world.HYDRO_FT_VA_TETE)) = Ok d →
  to_num (value (Turbine.objects s world.HYDRO_LT_EAU_BARRAGE)) = Ok l →
  to_num (value (Turbine.objects s world.HYDRO_ZT_VA_RGN)) = Ok r →
  to_num (value (Turbine.objects s world.HYDRO_ZT_VA_BARRAGE)) = Ok p →
  to_num (value (Turbine.objects s world.HYDRO_TT_HUILE)) = Ok t →
  to_num (if py_truthy (value (Turbine.objects s world.HYDRO_CMD_PO_EAU))
          then value (Turbine.objects s world.HYDRO_SSP_PO_EAU)
          else PNum (Q2Qc 0)) = Ok ps →
  to_num (value (Turbine.objects s world.HYDRO_TT_ECHAUFF)) = Ok w →
  to_num (value (Turbine.objects s world.HYDRO_TT_EAU_REFR)) = Ok c →
  to_num (value (Turbine.objects s world.HYDRO_ST_TURB)) = Ok st →
  ∃ s',
    components_tick sqrt3 s = (Ok tt, s') ∧
    value (Turbine.objects s' world.HYDRO_FT_VA_TETE) = PNum (Q2Qc 0) ∧
    value (Turbine.objects s' world.HYDRO_ST_TURB) = PNum (Q2Qc 0) ∧
    value (Turbine.objects s' world.HYDRO_FQT_ALTERN) = PNum (Q2Qc 0) ∧
    value (Turbine.objects s' world.HYDRO_AUTORIZ_CPL) = PBool false ∧
    value (Turbine.objects s' world.HYDRO_JT_ALTERN) = PNum (Q2Qc 0) ∧
    value (Turbine.objects s' world.HYDRO_COURANT1) = PNum (Q2Qc 0) ∧
    value (Turbine.objects s' world.HYDRO_COURANT2) = PNum (Q2Qc 0) ∧
    value (Turbine.objects s' world.HYDRO_COURANT3) = PNum (Q2Qc 0) ∧
    value (Turbine.objects s' world.HYDRO_TT_ECHAUFF)
    = PNum ((Q2Qc 1 - ps / Cooling.MAX_SSP_PO / Q2Qc 3) * w
            + ps / Cooling.MAX_SSP_PO / Q2Qc 3 * c
            + st * Q2Qc (1 # 100))%Qc.
Proof.
  intros Hclosed Ha Hb Hd Hl Hr Hp Ht Hps Hw Hc Hst.
  set (h := Turbine.objects s) in *.
  (* the level regulation *)
  destruct (level_update_step level_regulation h a b d l r p)
    as (h1 & l1 & d1 & p1 & Hrun1 & _ & _ & _ & Hft1 & _ & _ & Hframe1 & Hd1);
    [compute_done|exact Ha|exact Hb|exact Hd|exact Hl|exact Hr|exact Hp|].
  assert (d1 = Q2Qc 0) as ->.
  { rewrite Hd1.
    assert (py_truthy
              (value (h (HYDRO_ZSC_VA_TETE
                           (LevelRegulation._headValve level_regulation))))
            = true) as -> by exact Hclosed.
    done. }
  clear Hd1.
  (* the hydraulic central *)
  destruct (hydraulic_update_step hydraulic_central h1 t)
    as (h2 & t2 & Hrun2 & _ & _ & _ & _ & _ & Hframe2).
  { compute_done. }
  { rewrite Hframe1 by other_object. exact Ht. }
  (* the cooling system *)
  destruct (cooling_update_step cooling h2 ps r w c st)
    as (h3 & Hrun3 & _ & _ & _ & _ & Hwarm3 & Hframe3).
  { compute_done. }
  { rewrite !Hframe2 by compute_done. rewrite !Hframe1 by other_object.
    exact Hps. }
  { rewrite Hframe2 by compute_done. rewrite Hframe1 by other_object.
    exact Hr. }
  { rewrite Hframe2 by compute_done. rewrite Hframe1 by other_object.
    exact Hw. }
  { rewrite Hframe2 by compute_done. rewrite Hframe1 by other_object.
    exact Hc. }
  { rewrite Hframe2 by compute_done. rewrite Hframe1 by other_object.
    exact Hst. }
  (* the turbine *)
  set (s3 := Turbine.mkState h3 (Turbine._headValvePosition s)
                             (Turbine._footValvePosition s)).
  destruct (turbine_update_step sqrt3 turbine s3 r (Q2Qc 0))
    as (s' & head & foot & speed & power & current & Hrun4 & _ & _ & _ & _
        & _ & _ & _ & _ & Hspeed & Hseq & Hfqt & _ & Hauth & Hjt & Hpow
        & Hc1 & Hc2 & Hc3 & Hcur & _ & Hframe4).
  { compute_done. }
  { cbn [Turbine.objects s3]. rewrite Hframe3 by other_object.
    rewrite Hframe2 by compute_done. rewrite Hframe1 by other_object.
    exact Hr. }
  { cbn [Turbine.objects s3]. rewrite Hframe3 by other_object.
    rewrite Hframe2 by compute_done.
    change (to_num (value (h1 (HYDRO_FT_VA_TETE
                                 (LevelRegulation._waterLevelAndFlow
                                    level_regulation)))) = Ok (Q2Qc 0)).
    by rewrite Hft1. }
  assert (speed = Q2Qc 0) as ->.
  { rewrite Hseq. case_decide; [|done].
    rewrite decide_True; [by apply Qc_is_canon|done]. }
  assert (Q2Qc 0 / Turbine.FACTOR_ST_TURB_FQT_ALTERN = Q2Qc 0)%Qc as Hzero
    by by apply Qc_is_canon.
  rewrite Hzero in *.
  assert (power = Q2Qc 0) as -> by by rewrite Hpow.
  assert (current = Q2Qc 0) as ->.
  { rewrite Hcur. destruct (Turbine.differs_from_zero _); [|done].
    unfold Qcdiv. ring. }
  exists s'. split.
  { unfold components_tick.
    rewrite (bind_run _ _ _ _ _ (on_objects_run _ s _ _ Hrun1)); cbn beta.
    rewrite (bind_run _ _ _ _ _
               (on_objects_run _ (Turbine.mkState h1 _ _) _ _ Hrun2));
      cbn beta.
    rewrite (bind_run _ _ _ _ _
               (on_objects_run _ (Turbine.mkState h2 _ _) _ _ Hrun3));
      cbn beta.
    exact Hrun4. }
  split_and!; [|exact Hspeed|exact Hfqt|exact Hauth|exact Hjt|exact Hc1
               |exact Hc2|exact Hc3|].
  - rewrite Hframe4 by other_object. cbn [Turbine.objects s3].
    rewrite Hframe3 by other_object. rewrite Hframe2 by compute_done.
    exact Hft1.
  - rewrite Hframe4 by other_object. exact Hwarm3.
Qed.

End PlantProperties.

Lemma closed_head_valve_stops_the_generator_within_the_tick_witness :
  Variables.py_truthy
    (Variables.value
       (Turbine.objects Hydro.closed_head_valve
          Hydro.world.HYDRO_ZSC_VA_TETE)) = true
  ∧ PyNum.to_num
      (Variables.value
         (Turbine.objects Hydro.closed_head_valve
            Hydro.world.HYDRO_ST_TURB)) = Ok (num 1500)
  ∧ ∃ s',
      Hydro.components_tick Turbine.example_sqrt3 Hydro.closed_head_valve
      = (Ok tt, s') ∧
      Variables.value (Turbine.objects s' Hydro.world.HYDRO_FT_VA_TETE)
      = Variables.PNum (Q2Qc 0) ∧
      Variables.value (Turbine.objects s' Hydro.world.HYDRO_ST_TURB)
      = Variables.PNum (Q2Qc 0) ∧
      Variables.value (Turbine.objects s' Hydro.world.HYDRO_AUTORIZ_CPL)
      = Variables.PBool false.
Proof.
  split; [reflexivity|]. split; [reflexivity|].
  destruct (closed_head_valve_stops_the_generator_within_the_tick
              Turbine.example_sqrt3 Hydro.closed_head_valve
              (num 75) (num 0) (num 5) (num 7) (num 50) (num 0) (num 20)
              (Q2Qc 0) (num 30) (num 10) (num 1500))
    as (s' & Hrun & Hflow & Hspeed & _ & Hauth & _); try reflexivity.
  exists s'. split; [exact Hrun|]. split; [exact Hflow|].
  split; [exact Hspeed|exact Hauth].
Defined.

(** * Start-up and the two directions of the orchestrator *)

Section StartupProperties.
Import Variables Simulator Startup.
Context `{Json}.

Lemma dict_set_fresh k a d : k ∉ d.*1 → dict_set k a d = d ++ [(k, a)].
Proof.
  intros Hk. rewrite <- (app_nil_r d) at 1.
  by rewrite dict_set_app_notin.
Qed.

Lemma descriptor_error_free k :
  k ∉ reserved_names → descriptor_error k = None.
Proof.
  unfold reserved_names, private_names. cbn [app].
  rewrite !not_elem_of_cons. intros (_ & _ & _ & _ & ? & ? & ? & ? & _).
  unfold descriptor_error. by rewrite !decide_False.
Qed.

Lemma dict_get_fresh k d : k ∉ d.*1 → dict_get k d = None.
Proof.
  induction d as [|[k' a'] d IH]; [done|]. cbn.
  rewrite not_elem_of_cons. intros [Hne Hk].
  rewrite decide_False by done. by apply IH.
Qed.

Lemma bound_method_free {A} name (m : M Process A) d b tr :
  dict_get name d = None →
  bound_method name m (mkProcess d b tr) = m (mkProcess d b tr).
Proof. intros E. unfold bound_method. unfold_M. cbn. by rewrite E. Qed.

Lemma Process_setattr_free k a self :
  descriptor_error k = None →
  Process_setattr k a self
  = (Ok tt, mkProcess (dict_set k a (__dict__ self)) (_broker self)
                      (trace self)).
Proof. intros E. unfold Process_setattr. by rewrite E. Qed.

Lemma init_variable_plain key val kf d b tr :
  described_field (key, val) = Some kf →
  key ∉ reserved_names →
  key ∉ d.*1 →
  init_variable key val (mkProcess d b tr)
  = (Ok tt, mkProcess (d ++ [(kf.1, AField kf.2)]) b tr).
Proof.
  unfold described_field, plain. cbn.
  destruct (d_compositeType val) eqn:Hc; [done|].
  destruct (d_ioType val) as [n|] eqn:Hn; [|done]. cbn.
  destruct (FieldType_of_name n) as [t|] eqn:Ht; [|done]. cbn.
  destruct (FieldType_value t) eqn:Hv; [|done]. cbn.
  intros [= <-] Hres Hk. cbn.
  unfold init_variable, Process_setattr.
  rewrite (descriptor_error_free _ Hres). unfold dict_store. unfold_M. cbn.
  rewrite Hn, Ht, Hc. cbn. by rewrite dict_set_fresh.
Qed.

Lemma init_loop_plain vars fs d b tr :
  mapM described_field vars = Some fs →
  NoDup (fs.*1) →
  (∀ k, k ∈ fs.*1 → k ∉ reserved_names) →
  (∀ k, k ∈ fs.*1 → k ∉ d.*1) →
  for_each vars (λ '(key, val), init_variable key val) (mkProcess d b tr)
  = (Ok tt, mkProcess (d ++ (prod_map id AField <$> fs)) b tr).
Proof.
  revert fs d.
  induction vars as [|[key val] vars IH]; intros fs d Hfs Hnd Hres Hd.
  { cbn in Hfs. injection Hfs as <-. cbn. by rewrite app_nil_r. }
  rewrite mapM_Some in Hfs. inversion Hfs as [|? kf ? fs' Hkf Hrest]; subst.
  apply mapM_Some in Hrest.
  rewrite fmap_cons in Hnd. apply list.NoDup_cons in Hnd as [Hkf' Hnd].
  assert (kf.1 = key) as Hkey.
  { unfold described_field in Hkf. cbn in Hkf.
    destruct (plain val); [|done]. by injection Hkf as <-. }
  rewrite for_each_cons.
  rewrite (init_variable_plain key val kf); [|done| |].
  2: { rewrite <- Hkey. apply Hres. rewrite fmap_cons. left. }
  2: { rewrite <- Hkey. apply Hd. rewrite fmap_cons. left. }
  rewrite (IH fs'); [|done|done| |].
  - cbn. by rewrite <- app_assoc.
  - intros k Hk. apply Hres. rewrite fmap_cons. by right.
  - intros k Hk. rewrite fmap_app, elem_of_app. intros [Hin|Hin].
    + revert Hin. apply Hd. rewrite fmap_cons. by right.
    + cbn in Hin. apply list_elem_of_singleton in Hin. by subst k.
Qed.

Lemma described_field_typed entry kf :
  described_field entry = Some kf →
  is_Some (ioType kf.2 ≫= FieldType_value).
Proof.
  unfold described_field, plain.
  destruct (d_compositeType entry.2); [done|].
  destruct (d_ioType entry.2) as [n|]; [|done]. cbn.
  destruct (FieldType_of_name n) as [t|]; [|done]. cbn.
  destruct (FieldType_value t) eqn:Hv; [|done]. cbn.
  intros [= <-]. cbn. by rewrite Hv.
Qed.

Lemma typed_described vars fs :
  mapM described_field vars = Some fs →
  typed (prod_map id AField <$> fs) = true.
Proof.
  rewrite mapM_Some. induction 1 as [|entry kf vars fs Hkf _ IH]; [done|].
  unfold typed in *. rewrite fmap_cons. cbn [forallb].
  rewrite IH, andb_true_r. unfold typed_entry. cbn.
  apply bool_decide_eq_true_2. by eapply described_field_typed.
Qed.

Lemma fields_where_all (fs : list (string * Field)) :
  fields_where (λ _, true) (prod_map id AField <$> fs) = fs.
Proof.
  induction fs as [|[k f] fs IH]; [done|].
  rewrite fmap_cons. cbn [prod_map fst snd id].
  by rewrite fields_where_field, IH.
Qed.

Lemma fmap_described (fs : list (string * Field)) :
  (prod_map id AField <$> fs).*1 = fs.*1.
Proof.
  rewrite <- list_fmap_compose. apply list_fmap_ext. by intros ? [??] ?.
Qed.

Lemma reserved_private k : k ∉ reserved_names → k ∉ private_names.
Proof. unfold reserved_names. rewrite not_elem_of_app. by intros [? _]. Qed.

Lemma reserved_method k :
  k ∉ reserved_names → k ≠ "_publish_fields" ∧ k ≠ "process".
Proof.
  unfold reserved_names, private_names. cbn [app].
  rewrite !not_elem_of_cons. tauto.
Qed.

Lemma _init_all_fields_plain data fs st :
  mapM described_field (variables data) = Some fs →
  NoDup (fs.*1) →
  (∀ k, k ∈ fs.*1 → k ∉ reserved_names) →
  Forall (λ kf, is_Some (json_dumps (value kf.2))) fs →
  _init_all_fields data (mkProcess [("_broker", AOther)] (mkBroker true st) [])
  = (Ok tt,
     mkProcess
       ([("_broker", AOther); ("_factor", AOther)]
        ++ (prod_map id AField <$> fs))
       (mkBroker true
          (foldl (λ st kf, <[kf.1 := default "" (json_dumps (value kf.2))]> st)
                 st fs))
       (push_event <$> fs)).
Proof.
  intros Hfs Hnd Hres Hser. unfold _init_all_fields.
  rewrite (bind_run _ _ _ tt
             (mkProcess [("_broker", AOther); ("_factor", AOther)]
                        (mkBroker true st) [])) by done.
  cbn beta.
  assert (∀ k, k ∈ fs.*1 →
               k ∉ [("_broker", AOther); ("_factor", AOther)].*1) as Hd.
  { intros k Hk Hin. apply (reserved_private k (Hres k Hk)).
    unfold private_names.
    cbn in Hin. rewrite !elem_of_cons, elem_of_nil in Hin.
    rewrite !elem_of_cons. tauto. }
  rewrite (bind_run _ _ _ _ _
             (init_loop_plain _ fs _ _ _ Hfs Hnd Hres Hd)).
  cbn beta.
  rewrite bound_method_free.
  2: { apply dict_get_fresh.
       rewrite fmap_app, fmap_described, elem_of_app. intros [Hin|Hin].
       - cbn in Hin. rewrite !elem_of_cons, elem_of_nil in Hin.
         by destruct Hin as [?|[?|?]].
       - by destruct (reserved_method _ (Hres _ Hin)). }
  rewrite forced_push_writes_every_typed_field.
  - by rewrite fields_where_app, fields_where_all.
  - rewrite typed_app, (typed_described _ _ Hfs). done.
  - rewrite fields_where_app, fields_where_all. cbn [fields_where app].
    apply forallb_forall. intros kf Hkf%list_elem_of_In.
    apply bool_decide_eq_true_2.
    by apply (proj1 (list.Forall_forall _ _) Hser).
Qed.

(** X19: start-up on a configuration of plain variables.  When every
    variable names an io type with an integer value and has no composite
    type, the names are distinct and none of them is a name the class
    [Process] uses itself (its private attributes, its property [env], the
    methods [_publish_fields] and [process] that start-up calls, and
    [__class__], [__dict__] and [__weakref__]), every initial value can be
    serialised and the store is reachable, [Process.__init__] returns: the
    process holds one field per variable, in the order of the
    configuration, and the store holds the serialised initial value of every
    variable, input or output, written by one [set] each in that order; the
    other keys of the store are untouched. *)
Theorem startup_publishes_every_variable broker data fs :
  mapM described_field (variables data) = Some fs →
  NoDup (fs.*1) →
  (∀ k, k ∈ fs.*1 → k ∉ reserved_names) →
  Forall (λ kf, is_Some (json_dumps (value kf.2))) fs →
  reachable broker = true →
  ∃ self',
    Process__init__ broker data new_process = (Ok tt, self') ∧
    __dict__ self'
    = [("_broker", AOther); ("_factor", AOther)]
      ++ (prod_map id AField <$> fs)
      ++ [("_env", AOther); ("_verbose", AOther)] ∧
    trace self' = push_event <$> fs ∧
    (∀ k f, (k, f) ∈ fs →
            store (_broker self') !! k = json_dumps (value f)) ∧
    (∀ k, k ∉ fs.*1 → store (_broker self') !! k = store broker !! k).
Proof.
  intros Hfs Hnd Hres Hser Hb. destruct broker as [[] st]; [|done].
  clear Hb.
  assert (∀ k, k ∈ fs.*1 → k ∉ private_names) as Hpriv.
  { intros k Hk. by apply reserved_private, Hres. }
  eexists. split.
  - unfold Process__init__.
    rewrite (bind_run _ _ _ tt
               (mkProcess [("_broker", AOther)] (mkBroker false ∅) []))
      by done.
    cbn beta.
    rewrite (bind_run _ _ _ tt
               (mkProcess [("_broker", AOther)] (mkBroker true st) []))
      by done.
    cbn beta.
    rewrite (bind_run _ _ _ _ _
               (eq_trans
                  (bound_method_free "_init_all_fields"
                     (_init_all_fields data)
                     [("_broker", AOther)] (mkBroker true st) [] eq_refl)
                  (_init_all_fields_plain _ _ _ Hfs Hnd Hres Hser))).
    cbn beta.
    rewrite (bind_run _ _ _ _ _
               (Process_setattr_free "_env" AOther _ eq_refl)).
    cbn beta. cbn [__dict__ _broker trace].
    rewrite (dict_set_fresh "_env").
    2: { rewrite fmap_app, elem_of_app. intros [Hin|Hin].
         - cbn in Hin. rewrite !elem_of_cons, elem_of_nil in Hin.
           by destruct Hin as [?|[?|?]].
         - apply (Hpriv "_env"); [by rewrite fmap_described in Hin|].
           unfold private_names. rewrite !elem_of_cons. tauto. }
    assert (dict_get "process"
              (([("_broker", AOther); ("_factor", AOther)]
                ++ (prod_map id AField <$> fs)) ++ [("_env", AOther)])
            = None) as Hproc.
    { apply dict_get_fresh.
      rewrite !fmap_app, !elem_of_app. intros [[Hin|Hin]|Hin].
      - cbn in Hin. rewrite !elem_of_cons, elem_of_nil in Hin.
        by destruct Hin as [?|[?|?]].
      - rewrite fmap_described in Hin.
        by destruct (reserved_method _ (Hres _ Hin)).
      - cbn in Hin. rewrite !elem_of_cons, elem_of_nil in Hin.
        by destruct Hin as [?|?]. }
    rewrite (bind_run _ _ _ tt _
               (bound_method_free "process" (mret tt) _ _ _ Hproc)).
    cbn beta.
    rewrite (Process_setattr_free "_verbose" AOther _ eq_refl).
    cbn [__dict__ _broker trace].
    rewrite (dict_set_fresh "_verbose").
    2: { rewrite !fmap_app, !elem_of_app. intros [[Hin|Hin]|Hin].
         - cbn in Hin. rewrite !elem_of_cons, elem_of_nil in Hin.
           by destruct Hin as [?|[?|?]].
         - apply (Hpriv "_verbose"); [by rewrite fmap_described in Hin|].
           unfold private_names. rewrite !elem_of_cons. tauto.
         - cbn in Hin. rewrite !elem_of_cons, elem_of_nil in Hin.
           by destruct Hin as [?|?]. }
    reflexivity.
  - cbn [__dict__ _broker trace store]. split_and!.
    + by rewrite <- !app_assoc.
    + done.
    + intros k f Hin. rewrite (foldl_insert_lookup _ _ _ k f) by done.
      cbn. apply (proj1 (list.Forall_forall _ _) Hser) in Hin.
      cbn in Hin. by destruct Hin as [doc ->].
    + intros k Hk. by apply foldl_insert_notin.
Qed.

Lemma init_variable_collection key val c self :
  d_compositeType val = Some c →
  c ∈ collection_types →
  ∃ e, init_variable key val self = (Raise e, self).
Proof.
  intros Hc Hin. unfold init_variable. unfold_M. rewrite Hc.
  destruct (match d_ioType val with
            | Some n => _
            | None => _
            end) as [io_type|e]; [|by eexists].
  unfold collection_types in Hin.
  rewrite !elem_of_cons, elem_of_nil in Hin.
  destruct Hin as [->|[->|[->|[]]]].
  - change (class_of_name "FieldCollection") with (Ok C_FieldCollection).
    destruct (composite_value val) as [v|e]; by eexists.
  - change (class_of_name "BreakerStateField") with (Ok C_BreakerStateField).
    destruct (composite_value val) as [v|e]; by eexists.
  - change (class_of_name "DisconnectorStateField")
      with (Ok C_DisconnectorStateField).
    destruct (composite_value val) as [v|e]; [|by eexists]. cbn.
    pose proof (DisconnectorStateField_new_never_ok key io_type v
                  (d_hide val)) as Hnew.
    destruct (DisconnectorStateField_new _ _ _ _); [done|by eexists].
Qed.

Lemma for_each_raises {S A} (P : S → Prop) (l : list A)
    (body : A → M S unit) x :
  x ∈ l →
  (∀ y, stable P (body y)) →
  (∀ s, ∃ e s', body x s = (Raise e, s')) →
  ∀ s, P s → ∃ e s', for_each l body s = (Raise e, s') ∧ P s'.
Proof.
  intros Hx Hstable Hraise.
  induction l as [|y l IH]; [by apply elem_of_nil in Hx|].
  intros s HP. rewrite for_each_cons.
  destruct (body y s) as [[[]|e] s1] eqn:Hy.
  - apply elem_of_cons in Hx as [->|Hx].
    + destruct (Hraise s) as (e & s' & He). congruence.
    + apply IH; [done|]. by apply (Hstable y s _ _ HP Hy).
  - exists e, s1. split; [done|]. by apply (Hstable y s _ _ HP Hy).
Qed.

(** X20: the three collection classes cannot be named in a configuration.
    If any variable asks for the composite type [FieldCollection],
    [BreakerStateField] or [DisconnectorStateField], [Process.__init__]
    raises while the fields are being built: nothing has been written to the
    store and no operation on it has been attempted. *)
Theorem collections_cannot_be_configured broker data key val c :
  (key, val) ∈ variables data →
  d_compositeType val = Some c →
  c ∈ collection_types →
  ∃ e self',
    Process__init__ broker data new_process = (Raise e, self') ∧
    _broker self' = broker ∧
    trace self' = [].
Proof.
  intros Hin Hc Hcol.
  set (P := λ self : Process, _broker self = broker ∧ trace self = []).
  assert (∀ y, stable P ((λ '(key, val), init_variable key val) y)) as Hst.
  { intros [k v]. unfold init_variable.
    apply stable_bind; [apply stable_lift_result|intros io_type].
    apply stable_bind; [apply stable_lift_result|intros [var_type v']].
    apply stable_bind; [apply stable_lift_result|intros var].
    apply stable_setattr, stable_modify. by intros self. }
  destruct (for_each_raises P (variables data)
              (λ '(key, val), init_variable key val) (key, val) Hin Hst)
    with (s := mkProcess [("_broker", AOther); ("_factor", AOther)] broker [])
    as (e & self' & Hrun & Hb & Htr); [|done|].
  { intros s. destruct (init_variable_collection key val c s Hc Hcol)
      as [e He]. by exists e, s. }
  exists e, self'. split; [|done].
  unfold Process__init__.
  rewrite (bind_run _ _ _ tt
             (mkProcess [("_broker", AOther)] (mkBroker false ∅) []))
    by done.
  cbn beta.
  rewrite (bind_run _ _ _ tt (mkProcess [("_broker", AOther)] broker []))
    by done.
  cbn beta. apply bind_raise.
  rewrite bound_method_free by done.
  unfold _init_all_fields.
  rewrite (bind_run _ _ _ tt
             (mkProcess [("_broker", AOther); ("_factor", AOther)] broker []))
    by done.
  cbn beta. by apply bind_raise.
Qed.

Lemma broker_kept_by_pull key payload :
  ∀ b, stable (λ self : Process, _broker self = b) (fromJSON key payload).
Proof.
  intros b. unfold fromJSON.
  apply stable_bind.
  { intros self r self'. unfold Process_getattr.
    destruct (dict_get key (__dict__ self)); by intros ? [= _ <-]. }
  intros [f|]; [|apply stable_raise].
  apply stable_bind; [apply stable_lift_result|intros v].
  apply stable_modify. by intros self.
Qed.

(** X21: each direction keeps to its side.  A pull, whether it returns or
    raises, leaves the store and the reachability of the broker as they
    were; a push, forced or not, whether it returns or raises, leaves every
    attribute of the process as it was. *)
Theorem pull_and_push_keep_to_their_side (force_all : bool) self :
  _broker (_retrieve_fields self).2 = _broker self
  ∧ __dict__ (_publish_fields force_all self).2 = __dict__ self.
Proof.
  split.
  - assert (stable (λ s : Process, _broker s = _broker self)
                   _retrieve_fields) as Hst.
    { unfold _retrieve_fields.
      apply stable_bind; [apply stable_get_state|intros self0].
      apply stable_bind; [apply stable_lift_result|intros selected].
      apply stable_for_each. intros [k f]. unfold pull_body.
      apply stable_bind; [|intros val; apply broker_kept_by_pull].
      unfold broker_get.
      apply stable_bind; [apply stable_get_state|intros self1].
      destruct (reachable (_broker self1)); [|apply stable_raise].
      apply stable_bind; [|intros _; apply stable_ret].
      apply stable_modify. by intros s. }
    destruct (_retrieve_fields self) as [r self'] eqn:Hrun.
    by apply (Hst self r self').
  - assert (stable (λ s : Process, __dict__ s = __dict__ self)
                   (_publish_fields force_all)) as Hst.
    { apply stable_publish. intros s s'. congruence. }
    destruct (_publish_fields force_all self) as [r self'] eqn:Hrun.
    by apply (Hst self r self').
Qed.

Lemma set_value_same (f : Field) : set_value (value f) f = f.
Proof. by destruct f. Qed.

(** X22: a pull that follows a forced push gives every input field the
    value it already has.  In a process whose attribute names are distinct
    and whose fields all have an io type, over a reachable store, and with
    a codec that reads back what it writes for the values the fields hold,
    the forced push of all fields followed by a pull returns and leaves the
    attributes of the process exactly as they were. *)
Theorem pull_after_forced_push_changes_nothing d st tr :
  NoDup (d.*1) →
  typed d = true →
  (∀ k f, (k, AField f) ∈ d →
          ∃ doc, json_dumps (value f) = Some doc
                 ∧ json_loads doc = Some (value f)) →
  ∃ st',
    (_publish_fields true;; _retrieve_fields)
      (mkProcess d (mkBroker true st) tr)
    = (Ok tt,
       mkProcess d (mkBroker true st')
         (tr ++ (push_event <$> fields_where (λ _, true) d) ++ pulls d)).
Proof.
  intros Hnd Hty Hcodec.
  set (st' := foldl (λ st kf, <[kf.1 := default "" (json_dumps (value kf.2))]> st)
                    st (fields_where (λ _, true) d)).
  assert (∀ k f, (k, AField f) ∈ d → pulled_value st' k = Some (value f))
    as Hpulled.
  { intros k f Hin. destruct (Hcodec k f Hin) as (doc & Hdoc & Hload).
    unfold pulled_value, st'.
    rewrite (foldl_insert_lookup _ _ _ k f).
    - cbn. by rewrite Hdoc.
    - by apply fields_where_keys_NoDup.
    - by apply elem_of_fields_where. }
  exists st'.
  assert (forallb
            (λ kf, bool_decide (is_Some (json_dumps (value kf.2))))
            (fields_where (λ _, true) d) = true) as Hser.
  { apply forallb_forall. intros [k f] Hin%list_elem_of_In.
    apply elem_of_fields_where in Hin as [Hin _].
    destruct (Hcodec k f Hin) as (doc & Hdoc & _).
    apply bool_decide_eq_true_2. cbn. by rewrite Hdoc. }
  rewrite (bind_run _ _ _ _ _
             (forced_push_writes_every_typed_field d st tr Hty Hser)).
  cbn beta. fold st'.
  rewrite _retrieve_fields_ok; [|done|done|done|].
  - cbn [store]. rewrite <- app_assoc. do 2 f_equal.
    apply list_eq. intros i. rewrite list_lookup_fmap.
    destruct (d !! i) as [[k [f|]]|] eqn:Hi; cbn; [|done|done].
    destruct (is_input f); [|done].
    rewrite (Hpulled k f) by by eapply list_elem_of_lookup_2.
    cbn. by rewrite set_value_same.
  - cbn [store]. unfold inputs_available. apply forallb_forall.
    intros [k f] Hin%list_elem_of_In.
    apply elem_of_fields_where in Hin as [Hin _].
    apply bool_decide_eq_true_2. cbn. by rewrite (Hpulled k f).
Qed.

End StartupProperties.

Lemma startup_publishes_every_variable_witness :
  let fs :=
    [("HYDRO_CMD_PO_EAU",
      Variables.Field_init "HYDRO_CMD_PO_EAU" (Some Variables.DIGITAL_INPUT)
        (Variables.PBool false) None);
     ("HYDRO_RM_PO_EAU",
      Variables.Field_init "HYDRO_RM_PO_EAU" (Some Variables.DIGITAL_OUTPUT)
        (Variables.PBool true) (Some true));
     ("HYDRO_TT_EAU",
      Variables.Field_init "HYDRO_TT_EAU" (Some Variables.ANALOG_OUTPUT)
        Variables.PNone None)] in
  mapM Startup.described_field (Simulator.variables Startup.example_config)
  = Some fs
  ∧ NoDup (fs.*1)
  ∧ ∃ self',
      Simulator.Process__init__ (H := Simulator.bool_json)
        Simulator.empty_broker Startup.example_config Simulator.new_process
      = (Ok tt, self') ∧
      Simulator.store (Simulator._broker self') !! "HYDRO_CMD_PO_EAU"
      = Some "false" ∧
      Simulator.store (Simulator._broker self') !! "HYDRO_TT_EAU"
      = Some "null".
Proof.
  intros fs.
  assert (mapM Startup.described_field
            (Simulator.variables Startup.example_config) = Some fs) as Hfs
    by reflexivity.
  assert (NoDup (fs.*1)) as Hnd by compute_done.
  split; [exact Hfs|]. split; [exact Hnd|].
  destruct (startup_publishes_every_variable (H := Simulator.bool_json)
              Simulator.empty_broker Startup.example_config fs Hfs Hnd)
    as (self' & Hrun & _ & _ & Hstore & _).
  - intros k Hk. unfold Startup.reserved_names, Startup.private_names.
    cbn in Hk. rewrite !elem_of_cons, elem_of_nil in Hk. cbn [app].
    rewrite !not_elem_of_cons.
    destruct Hk as [->|[->|[->|[]]]]; split_and!; try done;
      apply not_elem_of_nil.
  - repeat constructor; cbn; eauto.
  - reflexivity.
  - exists self'. split; [exact Hrun|]. split.
    + apply (Hstore "HYDRO_CMD_PO_EAU"
               (Variables.Field_init "HYDRO_CMD_PO_EAU"
                  (Some Variables.DIGITAL_INPUT) (Variables.PBool false)
                  None)).
      apply elem_of_cons. by left.
    + apply (Hstore "HYDRO_TT_EAU"
               (Variables.Field_init "HYDRO_TT_EAU"
                  (Some Variables.ANALOG_OUTPUT) Variables.PNone None)).
      do 2 (apply elem_of_cons; right). apply elem_of_cons. by left.
Defined.

(** What the reserved names do to start-up.  A variable named [env] is
    refused by [setattr], before anything is published; a field named
    [_publish_fields] stands where the method is looked up, and nothing is
    published; a field named [process] is published, and then stands where
    the generator is looked up. *)
Lemma reserved_names_break_startup :
  Simulator.Process__init__ (H := Simulator.bool_json) Simulator.empty_broker
    (Startup.config_of_name "env") Simulator.new_process
  = (Raise AttributeError,
     Simulator.mkProcess
       [("_broker", Simulator.AOther); ("_factor", Simulator.AOther)]
       Simulator.empty_broker [])
  ∧ (let self' :=
       (Simulator.Process__init__ (H := Simulator.bool_json)
          Simulator.empty_broker (Startup.config_of_name "_publish_fields")
          Simulator.new_process) in
     self'.1 = Raise TypeError ∧ Simulator.trace self'.2 = [])
  ∧ (let self' :=
       (Simulator.Process__init__ (H := Simulator.bool_json)
          Simulator.empty_broker (Startup.config_of_name "process")
          Simulator.new_process) in
     self'.1 = Raise TypeError
     ∧ Simulator.trace self'.2 = [Simulator.EvSet "process" "false"]).
Proof. cbv zeta. split_and!; reflexivity. Qed.

Lemma collections_cannot_be_configured_witness :
  ("HYDRO_DJ",
   Simulator.mkVarDef (Some "DIGITAL_INPUT") None (Some "BreakerStateField")
     (Some (Variables.PStr "BreakerStateType.OPEN")))
  ∈ Simulator.variables Startup.breaker_config
  ∧ "BreakerStateField" ∈ Startup.collection_types
  ∧ ∃ e self',
      Simulator.Process__init__ (H := Simulator.bool_json)
        Simulator.empty_broker Startup.breaker_config Simulator.new_process
      = (Raise e, self') ∧
      Simulator._broker self' = Simulator.empty_broker ∧
      Simulator.trace self' = [].
Proof.
  assert (("HYDRO_DJ",
           Simulator.mkVarDef (Some "DIGITAL_INPUT") None
             (Some "BreakerStateField")
             (Some (Variables.PStr "BreakerStateType.OPEN")))
          ∈ Simulator.variables Startup.breaker_config) as Hin.
  { apply elem_of_cons. right. apply elem_of_cons. by left. }
  assert ("BreakerStateField" ∈ Startup.collection_types) as Hcol.
  { apply elem_of_cons. right. apply elem_of_cons. by left. }
  split; [exact Hin|]. split; [exact Hcol|].
  apply (collections_cannot_be_configured (H := Simulator.bool_json)
           Simulator.empty_broker Startup.breaker_config _ _
           "BreakerStateField" Hin eq_refl Hcol).
Defined.

Lemma pull_after_forced_push_changes_nothing_witness :
  NoDup (Simulator.example_dict.*1)
  ∧ Simulator.typed Simulator.example_dict = true
  ∧ ∃ st',
      (Simulator._publish_fields (H := Simulator.bool_json) true;;
       Simulator._retrieve_fields (H := Simulator.bool_json))
        (Simulator.mkProcess Simulator.example_dict
           (Simulator.mkBroker true ∅) [])
      = (Ok tt,
         Simulator.mkProcess Simulator.example_dict
           (Simulator.mkBroker true st')
           ([] ++ (Simulator.push_event (H := Simulator.bool_json)
                     <$> Simulator.fields_where (λ _, true)
                           Simulator.example_dict)
               ++ Simulator.pulls Simulator.example_dict)).
Proof.
  assert (NoDup (Simulator.example_dict.*1)) as Hnd by compute_done.
  assert (Simulator.typed Simulator.example_dict = true) as Hty
    by reflexivity.
  split; [exact Hnd|]. split; [exact Hty|].
  apply (pull_after_forced_push_changes_nothing (H := Simulator.bool_json)
           Simulator.example_dict ∅ [] Hnd Hty).
  intros k f Hin. unfold Simulator.example_dict in Hin.
  rewrite !elem_of_cons, elem_of_nil in Hin.
  destruct Hin as [Heq|[Heq|[Heq|[Heq|[Heq|[]]]]]]; try discriminate Heq.
  - injection Heq as -> ->. by exists "false".
  - injection Heq as -> ->. by exists "false".
  - injection Heq as -> ->. by exists "true".
Defined.

(** * Fluid fields and breakers *)

Section FluidQuantities.
Import Variables.
Local Open Scope Qc_scope.

Lemma scaled_lookup t (d : fluid_dict) key :
  NoDup (d.*1) →
  (list_to_map (scaled t d) : gmap string Qc) !! key
  = v ← (list_to_map d : gmap string Qc) !! key;
    if decide (v = 0) then None else Some (v / t).
Proof.
  induction d as [|[k v] d IH]; [done|].
  rewrite fmap_cons, list.NoDup_cons. cbn [fst]. intros [Hk Hnd].
  rewrite scaled_cons, list_to_map_cons.
  destruct (decide (k = key)) as [->|Hne].
  - rewrite lookup_insert_eq. cbn.
    case_decide; [|by rewrite list_to_map_cons, lookup_insert_eq].
    apply not_elem_of_list_to_map_1. rewrite scaled_keys.
    intros ([k' v'] & -> & [_ Hin]%list_elem_of_filter)%list_elem_of_fmap.
    apply Hk, list_elem_of_fmap. by exists (k', v').
  - rewrite lookup_insert_ne by done.
    case_decide; [by apply IH|].
    rewrite list_to_map_cons, lookup_insert_ne by done. by apply IH.
Qed.

(** X23: after a composition with distinct keys and a positive total has
    been assigned to [fluidDict], [fluidQuantity] returns, for every key,
    the assigned quantity divided by the total: zero for a key that was
    assigned zero, although its entry has been dropped, and zero for a key
    that was never assigned. *)
Theorem fluidQuantity_after_assignment (self : FluidField) d key :
  d ≠ [] →
  NoDup (d.*1) →
  0 < sum_values d →
  fluidQuantity key (fluidDict_setter (Some d) self)
  = Ok (from_option id 0 ((list_to_map d : gmap string Qc) !! key)
        / sum_values d).
Proof.
  intros Hne Hnd Hpos. unfold fluidQuantity, fluidDict_setter. cbn.
  destruct d as [|kv d]; [done|]. cbn [normalize_or_None].
  rewrite _normalize_pos, scaled_lookup by done. f_equal.
  destruct (list_to_map (kv :: d) !! key) as [v|]; cbn.
  - case_decide as Hv; [|done]. cbn. rewrite Hv. unfold Qcdiv. ring.
  - unfold Qcdiv. ring.
Qed.

(** X24: a composition that is not empty but whose total is not positive
    is stored as the empty dictionary, in which every quantity reads as
    zero; assigning the stored composition back to [fluidDict] replaces it
    by [None], after which [fluidQuantity] raises [AttributeError]. *)
Theorem empty_composition_is_lost_on_reassignment (self : FluidField) d key :
  d ≠ [] →
  ¬ 0 < sum_values d →
  fluidDict (fluidDict_setter (Some d) self) = Some []
  ∧ fluidQuantity key (fluidDict_setter (Some d) self) = Ok 0
  ∧ fluidDict (fluidDict_setter (fluidDict (fluidDict_setter (Some d) self))
                                (fluidDict_setter (Some d) self)) = None
  ∧ fluidQuantity key
      (fluidDict_setter (fluidDict (fluidDict_setter (Some d) self))
                        (fluidDict_setter (Some d) self))
    = Raise AttributeError.
Proof.
  intros Hne Hpos. unfold fluidQuantity, fluidDict_setter, fluidDict. cbn.
  destruct d as [|kv d]; [done|]. cbn [normalize_or_None].
  rewrite _normalize_nonpos by done. done.
Qed.

End FluidQuantities.

Lemma fluidQuantity_after_assignment_witness :
  Variables.example_mix ≠ []
  ∧ NoDup (Variables.example_mix.*1)
  ∧ (Q2Qc 0 < Variables.sum_values Variables.example_mix)%Qc
  ∧ Variables.fluidQuantity "C"
      (Variables.fluidDict_setter (Some Variables.example_mix)
         Variables.example_fluid)
    = Ok (from_option id (Q2Qc 0)
            ((list_to_map Variables.example_mix : gmap string Qc) !! "C")
          / Variables.sum_values Variables.example_mix)%Qc.
Proof.
  assert (Variables.example_mix ≠ []) as Hne by discriminate.
  assert (NoDup (Variables.example_mix.*1)) as Hnd by compute_done.
  assert (Q2Qc 0 < Variables.sum_values Variables.example_mix)%Qc as Hpos
    by done.
  split; [exact Hne|]. split; [exact Hnd|]. split; [exact Hpos|].
  apply (fluidQuantity_after_assignment Variables.example_fluid
           Variables.example_mix "C" Hne Hnd Hpos).
Defined.

Lemma empty_composition_is_lost_on_reassignment_witness :
  [("A", num 0); ("B", num 0)] ≠ []
  ∧ ¬ (Q2Qc 0 < Variables.sum_values [("A", num 0); ("B", num 0)])%Qc
  ∧ Variables.fluidQuantity "A"
      (Variables.fluidDict_setter (Some [("A", num 0); ("B", num 0)])
         Variables.example_fluid) = Ok (Q2Qc 0)
  ∧ Variables.fluidQuantity "A"
      (Variables.fluidDict_setter
         (Variables.fluidDict
            (Variables.fluidDict_setter (Some [("A", num 0); ("B", num 0)])
               Variables.example_fluid))
         (Variables.fluidDict_setter (Some [("A", num 0); ("B", num 0)])
            Variables.example_fluid))
    = Raise AttributeError.
Proof.
  assert ([("A", num 0); ("B", num 0)] ≠ ([] : Variables.fluid_dict)) as Hne
    by discriminate.
  assert (¬ (Q2Qc 0 < Variables.sum_values [("A", num 0); ("B", num 0)])%Qc)
    as Hpos by (intros Hlt; by vm_compute in Hlt).
  split; [exact Hne|]. split; [exact Hpos|].
  destruct (empty_composition_is_lost_on_reassignment Variables.example_fluid
              [("A", num 0); ("B", num 0)] "A" Hne Hpos)
    as (_ & Hzero & _ & Hraise).
  split; [exact Hzero|exact Hraise].
Defined.

Section BreakerProperties.
Import Variables.

Lemma check_members_Fields (members : list pyref) :
  Forall (λ o, isinstance_Field o = true) members →
  check_members members = Ok tt.
Proof.
  induction 1 as [|o members Ho _ IH]; [done|]. cbn. by rewrite Ho.
Qed.

(** X25: a breaker needs exactly two members.  With any other number of
    members, all of them [Field] objects, the constructor raises
    [ValueError] when it assigns the initial state, and so does every later
    assignment of a state; in both cases no member has been written. *)
Theorem breaker_needs_two_members (members : list pyref) s (hide : bool) h :
  Forall (λ o, isinstance_Field o = true) members →
  length members ≠ 2 →
  BreakerStateField__init__ members (PBreaker s) hide h
  = (Raise ValueError, h)
  ∧ BreakerStateField_value_setter (PBreaker s) (mkFieldCollection members) h
    = (Raise ValueError, h).
Proof.
  intros Hall Hlen.
  assert (BreakerStateField_value_setter (PBreaker s)
            (mkFieldCollection members) h = (Raise ValueError, h)) as Hset.
  { unfold BreakerStateField_value_setter. cbn.
    by destruct members as [|? [|? [|? ?]]]. }
  split; [|done].
  unfold BreakerStateField__init__, FieldCollection__init__. cbn.
  rewrite (check_members_Fields _ Hall). unfold_M. cbn.
  fold (BreakerStateField_value_setter (PBreaker s)
          (mkFieldCollection members)).
  by rewrite Hset.
Qed.

(** X26: reading the state of a breaker never writes, looks only at the
    first two members, and succeeds whenever both hold [True], [False], [1]
    or [0]: the state returned is the one whose pair of flags these two
    values are, so that every such pair denotes a state. *)
Theorem breaker_state_of_every_pair_of_flags h l0 l1 rest (b0 b1 : bool) :
  as_bit (value (h l0)) = Some b0 →
  as_bit (value (h l1)) = Some b1 →
  ∃ s,
    BreakerStateField_value (mkFieldCollection (RField l0 :: RField l1 :: rest))
                            h
    = (Ok (PBreaker s), h)
    ∧ BreakerStateType_value s = (b0, b1).
Proof.
  intros H0 H1. unfold BreakerStateField_value, BreakerStateType_of_value.
  unfold_M. cbn. rewrite H0, H1.
  destruct b0, b1; by eexists.
Qed.

End BreakerProperties.

Lemma breaker_needs_two_members_witness :
  Forall (λ o, Variables.isinstance_Field o = true)
         [Variables.RField Variables.ref_a]
  ∧ length [Variables.RField Variables.ref_a] ≠ 2
  ∧ Variables.BreakerStateField__init__ [Variables.RField Variables.ref_a]
      (Variables.PBreaker Variables.B_OPEN) false Variables.example_heap
    = (Raise ValueError, Variables.example_heap).
Proof.
  assert (Forall (λ o, Variables.isinstance_Field o = true)
                 [Variables.RField Variables.ref_a]) as Hall
    by (by repeat constructor).
  assert (length [Variables.RField Variables.ref_a] ≠ 2) as Hlen
    by discriminate.
  split; [exact Hall|]. split; [exact Hlen|].
  destruct (breaker_needs_two_members [Variables.RField Variables.ref_a]
              Variables.B_OPEN false Variables.example_heap Hall Hlen)
    as [Hinit _].
  exact Hinit.
Defined.

Lemma breaker_state_of_every_pair_of_flags_witness :
  Variables.as_bit
    (Variables.value
       (Variables.write_value Variables.ref_b (Variables.PNum (Q2Qc 1))
          Variables.example_heap Variables.ref_a)) = Some false
  ∧ Variables.as_bit
      (Variables.value
         (Variables.write_value Variables.ref_b (Variables.PNum (Q2Qc 1))
            Variables.example_heap Variables.ref_b)) = Some true
  ∧ ∃ s,
      Variables.BreakerStateField_value
        (Variables.mkFieldCollection
           [Variables.RField Variables.ref_a; Variables.RField Variables.ref_b])
        (Variables.write_value Variables.ref_b (Variables.PNum (Q2Qc 1))
           Variables.example_heap)
      = (Ok (Variables.PBreaker s),
         Variables.write_value Variables.ref_b (Variables.PNum (Q2Qc 1))
           Variables.example_heap)
      ∧ Variables.BreakerStateType_value s = (false, true).
Proof.
  split; [reflexivity|]. split; [reflexivity|].
  apply (breaker_state_of_every_pair_of_flags
           (Variables.write_value Variables.ref_b (Variables.PNum (Q2Qc 1))
              Variables.example_heap)
           Variables.ref_a Variables.ref_b [] false true);
    reflexivity.
Defined.

(** * The MODBUS data block *)

Section ModbusProperties.
Import Variables Simulator Modbus.
Context `{Wire}.

Variable self : RedisDataBlock.
Variable address : Z.

(** The document written for a coil. *)
Local Abbreviation coil_doc := (λ b : bool, if b then "true" else "false").

Lemma redis_decode_coil (b : bool) :
  redis_decode (Some (coil_doc b)) = Ok (PBool b).
Proof. by destruct b. Qed.

Lemma write_coils_lookup (names : list string) (bs : list bool)
    (st : gmap string string) i name b :
  NoDup names →
  names !! i = Some name →
  bs !! i = Some b →
  foldl (λ st nb, <[nb.1 := coil_doc nb.2]> st) st (zip names bs) !! name
  = Some (coil_doc b).
Proof.
  revert bs st i. induction names as [|n names IH]; intros bs st i Hnd Hn Hb;
    [done|].
  apply list.NoDup_cons in Hnd as [Hnotin Hnd].
  destruct bs as [|b0 bs]; [done|]. cbn [zip zip_with foldl fst snd].
  destruct i as [|i]; cbn in Hn, Hb.
  - injection Hn as ->. injection Hb as ->.
    assert (∀ (l : list (string * bool)) (st' : gmap string string),
              name ∉ l.*1 →
              foldl (λ st nb, <[nb.1 := coil_doc nb.2]> st) st' l !! name
              = st' !! name) as Hkeep.
    { induction l as [|[n' b'] l IHl]; intros st' Hl; [done|].
      rewrite fmap_cons in Hl. apply not_elem_of_cons in Hl as [Hne Hl].
      cbn. rewrite IHl by done. by rewrite lookup_insert_ne. }
    rewrite Hkeep; [by rewrite lookup_insert_eq|].
    intros Hin. apply Hnotin.
    apply list_elem_of_fmap in Hin as ([n' b'] & -> & Hin).
    by apply elem_of_zip_l in Hin.
  - by apply (IH bs _ i).
Qed.

Lemma setValues_coils (names : list string) (bs : list bool) start st :
  length names = length bs →
  (∀ i name, names !! i = Some name →
             _toml_variables self !! (address + Z.of_nat (start + i) - 1)%Z
             = Some name) →
  for_each (enumerate start (PBool <$> bs)) (λ '(offset, val),
    let real_addr := (address + Z.of_nat offset - 1)%Z in
    var_name ← lift_result (variable_at self real_addr);
    value ← lift_result (redis_encode val);
    client_set var_name value) (mkBroker true st)
  = (Ok tt,
     mkBroker true
       (foldl (λ st nb, <[nb.1 := coil_doc nb.2]> st) st (zip names bs))).
Proof.
  revert names start st.
  induction bs as [|b bs IH]; intros names start st Hlen Hmap.
  { by destruct names. }
  destruct names as [|n names]; [done|]. injection Hlen as Hlen.
  rewrite fmap_cons. cbn [enumerate]. rewrite for_each_cons.
  unfold variable_at, client_set. unfold_M. cbn.
  pose proof (Hmap 0 n eq_refl) as H0. rewrite Nat.add_0_r in H0.
  rewrite H0.
  assert (∀ i name, names !! i = Some name →
            _toml_variables self !! (address + Z.of_nat (S start + i) - 1)%Z
            = Some name) as Hmap'.
  { intros i name Hi. rewrite Nat.add_succ_l, <- Nat.add_succ_r.
    by apply (Hmap (S i)). }
  destruct b; cbn; by apply (IH names (S start)).
Qed.

Lemma getValues_coils (names : list string) (bs : list bool) start st
    results :
  length names = length bs →
  (∀ i name, names !! i = Some name →
             _toml_variables self !! (address + Z.of_nat (start + i) - 1)%Z
             = Some name) →
  (∀ i name b, names !! i = Some name → bs !! i = Some b →
               st !! name = Some (coil_doc b)) →
  getValues_loop self address (seq start (length bs)) results
                 (mkBroker true st)
  = (Ok (results ++ (PBool <$> bs)), mkBroker true st).
Proof.
  revert names start results.
  induction bs as [|b bs IH]; intros names start results Hlen Hmap Hst.
  { cbn. by rewrite app_nil_r. }
  destruct names as [|n names]; [done|]. injection Hlen as Hlen.
  cbn [length seq getValues_loop].
  unfold variable_at, client_get. unfold_M. cbn.
  pose proof (Hmap 0 n eq_refl) as H0. rewrite Nat.add_0_r in H0.
  rewrite H0. cbn. rewrite (Hst 0 n b eq_refl eq_refl), redis_decode_coil.
  cbn. rewrite (IH names (S start)); [|done| |].
  - by rewrite <- app_assoc.
  - intros i name Hi. rewrite Nat.add_succ_l, <- Nat.add_succ_r.
    by apply (Hmap (S i)).
  - intros i name b' Hi Hb. by apply (Hst (S i)).
Qed.

(** X27: coils read back as written.  When the addresses
    [address - 1], [address], ... are mapped to distinct variables and the
    store is reachable, [setValues] of a list of booleans followed by
    [getValues] of as many values returns that list: the store holds the
    document [true] or [false] under each variable. *)
Theorem coils_read_back_as_written (names : list string) (bs : list bool)
    (st : gmap string string) :
  length names = length bs →
  NoDup names →
  (∀ i name, names !! i = Some name →
             _toml_variables self !! (address + Z.of_nat i - 1)%Z
             = Some name) →
  ∃ st',
    (setValues self address (PBool <$> bs);;
     getValues self address (Z.of_nat (length bs))) (mkBroker true st)
    = (Ok (PBool <$> bs), mkBroker true st')
    ∧ ∀ i name (b : bool), names !! i = Some name → bs !! i = Some b →
                           st' !! name = Some (if b then "true" else "false").
Proof.
  intros Hlen Hnd Hmap. eexists. split.
  - unfold setValues, getValues.
    rewrite (bind_run _ _ _ _ _ (setValues_coils names bs 0 st Hlen Hmap)).
    cbn beta. rewrite Nat2Z.id.
    rewrite (getValues_coils names bs 0 _ []); [done|done|done|].
    intros i name b Hi Hb. by apply (write_coils_lookup names bs st i).
  - intros i name b Hi Hb. by apply (write_coils_lookup names bs st i).
Qed.

Lemma py_round_nearest (q : Qc) :
  (num (py_round q) - half ≤ q ≤ num (py_round q) + half)%Qc.
Proof.
  unfold py_round.
  pose proof (Qfloor_le q) as Hlo. pose proof (Qlt_floor q) as Hhi.
  rewrite inject_Z_plus in Hhi.
  assert (num (Qfloor q + 1) = num (Qfloor q) + Q2Qc 1)%Qc as Hsucc.
  { apply Qc_is_canon. unfold num, Qcplus, Q2Qc. cbn [this].
    rewrite !Qred_correct, inject_Z_plus. reflexivity. }
  assert (Q2Qc (inject_Z (Qfloor q)) ≤ q)%Qc as Hlo'.
  { unfold Qcle, Q2Qc. cbn [this]. by rewrite Qred_correct. }
  assert (q < Q2Qc (inject_Z (Qfloor q)) + Q2Qc 1)%Qc as Hhi'.
  { unfold Qclt, Qcplus, Q2Qc. cbn [this]. by rewrite !Qred_correct. }
  clear Hlo Hhi. fold (num (Qfloor q)) in Hlo', Hhi'.
  repeat case_decide; try destruct (Z.even _); rewrite ?Hsucc.
  all: generalize dependent (num (Qfloor q)); intros k; intros.
  all: unfold half in *; split; qc_lra.
Qed.

Lemma py_round_int (z : Z) : py_round (num z) = z.
Proof.
  unfold py_round.
  assert (Qfloor (num z) = z) as ->.
  { unfold num, Q2Qc. cbn [this]. by rewrite Qred_correct, Qfloor_Z. }
  rewrite decide_True; [done|].
  assert (num z - num z = Q2Qc 0)%Qc as -> by ring. done.
Qed.

(** The bytes stored for an encoded value. *)
Local Abbreviation stored_bytes :=
  (λ p : encoded, match p with Bytes s => s | Int z => bytes_of_int z end).

(** Integers among the rationals. *)
Lemma num_mult (x y : Z) : num (x * y) = (num x * num y)%Qc.
Proof.
  apply Qc_is_canon. unfold num, Qcmult, Q2Qc. cbn [this].
  rewrite !Qred_correct. by rewrite inject_Z_mult.
Qed.

Lemma num_opp (x : Z) : num (- x) = (- num x)%Qc.
Proof.
  apply Qc_is_canon. unfold num, Qcopp, Q2Qc. cbn [this].
  rewrite !Qred_correct. by rewrite inject_Z_opp.
Qed.

Lemma num_le (x y : Z) : (x ≤ y)%Z → (num x ≤ num y)%Qc.
Proof.
  intros Hxy. unfold Qcle, num, Q2Qc. cbn [this]. rewrite !Qred_correct.
  by rewrite <- Zle_Qle.
Qed.

Lemma num_lt (x y : Z) : (x < y)%Z → (num x < num y)%Qc.
Proof.
  intros Hxy. unfold Qclt, num, Q2Qc. cbn [this]. rewrite !Qred_correct.
  by rewrite <- Zlt_Qlt.
Qed.

Lemma num_nonzero (x : Z) : x ≠ 0%Z → num x ≠ Q2Qc 0.
Proof.
  intros Hx E. apply Hx. apply Qc_eq_Qeq in E.
  unfold num, Q2Qc in E. cbn [this] in E. rewrite !Qred_correct in E.
  change 0%Q with (inject_Z 0) in E. by apply inject_Z_injective.
Qed.

Lemma Qnum_num (z : Z) : Qnum (num z) = z.
Proof.
  unfold num, Q2Qc. cbn [this]. rewrite Qred_identity; [done|].
  cbn. apply Z.gcd_1_r.
Qed.

Lemma Qden_num (z : Z) : Qden (num z) = 1%positive.
Proof.
  unfold num, Q2Qc. cbn [this]. rewrite Qred_identity; [done|].
  cbn. apply Z.gcd_1_r.
Qed.

Lemma pow2_nonneg (k : Z) : (0 ≤ k)%Z → pow2 k = num (2 ^ k).
Proof. intros. unfold pow2. by rewrite decide_True. Qed.

Lemma scaled_significand (m p : Z) :
  (0 < p)%Z → (num m / (/ num p))%Qc = num (m * p).
Proof.
  intros Hp. rewrite num_mult.
  assert (num p ≠ Q2Qc 0) as Hnz by (apply num_nonzero; lia).
  revert Hnz. generalize (num p), (num m). intros x a Hx. by field.
Qed.

Lemma significand_back (m p : Z) :
  (0 < p)%Z → (num (m * p) * / num p)%Qc = num m.
Proof.
  intros Hp.
  rewrite num_mult, <- Qcmult_assoc, Qcmult_inv_r, Qcmult_1_r; [done|].
  apply num_nonzero. lia.
Qed.

Lemma small_magnitude_is_double (m : Z) :
  (0 < m ≤ 2 ^ 53)%Z →
  let e := exponent m 1 in
  let quantum := pow2 (Z.max e (-1022) - 52) in
  (num (py_round (num m / quantum)%Qc) * quantum)%Qc = num m.
Proof.
  intros [Hpos Hle].
  assert (exponent m 1 = Z.log2 m) as ->.
  { unfold exponent. change (Z.log2 1) with 0%Z. rewrite Z.sub_0_r.
    rewrite decide_True; [done|].
    rewrite pow2_nonneg by apply Z.log2_nonneg.
    change (Q2Qc (m # 1)) with (num m). apply num_le.
    by apply Z.log2_spec. }
  cbv zeta.
  assert (0 ≤ Z.log2 m ≤ 53)%Z as [He0 He].
  { split; [apply Z.log2_nonneg|].
    change 53%Z with (Z.log2 (2 ^ 53)). by apply Z.log2_le_mono. }
  rewrite Z.max_l by lia.
  destruct (decide (Z.log2 m = 53%Z)) as [E|E].
  - assert (m = 2 ^ 53)%Z as ->.
    { pose proof (Z.log2_spec m Hpos) as [Hlo _]. rewrite E in Hlo. lia. }
    by vm_compute.
  - unfold pow2. destruct (decide (0 ≤ Z.log2 m - 52)%Z) as [Hk|Hk].
    + assert (Z.log2 m - 52 = 0)%Z as -> by lia.
      change (num (2 ^ 0)) with (Q2Qc 1).
      unfold Qcdiv. change (/ Q2Qc 1)%Qc with (Q2Qc 1).
      by rewrite !Qcmult_1_r, py_round_int.
    + assert (0 < 2 ^ (- (Z.log2 m - 52)))%Z as Hp
        by (apply Z.pow_pos_nonneg; lia).
      rewrite scaled_significand, py_round_int by done.
      by apply significand_back.
Qed.

(** Every [int] of magnitude up to 2 ** 53 is a double. *)
Lemma small_integers_are_doubles (z : Z) :
  (Z.abs z ≤ 2 ^ 53)%Z → float_of_number (num z) = Ok (num z).
Proof.
  intros Hz. unfold float_of_number. rewrite Qnum_num, Qden_num.
  case_decide as Hz0; [done|].
  change (Q2Qc (Z.abs z # 1)) with (num (Z.abs z)).
  rewrite small_magnitude_is_double by lia.
  rewrite decide_True.
  2: { rewrite pow2_nonneg by lia. apply num_lt.
       apply Z.le_lt_trans with (2 ^ 53)%Z; [done|].
       apply Z.pow_lt_mono_r; lia. }
  f_equal. case_decide.
  - f_equal. lia.
  - rewrite <- num_opp. f_equal. lia.
Qed.

(** A number is a double when [float] gives it back; on a given number
    this is decided by running the conversion. *)
Lemma float_of_number_check (q : Qc) :
  match float_of_number q with
  | Ok x => bool_decide (x = q)
  | Raise _ => false
  end = true →
  float_of_number q = Ok q.
Proof.
  destruct (float_of_number q) as [x|e]; [|done].
  by intros ->%bool_decide_eq_true.
Qed.

(** An [int] that no double holds exactly is rounded by [float] before
    [round] sees it: 2 ** 53 + 1 is encoded as 2 ** 53. *)
Lemma redis_encode_large_integer :
  redis_encode (PNum (num (2 ^ 53 + 1))) = Ok (Int (2 ^ 53)).
Proof. by vm_compute. Qed.

(** X28: registers hold integers.  Over a reachable store, a number that
    is a double ([float] leaves it as it is: every finite float is one, and so
    is an [int] that a double holds exactly, see
    [small_integers_are_doubles]), written to a mapped address, is stored as
    the integer nearest to it, a tie going to the even integer, and that
    integer is what [getValues] reads back, provided the client writes that
    integer as digits (neither [true] nor [false] nor nothing) and [float]
    reads those digits as that integer. *)
Theorem registers_hold_rounded_numbers name (q : Qc)
    (st : gmap string string) :
  _toml_variables self !! (address - 1)%Z = Some name →
  float_of_number q = Ok q →
  float (bytes_of_int (py_round q)) = Some (num (py_round q)) →
  bytes_of_int (py_round q) ∉ ["true"; "false"; EmptyString] →
  (setValues self address [PNum q];; getValues self address 1)
    (mkBroker true st)
  = (Ok [PNum (num (py_round q))],
     mkBroker true (<[name := bytes_of_int (py_round q)]> st))
  ∧ (num (py_round q) - half ≤ q ≤ num (py_round q) + half)%Qc.
Proof.
  intros Hmap Hdouble Hfloat Hdigits. split; [|apply py_round_nearest].
  rewrite !not_elem_of_cons in Hdigits.
  destruct Hdigits as (Ht & Hf & He & _).
  assert (redis_encode (PNum q) = Ok (Int (py_round q))) as Henc.
  { cbn [redis_encode]. rewrite Hdouble.
    case_decide as Hq; [|done]. rewrite Hq. by vm_compute. }
  assert (setValues self address [PNum q] (mkBroker true st)
          = (Ok tt, mkBroker true (<[name := bytes_of_int (py_round q)]> st)))
    as Hset.
  { unfold setValues. cbn [enumerate]. rewrite for_each_cons.
    unfold variable_at, client_set. unfold_M. cbv beta iota zeta.
    replace (address + Z.of_nat 0 - 1)%Z with (address - 1)%Z by lia.
    rewrite Hmap, Henc. done. }
  rewrite (bind_run _ _ _ _ _ Hset). cbn beta.
  unfold getValues. change (Z.to_nat 1) with 1%nat.
  cbn [seq getValues_loop].
  unfold variable_at, client_get. unfold_M. cbv beta iota zeta.
  replace (address + Z.of_nat 0 - 1)%Z with (address - 1)%Z by lia.
    rewrite Hmap. cbn.
  rewrite lookup_insert_eq. unfold redis_decode.
  rewrite !decide_False by done. rewrite Hfloat. cbn.
  by rewrite py_round_int.
Qed.

(** X29: a write that runs into an address which is not mapped raises
    [KeyError] after the values before it have been stored: the first value
    is in the store, the second and the following are not written.  A read
    over the same addresses raises and returns nothing, with [KeyError] when
    the first variable could be decoded. *)
Theorem unmapped_address_stops_a_write_half_way name v p w rest
    (st : gmap string string) :
  _toml_variables self !! (address - 1)%Z = Some name →
  _toml_variables self !! address = None →
  redis_encode v = Ok p →
  setValues self address (v :: w :: rest) (mkBroker true st)
  = (Raise KeyError, mkBroker true (<[name := stored_bytes p]> st))
  ∧ ∃ e,
      getValues self address 2 (mkBroker true st)
      = (Raise e, mkBroker true st)
      ∧ (is_ok (redis_decode (st !! name)) = true → e = KeyError).
Proof.
  intros Hmap Hnone Henc. split.
  - unfold setValues. cbn [enumerate]. rewrite !for_each_cons.
    unfold variable_at, client_set. unfold_M. cbv beta iota zeta.
    replace (address + Z.of_nat 0 - 1)%Z with (address - 1)%Z by lia.
    rewrite Hmap, Henc. cbn.
    replace (address + Z.of_nat 1 - 1)%Z with address by lia.
    by rewrite Hnone.
  - unfold getValues. change (Z.to_nat 2) with 2%nat.
    cbn [seq getValues_loop].
    unfold variable_at, client_get. unfold_M. cbv beta iota zeta.
    replace (address + Z.of_nat 0 - 1)%Z with (address - 1)%Z by lia.
    rewrite Hmap. cbn.
    destruct (redis_decode (st !! name)) as [v0|e0]; cbn.
    + replace (address + Z.of_nat 1 - 1)%Z with address by lia.
      rewrite Hnone. by exists KeyError.
    + by exists e0.
Qed.

(** X30: a variable that is mapped but absent from the store, or stored as
    the empty byte string, reads as 0 and nothing is raised; a variable
    whose stored bytes are neither [true] nor [false] nor a number makes
    the read raise [ValueError].  The store is not changed by a read. *)
Theorem read_of_a_variable_without_number name (st : gmap string string) :
  _toml_variables self !! (address - 1)%Z = Some name →
  (st !! name = None ∨ st !! name = Some EmptyString →
   getValues self address 1 (mkBroker true st)
   = (Ok [PNum (num 0)], mkBroker true st))
  ∧ (∀ doc, st !! name = Some doc →
            doc ∉ ["true"; "false"; EmptyString] →
            float doc = None →
            getValues self address 1 (mkBroker true st)
            = (Raise ValueError, mkBroker true st)).
Proof.
  intros Hmap.
  assert (∀ raw, st !! name = raw →
            getValues self address 1 (mkBroker true st)
            = match redis_decode raw with
              | Ok v => (Ok [v], mkBroker true st)
              | Raise e => (Raise e, mkBroker true st)
              end) as Hrun.
  { intros raw Hraw. unfold getValues. change (Z.to_nat 1) with 1%nat.
    cbn [seq getValues_loop].
    unfold variable_at, client_get. unfold_M. cbv beta iota zeta.
    replace (address + Z.of_nat 0 - 1)%Z with (address - 1)%Z by lia.
    rewrite Hmap. cbn.
    rewrite Hraw. by destruct (redis_decode raw). }
  split.
  - intros [Hraw|Hraw]; by rewrite (Hrun _ Hraw).
  - intros doc Hraw Hdoc Hfloat. rewrite (Hrun _ Hraw).
    rewrite !not_elem_of_cons in Hdoc. destruct Hdoc as (Ht & Hf & He & _).
    unfold redis_decode. rewrite !decide_False by done. by rewrite Hfloat.
Qed.

End ModbusProperties.

Lemma coils_read_back_as_written_witness :
  NoDup ["HYDRO_CMD_PO_EAU"; "HYDRO_CMD_PO_HUILE"]
  ∧ ∃ st',
      (Modbus.setValues (H := Modbus.example_wire) Modbus.example_block 1
         (Variables.PBool <$> [true; false]);;
       Modbus.getValues (H := Modbus.example_wire) Modbus.example_block 1
         (Z.of_nat (length [true; false])))
        (Simulator.mkBroker true ∅)
      = (Ok (Variables.PBool <$> [true; false]), Simulator.mkBroker true st').
Proof.
  assert (NoDup ["HYDRO_CMD_PO_EAU"; "HYDRO_CMD_PO_HUILE"]) as Hnd
    by compute_done.
  split; [exact Hnd|].
  destruct (coils_read_back_as_written (H := Modbus.example_wire)
              Modbus.example_block 1
              ["HYDRO_CMD_PO_EAU"; "HYDRO_CMD_PO_HUILE"] [true; false] ∅
              eq_refl Hnd)
    as (st' & Hrun & _).
  - intros [|[|i]] name Hi; [| |done]; injection Hi as <-; reflexivity.
  - exists st'. exact Hrun.
Defined.

Lemma registers_hold_rounded_numbers_witness :
  Modbus._toml_variables Modbus.example_block !! (3 - 1)%Z
  = Some "HYDRO_SSP_PO_EAU"
  ∧ Modbus.float_of_number (Q2Qc (3 # 2)) = Ok (Q2Qc (3 # 2))
  ∧ Modbus.py_round (Q2Qc (3 # 2)) = 2%Z
  ∧ (Modbus.setValues (H := Modbus.example_wire) Modbus.example_block 3
       [Variables.PNum (Q2Qc (3 # 2))];;
     Modbus.getValues (H := Modbus.example_wire) Modbus.example_block 3 1)
      (Simulator.mkBroker true ∅)
    = (Ok [Variables.PNum (num (Modbus.py_round (Q2Qc (3 # 2))))],
       Simulator.mkBroker true
         (<["HYDRO_SSP_PO_EAU" :=
              Modbus.bytes_of_int (Wire := Modbus.example_wire)
                (Modbus.py_round (Q2Qc (3 # 2)))]> ∅)).
Proof.
  split; [reflexivity|]. split; [by apply float_of_number_check|].
  split; [reflexivity|].
  destruct (registers_hold_rounded_numbers (H := Modbus.example_wire)
              Modbus.example_block 3 "HYDRO_SSP_PO_EAU" (Q2Qc (3 # 2)) ∅)
    as [Hrun _];
    [reflexivity|by apply float_of_number_check|reflexivity| |exact Hrun].
  change (Modbus.bytes_of_int (Modbus.py_round (Q2Qc (3 # 2)))) with "2".
  rewrite !not_elem_of_cons. split_and!; [done|done|done|].
  apply not_elem_of_nil.
Defined.

Lemma unmapped_address_stops_a_write_half_way_witness :
  Modbus._toml_variables Modbus.example_block !! 3%Z = None
  ∧ Modbus.setValues (H := Modbus.example_wire) Modbus.example_block 3
      [Variables.PBool true; Variables.PBool true]
      (Simulator.mkBroker true ∅)
    = (Raise KeyError,
       Simulator.mkBroker true (<["HYDRO_SSP_PO_EAU" := "true"]> ∅)).
Proof.
  split; [reflexivity|].
  destruct (unmapped_address_stops_a_write_half_way
              (H := Modbus.example_wire) Modbus.example_block 3
              "HYDRO_SSP_PO_EAU" (Variables.PBool true) (Modbus.Bytes "true")
              (Variables.PBool true) [] ∅)
    as [Hset _]; [reflexivity|reflexivity|reflexivity|exact Hset].
Defined.

Lemma read_of_a_variable_without_number_witness :
  Modbus._toml_variables Modbus.example_block !! (1 - 1)%Z
  = Some "HYDRO_CMD_PO_EAU"
  ∧ Modbus.getValues (H := Modbus.example_wire) Modbus.example_block 1 1
      (Simulator.mkBroker true ∅)
    = (Ok [Variables.PNum (num 0)], Simulator.mkBroker true ∅)
  ∧ Modbus.getValues (H := Modbus.example_wire) Modbus.example_block 1 1
      (Simulator.mkBroker true {["HYDRO_CMD_PO_EAU" := "null"]})
    = (Raise ValueError,
       Simulator.mkBroker true {["HYDRO_CMD_PO_EAU" := "null"]}).
Proof.
  split; [reflexivity|]. split.
  - destruct (read_of_a_variable_without_number (H := Modbus.example_wire)
                Modbus.example_block 1 "HYDRO_CMD_PO_EAU" ∅ eq_refl)
      as [Hzero _].
    apply Hzero. by left.
  - destruct (read_of_a_variable_without_number (H := Modbus.example_wire)
                Modbus.example_block 1 "HYDRO_CMD_PO_EAU"
                {["HYDRO_CMD_PO_EAU" := "null"]} eq_refl)
      as [_ Hbad].
    apply (Hbad "null"); [reflexivity| |reflexivity].
    rewrite !not_elem_of_cons. split_and!; [done|done|done|].
    apply not_elem_of_nil.
Defined.
